(** * YaMDb API: a shallow embedding of the request handlers

    The development follows the layout of the project:
    - [reviews/models.py]   : the entity schema and its [on_delete] rules;
    - [api/serializers.py]  : field and object level validation;
    - [api/views.py]        : the request handlers.

    The relational store is a record of finite maps keyed by primary key.
    Handlers are functions in a state-and-exception monad over that store;
    an exception that reaches the framework is turned into a status code by
    [status_of_exception]. *)

From Stdlib Require Import ZArith QArith.
Set Warnings "-register-all".
#[local] Set Warnings "-notation-overridden".
From stdpp Require Import base option list gmap fin_maps strings pretty.

Local Open Scope string_scope.
Local Open Scope Z_scope.

(** ** Request and response bodies *)

(** Parsed JSON, without floating point numbers and booleans. *)
Inductive JSON :=
| JNull
| JStr (s : string)
| JInt (z : Z)
| JList (l : list JSON)
| JObj (l : list (string * JSON)).

(** [dict.get] on the members of a JSON object. *)
Fixpoint dict_get (k : string) (l : list (string * JSON)) : option JSON :=
  match l with
  | [] => None
  | (k', v) :: l' => if String.eqb k k' then Some v else dict_get k l'
  end.

Definition field_of (k : string) (j : JSON) : option JSON :=
  match j with
  | JObj l => dict_get k l
  | _ => None
  end.

(** ** Exceptions *)

(** The body of a [ValidationError]: field name (or [non_field_errors])
    and message code. *)
Definition ErrorDetail := list (string * string).

Inductive Exception :=
| ValidationError (detail : ErrorDetail)
| Http404
| NotAuthenticated
| PermissionDenied
| MethodNotAllowed
| MultipleObjectsReturned
| IntegrityError
| AssertionError
| AttributeError
| TypeError.

(** The framework's exception handler: API exceptions and [Http404] carry
    their own status, anything else is an unhandled server error. *)
Definition status_of_exception (e : Exception) : nat :=
  match e with
  | ValidationError _ => 400
  | Http404 => 404
  | NotAuthenticated => 401
  | PermissionDenied => 403
  | MethodNotAllowed => 405
  | MultipleObjectsReturned | IntegrityError | AssertionError
  | AttributeError | TypeError => 500
  end%nat.

Inductive Result (A : Type) :=
| Ok (a : A)
| Raise (e : Exception).
Arguments Ok {A} a.
Arguments Raise {A} e.

#[global] Instance Result_ret : MRet Result := λ A a, Ok a.
#[global] Instance Result_bind : MBind Result := λ A B f r,
  match r with
  | Ok a => f a
  | Raise e => Raise e
  end.
#[global] Instance Result_fmap : FMap Result := λ A B f r,
  match r with
  | Ok a => Ok (f a)
  | Raise e => Raise e
  end.

Module Response.
Record t := mk { status : nat; data : JSON }.
End Response.

Definition HTTP_200_OK : nat := 200.
Definition HTTP_201_CREATED : nat := 201.
Definition HTTP_204_NO_CONTENT : nat := 204.
Definition HTTP_400_BAD_REQUEST : nat := 400.

(** ** users/models.py *)

(** Modelled from the spec: the [User] entity of [users/models.py], which is
    not among the sources (unique username, unique email, a role, optional
    bio and display names). *)
Module User.
Record t := mk {
  username : string;
  email : string;
  first_name : string;
  last_name : string;
  bio : string;
  role : string
}.
End User.

(** ** reviews/models.py *)

Module Genre.
Record t := mk { name : string }.
End Genre.

Module Category.
Record t := mk { name : string }.
End Category.

Module Title.
Record t := mk {
  name : string;
  year : Z;
  description : string;
  category : option string
}.
End Title.

Module GenreTitle.
Record t := mk { genre : string; title : nat }.
End GenreTitle.

Module Review.
Record t := mk {
  title : nat;
  text : string;
  author : nat;
  score : Z;
  pub_date : nat
}.
End Review.

Module Comments.
Record t := mk {
  review : nat;
  text : string;
  author : nat;
  pub_date : nat
}.
End Comments.

(** [Review.SCORE_CHOICES], the values only. *)
Definition SCORE_CHOICES : list Z := [1; 2; 3; 4; 5; 6; 7; 8; 9; 10].

(** [validate_year], given [datetime.now().year]. *)
Definition validate_year (current_year year : Z) : Result unit :=
  if bool_decide (year > current_year)
  then Raise (ValidationError [("", "Произведение еще не вышло.")])
  else Ok ().

Inductive OnDelete := CASCADE | SET_NULL.

(** The [on_delete] argument of each foreign key of the schema. *)
Definition Title_category_on_delete : OnDelete := SET_NULL.
Definition GenreTitle_genre_on_delete : OnDelete := CASCADE.
Definition GenreTitle_title_on_delete : OnDelete := CASCADE.
Definition Review_title_on_delete : OnDelete := CASCADE.
Definition Review_author_on_delete : OnDelete := CASCADE.
Definition Comments_review_on_delete : OnDelete := CASCADE.
Definition Comments_author_on_delete : OnDelete := CASCADE.

(** ** The store *)

(** Tables keyed by primary key: the slug for categories and genres, the
    automatic [id] elsewhere. [outbox] collects the confirmation mails
    handed to the mail transport. *)
Record Store := {
  users : gmap nat User.t;
  categories : gmap string Category.t;
  genres : gmap string Genre.t;
  titles : gmap nat Title.t;
  genre_titles : gmap nat GenreTitle.t;
  reviews : gmap nat Review.t;
  comments : gmap nat Comments.t;
  outbox : list (string * string)
}.

Definition with_users (u : gmap nat User.t) (s : Store) : Store :=
  {| users := u; categories := categories s; genres := genres s;
     titles := titles s; genre_titles := genre_titles s;
     reviews := reviews s; comments := comments s; outbox := outbox s |}.

Definition with_categories (c : gmap string Category.t) (s : Store) : Store :=
  {| users := users s; categories := c; genres := genres s;
     titles := titles s; genre_titles := genre_titles s;
     reviews := reviews s; comments := comments s; outbox := outbox s |}.

Definition with_genres (g : gmap string Genre.t) (s : Store) : Store :=
  {| users := users s; categories := categories s; genres := g;
     titles := titles s; genre_titles := genre_titles s;
     reviews := reviews s; comments := comments s; outbox := outbox s |}.

Definition with_titles (t : gmap nat Title.t) (s : Store) : Store :=
  {| users := users s; categories := categories s; genres := genres s;
     titles := t; genre_titles := genre_titles s;
     reviews := reviews s; comments := comments s; outbox := outbox s |}.

Definition with_genre_titles (g : gmap nat GenreTitle.t) (s : Store) : Store :=
  {| users := users s; categories := categories s; genres := genres s;
     titles := titles s; genre_titles := g;
     reviews := reviews s; comments := comments s; outbox := outbox s |}.

Definition with_reviews (r : gmap nat Review.t) (s : Store) : Store :=
  {| users := users s; categories := categories s; genres := genres s;
     titles := titles s; genre_titles := genre_titles s;
     reviews := r; comments := comments s; outbox := outbox s |}.

Definition with_comments (c : gmap nat Comments.t) (s : Store) : Store :=
  {| users := users s; categories := categories s; genres := genres s;
     titles := titles s; genre_titles := genre_titles s;
     reviews := reviews s; comments := c; outbox := outbox s |}.

Definition with_outbox (o : list (string * string)) (s : Store) : Store :=
  {| users := users s; categories := categories s; genres := genres s;
     titles := titles s; genre_titles := genre_titles s;
     reviews := reviews s; comments := comments s; outbox := o |}.

(** The state-and-exception monad of the handlers. A raised exception keeps
    the store as it was when it was raised. *)
Definition M (A : Type) : Type := Store → Result A * Store.

#[global] Instance M_ret : MRet M := λ A a s, (Ok a, s).
#[global] Instance M_bind : MBind M := λ A B f m s,
  match m s with
  | (Ok a, s') => f a s'
  | (Raise e, s') => (Raise e, s')
  end.

Definition raise {A} (e : Exception) : M A := λ s, (Raise e, s).
Definition get_store : M Store := λ s, (Ok s, s).
Definition modify (f : Store → Store) : M unit := λ s, (Ok (), f s).
Definition lift {A} (r : Result A) : M A := λ s, (r, s).

(** ** Querysets *)

(** [Model.objects.filter(...)]: the matching rows with their keys. *)
Definition objects_filter `{Countable K} {A} (P : K → A → bool)
    (m : gmap K A) : list (K * A) :=
  List.filter (λ kv, P kv.1 kv.2) (map_to_list m).

(** [queryset.get()]: the single row, or an exception. The absent case is
    returned as [None] for the caller to turn into its own error. *)
Definition queryset_get {R} (qs : list R) : Result (option R) :=
  match qs with
  | [] => Ok None
  | [r] => Ok (Some r)
  | _ => Raise MultipleObjectsReturned
  end.

(** [get_object_or_404(Model, pk=...)]. *)
Definition get_object_or_404 `{Countable K} {A} (m : gmap K A) (k : K)
    : Result A :=
  match m !! k with
  | Some a => Ok a
  | None => Raise Http404
  end.

(** The key the database gives to the next inserted row. *)
Definition next_id {A} (m : gmap nat A) : nat :=
  S (max_list (elements (dom m))).

(** ** Deletion *)

(** What the deletion of a referenced row does to the rows of a table that
    refer to it, by the foreign key's [on_delete]: [CASCADE] deletes them,
    [SET_NULL] clears the reference. *)
Definition on_delete_rows `{Countable K} {A} (rule : OnDelete)
    (refers : A → bool) (set_null : A → A) (m : gmap K A) : gmap K A :=
  match rule with
  | CASCADE => filter (λ kv, refers kv.2 = false) m
  | SET_NULL => (λ a, if refers a then set_null a else a) <$> m
  end.

Definition Title_clear_category (t : Title.t) : Title.t :=
  Title.mk (Title.name t) (Title.year t) (Title.description t) None.

(** [category.delete()] *)
Definition Category_delete (slug : string) (s : Store) : Store :=
  with_titles
    (on_delete_rows Title_category_on_delete
       (λ t, bool_decide (Title.category t = Some slug))
       Title_clear_category (titles s))
    (with_categories (delete slug (categories s)) s).

(** [genre.delete()] *)
Definition Genre_delete (slug : string) (s : Store) : Store :=
  with_genre_titles
    (on_delete_rows GenreTitle_genre_on_delete
       (λ g, bool_decide (GenreTitle.genre g = slug)) id (genre_titles s))
    (with_genres (delete slug (genres s)) s).

(** The rows a deletion took from a table. *)
Definition deleted_from `{Countable K} {A} (before after : gmap K A) (k : K)
    : bool :=
  bool_decide (is_Some (before !! k) ∧ after !! k = None).

(** The comments after the reviews table went from [before] to [after]. *)
Definition Comments_collect (before after : gmap nat Review.t)
    (c : gmap nat Comments.t) : gmap nat Comments.t :=
  on_delete_rows Comments_review_on_delete
    (λ c, deleted_from before after (Comments.review c)) id c.

(** [review.delete()] *)
Definition Review_delete (pk : nat) (s : Store) : Store :=
  let reviews' := delete pk (reviews s) in
  with_comments (Comments_collect (reviews s) reviews' (comments s))
    (with_reviews reviews' s).

(** [comment.delete()] *)
Definition Comments_delete (pk : nat) (s : Store) : Store :=
  with_comments (delete pk (comments s)) s.

(** [title.delete()]: the title's row, then its join rows and its reviews
    by their [on_delete]; a deleted review takes its comments along. *)
Definition Title_delete (pk : nat) (s : Store) : Store :=
  let reviews' :=
    on_delete_rows Review_title_on_delete
      (λ r, bool_decide (Review.title r = pk)) id (reviews s) in
  with_comments (Comments_collect (reviews s) reviews' (comments s))
    (with_reviews reviews'
       (with_genre_titles
          (on_delete_rows GenreTitle_title_on_delete
             (λ g, bool_decide (GenreTitle.title g = pk)) id
             (genre_titles s))
          (with_titles (delete pk (titles s)) s))).

(** [user.delete()]: the user's reviews and comments go by their
    [on_delete], and so do the comments on the deleted reviews. *)
Definition User_delete (pk : nat) (s : Store) : Store :=
  let reviews' :=
    on_delete_rows Review_author_on_delete
      (λ r, bool_decide (Review.author r = pk)) id (reviews s) in
  with_comments
    (Comments_collect (reviews s) reviews'
       (on_delete_rows Comments_author_on_delete
          (λ c, bool_decide (Comments.author c = pk)) id (comments s)))
    (with_reviews reviews' (with_users (delete pk (users s)) s)).

(** ** Requests *)

(** A request after authentication: the caller's primary key ([None] for an
    anonymous caller) and the parsed body. *)
Module Request.
Record t (D : Type) := mk { user : option nat; data : D }.
Arguments mk {D} user data.
Arguments user {D} _.
Arguments data {D} _.
End Request.

(** A body whose values are all strings. *)
Abbreviation Form := (gmap string string).

(** Python truthiness of [dict.get(key)] on such a body. *)
Definition truthy (v : option string) : bool :=
  match v with
  | None => false
  | Some s => negb (String.eqb s "")
  end.

(** ** Collaborators *)

(** What the handlers take from modules that are not among the sources
    ([api/utils.py], [api/permissions.py], the properties of
    [users.models.User]) and from the libraries (token signing, the e-mail
    address validator, the clock). *)
Class Collaborators := {
  (** [utils.get_confirmation_code(user)] *)
  get_confirmation_code : nat → User.t → string;
  (** [utils.check_confirmation_code(user, code)] *)
  check_confirmation_code : nat → User.t → string → bool;
  (** [str(RefreshToken.for_user(user).access_token)] *)
  access_token : nat → User.t → string;
  (** [User.is_admin] and [User.is_moderator] *)
  is_admin : User.t → bool;
  is_moderator : User.t → bool;
  (** the validator of [EmailField] *)
  EmailValidator : string → bool;
  (** the field level validation that [UserSerializer], a [ModelSerializer],
      derives from the [User] model: given the users table, the instance
      being updated, a field name and the submitted value, the validated
      value or [None] when the field rejects it *)
  User_field_validation :
    gmap nat User.t → option nat → string → string → option string;
  (** Python's [int] on a text *)
  python_int : string → option Z;
  (** the range validators the database backend gives an [IntegerField] *)
  db_integer_range : Z → bool;
  (** the database's case-insensitive containment test ([icontains]) *)
  icontains : string → string → bool;
  (** the clock: [datetime.now().year] and the time stamp of a new row *)
  current_year : Z;
  now : nat
}.

(** A JSON body. *)
Abbreviation Body := (gmap string JSON).

(** The methods the routes map to actions; [HEAD] and [OPTIONS] are
    answered by the framework. *)
Inductive Method := GET | POST | PUT | PATCH | DELETE.

(** [request.method in SAFE_METHODS] *)
Definition is_safe (m : Method) : bool :=
  match m with
  | GET => true
  | _ => false
  end.

(** The actions of a viewset. *)
Module Action.
Inductive t := list | create | retrieve | update | partial_update | destroy.
End Action.

#[global] Instance Action_eq_dec : EqDecision Action.t.
Proof. solve_decision. Defined.

(** The method the router maps to each action. *)
Definition Action_method (a : Action.t) : Method :=
  match a with
  | Action.list | Action.retrieve => GET
  | Action.create => POST
  | Action.update => PUT
  | Action.partial_update => PATCH
  | Action.destroy => DELETE
  end.

(** [validated_data] of the serializers of a title: of [TitlePostSerializer]
    on create ([TitleData]) and on a partial update ([TitlePatch]), and of
    [TitleSerializer] on a full update ([TitlePut]). A related row stands
    for itself by its slug; a nested value is the pair of its name and
    slug. *)
Module TitleData.
Record t := mk {
  name : string;
  year : Z;
  description : string;
  genre : list string;
  category : string
}.
End TitleData.

Module TitlePatch.
Record t := mk {
  name : option string;
  year : option Z;
  description : option string;
  genre : option (list string);
  category : option string
}.
End TitlePatch.

Module TitlePut.
Record t := mk {
  name : string;
  year : Z;
  description : string;
  genre : option (list (string * string));
  category : option (string * string)
}.
End TitlePut.

Module TitlePutPatch.
Record t := mk {
  name : option string;
  year : option Z;
  description : option string;
  genre : option (list (string * string));
  category : option (string * string)
}.
End TitlePutPatch.

(** The query parameters [TitleFilter] reads; [None] for one that is not
    given. *)
Module TitleFilter.
Record t := mk {
  category : option string;
  year : option Z;
  name : option string;
  genre : option string
}.
End TitleFilter.

Definition Z_sum (l : list Z) : Z := foldr Z.add 0 l.

(** [Avg]: the mean of the values, as an exact fraction; no value when
    there is none to average. *)
Definition Avg (values : list Z) : option Q :=
  match values with
  | [] => None
  | _ => Some (Qmake (Z_sum values) (Pos.of_nat (length values)))
  end.

(** [IntegerField.to_representation], Python's [int(value)]: the fraction
    cut towards zero. *)
Definition IntegerField_to_representation (value : Q) : Z :=
  Z.quot (Qnum value) (Zpos (Qden value)).

(** ** api/serializers.py *)

Definition is_space (a : Ascii.ascii) : bool :=
  let n := Ascii.nat_of_ascii a in
  ((9 <=? n) && (n <=? 13) || (28 <=? n) && (n <=? 32))%nat.

Fixpoint lstrip (s : string) : string :=
  match s with
  | String a s' => if is_space a then lstrip s' else s
  | EmptyString => EmptyString
  end.

Definition str_strip (s : string) : string :=
  String.rev (lstrip (String.rev (lstrip s))).

(** [CharField(max_length=n, required=True)] on the value found under the
    field's key: required, not blank, stripped, then at most [n] characters.
    (ASCII white space and byte length stand for Python's.) *)
Definition CharField_run_validation (max_length : option nat)
    (v : option string) : Result string :=
  match v with
  | None => Raise (ValidationError [("", "required")])
  | Some raw =>
      let value := str_strip raw in
      if String.eqb value "" then Raise (ValidationError [("", "blank")])
      else match max_length with
           | Some n =>
               if (String.length value <=? n)%nat then Ok value
               else Raise (ValidationError [("", "max_length")])
           | None => Ok value
           end
  end.

(** The errors of one field, filed under the field's name. *)
Definition field_errors {A} (name : string) (r : Result A) : ErrorDetail :=
  match r with
  | Raise (ValidationError d) => (λ e, (name, e.2)) <$> d
  | _ => []
  end.

Section serializers.
Context `{Collaborators}.

Definition EmailField_run_validation (max_length : option nat)
    (v : option string) : Result string :=
  value ← CharField_run_validation max_length v;
  if EmailValidator value then Ok value
  else Raise (ValidationError [("", "invalid")]).

(** *** UserSignUpSerializer *)

Definition UserSignUpSerializer_validate_username (username : string)
    : Result string :=
  if String.eqb username "me"
  then Raise (ValidationError
         [("", "Зарезервированный username. Используйте другой.")])
  else Ok username.

(** [validate]: the queryset of users matching the username or the
    e-mail; [user.get()] is evaluated only when the queryset is not
    empty, and raises when it holds more than one row. *)
Definition UserSignUpSerializer_validate (data : string * string)
    : M (string * string) :=
  s ← get_store;
  let email := data.2 in
  let username := data.1 in
  let user := objects_filter
    (λ _ u, String.eqb (User.username u) username
            || String.eqb (User.email u) email) (users s) in
  match user with
  | [] => mret data
  | _ =>
      u ← lift (queryset_get user);
      match u with
      | Some (_, u) =>
          if negb (String.eqb (User.email u) email)
             || negb (String.eqb (User.username u) username)
          then raise (ValidationError
                 [("non_field_errors",
                   "Имя пользователя или email не соответствуют.")])
          else mret data
      | None => mret data
      end
  end.

(** [run_validation] of the serializer: every field first (a field's
    [validate_<name>] hook after its own validation), all field errors
    reported together, and only then [validate]. *)
Definition UserSignUpSerializer_to_internal_value (data : Form)
    : Result (string * string) :=
  let username : Result string :=
    CharField_run_validation (Some 150%nat) (data !! "username")
      ≫= UserSignUpSerializer_validate_username in
  let email := EmailField_run_validation (Some 256%nat) (data !! "email") in
  match username, email with
  | Ok u, Ok e => Ok (u, e)
  | _, _ => Raise (ValidationError
              (field_errors "username" username
               ++ field_errors "email" email)%list)
  end.

Definition UserSignUpSerializer_run_validation (data : Form)
    : M (string * string) :=
  value ← lift (UserSignUpSerializer_to_internal_value data);
  UserSignUpSerializer_validate value.

(** Modelled from the spec: the row [User.objects.create(username=...,
    email=...)] inserts; the model's defaults are in [users/models.py],
    which is not among the sources. *)
Definition User_new (username email : string) : User.t :=
  User.mk username email "" "" "" "user".

(** [User.objects.create]: the table refuses a second row with the same
    username or the same e-mail. *)
Definition User_objects_create (u : User.t) : M (nat * User.t) :=
  s ← get_store;
  match objects_filter
    (λ _ u', String.eqb (User.username u') (User.username u)
             || String.eqb (User.email u') (User.email u)) (users s) with
  | [] =>
      let pk := next_id (users s) in
      modify (with_users (<[pk := u]> (users s)));;
      mret (pk, u)
  | _ => raise IntegrityError
  end.

(** [User.objects.get_or_create(username=..., email=...)]. *)
Definition User_objects_get_or_create (username email : string)
    : M (nat * User.t) :=
  s ← get_store;
  found ← lift (queryset_get (objects_filter
    (λ _ u, String.eqb (User.username u) username
            && String.eqb (User.email u) email) (users s)));
  match found with
  | Some u => mret u
  | None => User_objects_create (User_new username email)
  end.

(** [utils.send_confirmation_email]: the message is handed to the mail
    transport. *)
Definition send_confirmation_email (email code : string) : M unit :=
  modify (λ s, with_outbox (outbox s ++ [(email, code)])%list s).

Definition UserSignUpSerializer_create (validated_data : string * string)
    : M (nat * User.t) :=
  user ← User_objects_get_or_create validated_data.1 validated_data.2;
  let email := validated_data.2 in
  send_confirmation_email email (get_confirmation_code user.1 user.2);;
  mret user.

Definition UserSignUpSerializer_data (u : User.t) : JSON :=
  JObj [("username", JStr (User.username u)); ("email", JStr (User.email u))].

(** *** Fields on JSON values *)

Definition required_field {A} (v : option JSON) (run : JSON → Result A)
    : Result A :=
  match v with
  | None => Raise (ValidationError [("", "required")])
  | Some j => run j
  end.

(** A field that is not required, or any field of a partial update. *)
Definition optional_field {A} (v : option JSON) (run : JSON → Result A)
    : Result (option A) :=
  match v with
  | None => Ok None
  | Some j => a ← run j; Ok (Some a)
  end.

(** [CharField]: text, or a number read as its decimal text. *)
Definition JSON_CharField (max_length : option nat) (j : JSON)
    : Result string :=
  match j with
  | JStr v => CharField_run_validation max_length (Some v)
  | JInt z => CharField_run_validation max_length (Some (pretty z))
  | JNull => Raise (ValidationError [("", "null")])
  | _ => Raise (ValidationError [("", "invalid")])
  end.

Definition IntegerField_to_internal_value (j : JSON) : Result Z :=
  match j with
  | JInt z => Ok z
  | JStr v =>
      match python_int v with
      | Some z => Ok z
      | None => Raise (ValidationError [("", "invalid")])
      end
  | JNull => Raise (ValidationError [("", "null")])
  | _ => Raise (ValidationError [("", "invalid")])
  end.

(** [ChoiceField]: the choice whose text is [str(data)]. *)
Definition ChoiceField_to_internal_value (choices : list Z) (j : JSON)
    : Result Z :=
  match j with
  | JNull => Raise (ValidationError [("", "null")])
  | JStr v =>
      match List.find (λ z, String.eqb (pretty z) v) choices with
      | Some z => Ok z
      | None => Raise (ValidationError [("", "invalid_choice")])
      end
  | JInt i =>
      match List.find (λ z, String.eqb (pretty z) (pretty i)) choices with
      | Some z => Ok z
      | None => Raise (ValidationError [("", "invalid_choice")])
      end
  | _ => Raise (ValidationError [("", "invalid_choice")])
  end.

(** [SlugRelatedField(queryset=..., slug_field='slug').to_internal_value]:
    the row whose slug is the given text. The text Python gives a list or
    an object is taken to be no slug of the table. *)
Definition SlugRelatedField_to_internal_value {A} (table : gmap string A)
    (j : JSON) : Result string :=
  match j with
  | JStr v =>
      if bool_decide (is_Some (table !! v)) then Ok v
      else Raise (ValidationError [("", "does_not_exist")])
  | JInt z =>
      if bool_decide (is_Some (table !! pretty z)) then Ok (pretty z)
      else Raise (ValidationError [("", "does_not_exist")])
  | _ => Raise (ValidationError [("", "does_not_exist")])
  end.

(** [run_validation] of a single related field that does not allow null:
    the empty text counts as null. *)
Definition SlugRelatedField_run_validation {A} (table : gmap string A)
    (j : JSON) : Result string :=
  match j with
  | JNull | JStr "" => Raise (ValidationError [("", "null")])
  | _ => SlugRelatedField_to_internal_value table j
  end.

Fixpoint each_slug {A} (table : gmap string A) (l : list JSON)
    : Result (list string) :=
  match l with
  | [] => Ok []
  | j :: l' =>
      v ← SlugRelatedField_to_internal_value table j;
      vs ← each_slug table l';
      Ok (v :: vs)
  end.

(** [SlugRelatedField(..., many=True)]: a list, which may be empty; an
    object is iterated over its keys. *)
Definition ManyRelatedField_run_validation {A} (table : gmap string A)
    (j : JSON) : Result (list string) :=
  match j with
  | JList l => each_slug table l
  | JObj l => each_slug table (JStr <$> l.*1)
  | JNull => Raise (ValidationError [("", "null")])
  | _ => Raise (ValidationError [("", "not_a_list")])
  end.

Definition is_slug_char (a : Ascii.ascii) : bool :=
  let n := Ascii.nat_of_ascii a in
  ((48 <=? n) && (n <=? 57) || (65 <=? n) && (n <=? 90)
   || (97 <=? n) && (n <=? 122) || (n =? 45) || (n =? 95))%nat.

(** The [SlugField] of a model serializer whose slug is the primary key:
    a slug of at most 50 characters that no row of the table has yet. *)
Definition SlugField_run_validation {A} (table : gmap string A) (j : JSON)
    : Result string :=
  v ← JSON_CharField None j;
  if forallb is_slug_char (String.list_ascii_of_string v)
     && (String.length v <=? 50)%nat
     && bool_decide (table !! v = None)
  then Ok v
  else Raise (ValidationError [("", "invalid")]).

(** *** UserSerializer *)

Definition UserSerializer_fields : list string :=
  ["username"; "email"; "first_name"; "last_name"; "bio"; "role"].

Definition UserSerializer_validate_role (request_user : User.t)
    (instance : option User.t) (role : string) : Result string :=
  if negb (is_admin request_user) then
    match instance with
    | Some i => Ok (User.role i)
    | None => Raise AttributeError
    end
  else Ok role.

(** One field of a partial update: skipped when the body has no value for
    it, else validated by the field and then by its [validate_<name>]. *)
Definition UserSerializer_field (table : gmap nat User.t)
    (request_user : User.t) (instance : nat * User.t) (data : Form)
    (name : string) : Result (option (string * string)) :=
  match data !! name with
  | None => Ok None
  | Some raw =>
      match User_field_validation table (Some instance.1) name raw with
      | None => Raise (ValidationError [(name, "invalid")])
      | Some value =>
          if String.eqb name "role" then
            role ← UserSerializer_validate_role request_user
                     (Some instance.2) value;
            Ok (Some (name, role))
          else Ok (Some (name, value))
      end
  end.

(** The loop of [to_internal_value]: validation errors are gathered over
    all fields, any other exception leaves the loop at once. *)
Fixpoint collect_fields {A} (rs : list (Result (option A)))
    : Result (list A) :=
  match rs with
  | [] => Ok []
  | r :: rs' =>
      match r with
      | Raise (ValidationError d) =>
          match collect_fields rs' with
          | Raise (ValidationError d') => Raise (ValidationError (d ++ d')%list)
          | Raise e => Raise e
          | Ok _ => Raise (ValidationError d)
          end
      | Raise e => Raise e
      | Ok x =>
          match collect_fields rs' with
          | Raise e => Raise e
          | Ok l => Ok (from_option (λ a, a :: l) l x)
          end
      end
  end.

(** [run_validation] with [partial=True]; the result is
    [validated_data], in field order. *)
Definition UserSerializer_run_validation (table : gmap nat User.t)
    (request_user : User.t) (instance : nat * User.t) (data : Form)
    : Result (list (string * string)) :=
  collect_fields
    (UserSerializer_field table request_user instance data
       <$> UserSerializer_fields).

Definition User_setattr (u : User.t) (attr : string * string) : User.t :=
  let (name, v) := attr in
  if String.eqb name "username" then
    User.mk v (User.email u) (User.first_name u) (User.last_name u)
      (User.bio u) (User.role u)
  else if String.eqb name "email" then
    User.mk (User.username u) v (User.first_name u) (User.last_name u)
      (User.bio u) (User.role u)
  else if String.eqb name "first_name" then
    User.mk (User.username u) (User.email u) v (User.last_name u)
      (User.bio u) (User.role u)
  else if String.eqb name "last_name" then
    User.mk (User.username u) (User.email u) (User.first_name u) v
      (User.bio u) (User.role u)
  else if String.eqb name "bio" then
    User.mk (User.username u) (User.email u) (User.first_name u)
      (User.last_name u) v (User.role u)
  else if String.eqb name "role" then
    User.mk (User.username u) (User.email u) (User.first_name u)
      (User.last_name u) (User.bio u) v
  else u.

Definition User_getattr (u : User.t) (name : string) : string :=
  if String.eqb name "username" then User.username u
  else if String.eqb name "email" then User.email u
  else if String.eqb name "first_name" then User.first_name u
  else if String.eqb name "last_name" then User.last_name u
  else if String.eqb name "bio" then User.bio u
  else if String.eqb name "role" then User.role u
  else "".

(** [instance.save()] of a user: the table refuses a username or an
    e-mail that another row has. *)
Definition User_save (pk : nat) (u : User.t) : M unit :=
  s ← get_store;
  match objects_filter
    (λ k u', negb (bool_decide (k = pk))
             && (String.eqb (User.username u') (User.username u)
                 || String.eqb (User.email u') (User.email u)))
    (users s) with
  | [] => modify (with_users (<[pk := u]> (users s)))
  | _ => raise IntegrityError
  end.

(** [ModelSerializer.update]: every validated attribute is set on the
    instance, which is then saved. *)
Definition UserSerializer_update (instance : nat * User.t)
    (validated_data : list (string * string)) : M User.t :=
  let u := foldl User_setattr instance.2 validated_data in
  User_save instance.1 u;;
  mret u.

Definition UserSerializer_data (u : User.t) : JSON :=
  JObj [("username", JStr (User.username u));
        ("email", JStr (User.email u));
        ("first_name", JStr (User.first_name u));
        ("last_name", JStr (User.last_name u));
        ("bio", JStr (User.bio u));
        ("role", JStr (User.role u))].

(** *** CategorySerializer and GenreSerializer *)

Definition CategorySerializer_data (slug : string) (c : Category.t) : JSON :=
  JObj [("name", JStr (Category.name c)); ("slug", JStr slug)].

Definition GenreSerializer_data (slug : string) (g : Genre.t) : JSON :=
  JObj [("name", JStr (Genre.name g)); ("slug", JStr slug)].

(** [run_validation] of either serializer, also when nested as a field:
    an object with a name and a slug that is new to the table. *)
Definition NameSlug_run_validation {A} (table : gmap string A) (j : JSON)
    : Result (string * string) :=
  match j with
  | JObj l =>
      let name :=
        required_field (dict_get "name" l) (JSON_CharField (Some 256%nat)) in
      let slug :=
        required_field (dict_get "slug" l) (SlugField_run_validation table) in
      match name, slug with
      | Ok n, Ok sl => Ok (n, sl)
      | _, _ => Raise (ValidationError
                  (field_errors "name" name ++ field_errors "slug" slug)%list)
      end
  | JNull => Raise (ValidationError [("", "null")])
  | _ => Raise (ValidationError [("non_field_errors", "invalid")])
  end.

Definition CategorySerializer_run_validation (s : Store)
    : JSON → Result (string * string) :=
  NameSlug_run_validation (categories s).

Definition GenreSerializer_run_validation (s : Store)
    : JSON → Result (string * string) :=
  NameSlug_run_validation (genres s).

(** [GenreSerializer(many=True)]: a list, each item validated by the
    child. *)
Definition GenreSerializer_many_run_validation (s : Store) (j : JSON)
    : Result (list (string * string)) :=
  match j with
  | JList l =>
      collect_fields
        ((λ item, v ← GenreSerializer_run_validation s item; Ok (Some v))
           <$> l)
  | JNull => Raise (ValidationError [("", "null")])
  | _ => Raise (ValidationError [("non_field_errors", "not_a_list")])
  end.

(** *** The fields of a title *)

Definition Title_name_field : JSON → Result string :=
  JSON_CharField (Some 256%nat).

Definition Title_description_field : JSON → Result string :=
  JSON_CharField None.

(** [year]: an integer that passes [validate_year] and the range
    validators; the validators all run, and their errors add up. *)
Definition Title_year_field (j : JSON) : Result Z :=
  year ← IntegerField_to_internal_value j;
  match validate_year current_year year, db_integer_range year with
  | Ok _, true => Ok year
  | r, in_range =>
      Raise (ValidationError
        (field_errors "" r ++ (if in_range then [] else [("", "range")]))%list)
  end.

(** The slugs of [title.genre.all()], one for each join row. *)
Definition Title_genre_all (s : Store) (pk : nat) : list string :=
  (λ kv, GenreTitle.genre kv.2)
    <$> objects_filter (λ _ g, bool_decide (GenreTitle.title g = pk))
          (genre_titles s).

(** *** TitleSerializer *)

(** [rating] is read from the instance: [None] when the instance has no
    such attribute (the field is then left out), else the annotation of
    the queryset it came from, which is [None] when there is no value. *)
Definition TitleSerializer_data (s : Store) (pk : nat) (t : Title.t)
    (rating : option (option Q)) : JSON :=
  JObj ([("id", JInt (Z.of_nat pk));
         ("name", JStr (Title.name t));
         ("year", JInt (Title.year t))]
        ++ from_option (λ r,
             [("rating",
               from_option (λ v, JInt (IntegerField_to_representation v))
                 JNull r)]) [] rating
        ++ [("description", JStr (Title.description t));
        ("genre", JList (omap (λ slug, GenreSerializer_data slug
                                         <$> genres s !! slug)
                           (Title_genre_all s pk)));
        ("category", from_option id JNull
                       (slug ← Title.category t;
                        CategorySerializer_data slug
                          <$> categories s !! slug))])%list.

(** [run_validation] on a full update: [genre] and [category] are
    nested serializers that are not required. *)
Definition TitleSerializer_to_internal_value (s : Store) (data : Body)
    : Result TitlePut.t :=
  let name := required_field (data !! "name") Title_name_field in
  let year := required_field (data !! "year") Title_year_field in
  let description :=
    required_field (data !! "description") Title_description_field in
  let genre :=
    optional_field (data !! "genre")
      (GenreSerializer_many_run_validation s) in
  let category :=
    optional_field (data !! "category")
      (CategorySerializer_run_validation s) in
  match name, year, description, genre, category with
  | Ok n, Ok y, Ok d, Ok g, Ok c => Ok (TitlePut.mk n y d g c)
  | _, _, _, _, _ =>
      Raise (ValidationError
        (field_errors "name" name ++ field_errors "year" year
         ++ field_errors "description" description
         ++ field_errors "genre" genre
         ++ field_errors "category" category)%list)
  end.

(** The same fields on a partial update: none is required. *)
Definition TitleSerializer_to_internal_value_partial (s : Store)
    (data : Body) : Result TitlePutPatch.t :=
  let name := optional_field (data !! "name") Title_name_field in
  let year := optional_field (data !! "year") Title_year_field in
  let description :=
    optional_field (data !! "description") Title_description_field in
  let genre :=
    optional_field (data !! "genre")
      (GenreSerializer_many_run_validation s) in
  let category :=
    optional_field (data !! "category")
      (CategorySerializer_run_validation s) in
  match name, year, description, genre, category with
  | Ok n, Ok y, Ok d, Ok g, Ok c => Ok (TitlePutPatch.mk n y d g c)
  | _, _, _, _, _ =>
      Raise (ValidationError
        (field_errors "name" name ++ field_errors "year" year
         ++ field_errors "description" description
         ++ field_errors "genre" genre
         ++ field_errors "category" category)%list)
  end.

Definition TitlePut_as_patch (d : TitlePut.t) : TitlePutPatch.t :=
  TitlePutPatch.mk (Some (TitlePut.name d)) (Some (TitlePut.year d))
    (Some (TitlePut.description d)) (TitlePut.genre d)
    (TitlePut.category d).

(** [ModelSerializer.create]: it asserts that no nested serializer has a
    value among the validated data, then creates the row. *)
Definition TitleSerializer_create (validated_data : TitlePut.t)
    : M (nat * Title.t) :=
  match TitlePut.genre validated_data, TitlePut.category validated_data with
  | None, None =>
      let t := Title.mk (TitlePut.name validated_data)
                 (TitlePut.year validated_data)
                 (TitlePut.description validated_data) None in
      s ← get_store;
      let pk := next_id (titles s) in
      modify (with_titles (<[pk := t]> (titles s)));;
      mret (pk, t)
  | _, _ => raise AssertionError
  end.

(** [ModelSerializer.update]: the same assertion, then the validated
    attributes are set and the row saved. *)
Definition TitleSerializer_update (instance : nat * Title.t)
    (validated_data : TitlePutPatch.t) : M Title.t :=
  match TitlePutPatch.genre validated_data,
        TitlePutPatch.category validated_data with
  | None, None =>
      let t := Title.mk
        (default (Title.name instance.2) (TitlePutPatch.name validated_data))
        (default (Title.year instance.2) (TitlePutPatch.year validated_data))
        (default (Title.description instance.2)
           (TitlePutPatch.description validated_data))
        (Title.category instance.2) in
      s ← get_store;
      modify (with_titles (<[instance.1 := t]> (titles s)));;
      mret t
  | _, _ => raise AssertionError
  end.

(** *** TitlePostSerializer *)

Definition TitlePostSerializer_to_internal_value (s : Store) (data : Body)
    : Result TitleData.t :=
  let name := required_field (data !! "name") Title_name_field in
  let year := required_field (data !! "year") Title_year_field in
  let description :=
    required_field (data !! "description") Title_description_field in
  let genre :=
    required_field (data !! "genre")
      (ManyRelatedField_run_validation (genres s)) in
  let category :=
    required_field (data !! "category")
      (SlugRelatedField_run_validation (categories s)) in
  match name, year, description, genre, category with
  | Ok n, Ok y, Ok d, Ok g, Ok c => Ok (TitleData.mk n y d g c)
  | _, _, _, _, _ =>
      Raise (ValidationError
        (field_errors "name" name ++ field_errors "year" year
         ++ field_errors "description" description
         ++ field_errors "genre" genre
         ++ field_errors "category" category)%list)
  end.

(** The same fields on a partial update: none is required. *)
Definition TitlePostSerializer_to_internal_value_partial (s : Store)
    (data : Body) : Result TitlePatch.t :=
  let name := optional_field (data !! "name") Title_name_field in
  let year := optional_field (data !! "year") Title_year_field in
  let description :=
    optional_field (data !! "description") Title_description_field in
  let genre :=
    optional_field (data !! "genre")
      (ManyRelatedField_run_validation (genres s)) in
  let category :=
    optional_field (data !! "category")
      (SlugRelatedField_run_validation (categories s)) in
  match name, year, description, genre, category with
  | Ok n, Ok y, Ok d, Ok g, Ok c => Ok (TitlePatch.mk n y d g c)
  | _, _, _, _, _ =>
      Raise (ValidationError
        (field_errors "name" name ++ field_errors "year" year
         ++ field_errors "description" description
         ++ field_errors "genre" genre
         ++ field_errors "category" category)%list)
  end.

(** [GenreTitle.objects.create(genre=..., title=...)] *)
Definition GenreTitle_objects_create (genre : string) (title : nat)
    : M unit :=
  s ← get_store;
  modify (with_genre_titles
            (<[next_id (genre_titles s) := GenreTitle.mk genre title]>
               (genre_titles s))).

Fixpoint for_each {A} (l : list A) (f : A → M unit) : M unit :=
  match l with
  | [] => mret ()
  | a :: l' => f a;; for_each l' f
  end.

Definition TitlePostSerializer_create (validated_data : TitleData.t)
    : M (nat * Title.t) :=
  let genres_ := TitleData.genre validated_data in
  s ← get_store;
  let pk := next_id (titles s) in
  let title := Title.mk (TitleData.name validated_data)
                 (TitleData.year validated_data)
                 (TitleData.description validated_data)
                 (Some (TitleData.category validated_data)) in
  modify (with_titles (<[pk := title]> (titles s)));;
  for_each genres_ (λ genre,
    s' ← get_store;
    _ ← lift (get_object_or_404 (genres s') genre);
    GenreTitle_objects_create genre pk);;
  mret (pk, title).

(** [title.genre.set(genres)]: the join rows of the genres that are no
    longer wanted go, and each wanted genre that has no join row gets
    one. *)
Definition Title_genre_set (pk : nat) (wanted : list string) : M unit :=
  s ← get_store;
  modify (with_genre_titles
            (filter (λ kv, GenreTitle.title kv.2 ≠ pk
                           ∨ GenreTitle.genre kv.2 ∈ wanted)
               (genre_titles s)));;
  for_each wanted (λ genre,
    s' ← get_store;
    if bool_decide (genre ∈ Title_genre_all s' pk) then mret ()
    else GenreTitle_objects_create genre pk).

(** [ModelSerializer.update] on a partial update: the validated
    attributes are set and saved, then the genres are set. *)
Definition TitlePostSerializer_update (instance : nat * Title.t)
    (validated_data : TitlePatch.t) : M Title.t :=
  let t := Title.mk
    (default (Title.name instance.2) (TitlePatch.name validated_data))
    (default (Title.year instance.2) (TitlePatch.year validated_data))
    (default (Title.description instance.2)
       (TitlePatch.description validated_data))
    (from_option Some (Title.category instance.2)
       (TitlePatch.category validated_data)) in
  s ← get_store;
  modify (with_titles (<[instance.1 := t]> (titles s)));;
  from_option (Title_genre_set instance.1) (mret ())
    (TitlePatch.genre validated_data);;
  mret t.

Definition TitleData_as_patch (d : TitleData.t) : TitlePatch.t :=
  TitlePatch.mk (Some (TitleData.name d)) (Some (TitleData.year d))
    (Some (TitleData.description d)) (Some (TitleData.genre d))
    (Some (TitleData.category d)).

Definition TitlePostSerializer_data (s : Store) (pk : nat) (t : Title.t)
    (rating : option (option Q)) : JSON :=
  JObj [("id", JInt (Z.of_nat pk));
        ("name", JStr (Title.name t));
        ("year", JInt (Title.year t));
        ("description", JStr (Title.description t));
        ("genre", JList (JStr <$> Title_genre_all s pk));
        ("category", from_option JStr JNull (Title.category t))].

(** The two serializers of a title as the view uses them: validation of
    a full and of a partial body, [create], [update] and the
    representation of an instance. *)
Record TitleModelSerializer := {
  Full : Type;
  Partial : Type;
  to_internal_value : Store → Body → Result Full;
  to_internal_value_partial : Store → Body → Result Partial;
  as_partial : Full → Partial;
  create : Full → M (nat * Title.t);
  update : nat * Title.t → Partial → M Title.t;
  to_representation : Store → nat → Title.t → option (option Q) → JSON
}.

Definition TitleSerializer_impl : TitleModelSerializer := {|
  to_internal_value := TitleSerializer_to_internal_value;
  to_internal_value_partial := TitleSerializer_to_internal_value_partial;
  as_partial := TitlePut_as_patch;
  create := TitleSerializer_create;
  update := TitleSerializer_update;
  to_representation := TitleSerializer_data
|}.

Definition TitlePostSerializer_impl : TitleModelSerializer := {|
  to_internal_value := TitlePostSerializer_to_internal_value;
  to_internal_value_partial := TitlePostSerializer_to_internal_value_partial;
  as_partial := TitleData_as_patch;
  create := TitlePostSerializer_create;
  update := TitlePostSerializer_update;
  to_representation := TitlePostSerializer_data
|}.

(** *** ReviewSerializer *)

Definition ReviewSerializer_to_internal_value (data : Body)
    : Result (string * Z) :=
  let text := required_field (data !! "text") (JSON_CharField None) in
  let score :=
    required_field (data !! "score")
      (ChoiceField_to_internal_value SCORE_CHOICES) in
  match text, score with
  | Ok t, Ok sc => Ok (t, sc)
  | _, _ => Raise (ValidationError
              (field_errors "text" text ++ field_errors "score" score)%list)
  end.

Definition ReviewSerializer_to_internal_value_partial (data : Body)
    : Result (option string * option Z) :=
  let text := optional_field (data !! "text") (JSON_CharField None) in
  let score :=
    optional_field (data !! "score")
      (ChoiceField_to_internal_value SCORE_CHOICES) in
  match text, score with
  | Ok t, Ok sc => Ok (t, sc)
  | _, _ => Raise (ValidationError
              (field_errors "text" text ++ field_errors "score" score)%list)
  end.

(** [validate]: [title] is the [title_id] of the path, [author] the
    caller. *)
Definition ReviewSerializer_validate {A} (method : Method) (title : nat)
    (author : nat) (data : A) : M A :=
  match method with
  | PATCH => mret data
  | _ =>
      s ← get_store;
      match objects_filter
        (λ _ r, bool_decide (Review.author r = author)
                && bool_decide (Review.title r = title)) (reviews s) with
      | [] => mret data
      | _ => raise (ValidationError
               [("non_field_errors", "Возможен один отзыв!")])
      end
  end.

(** [Review.objects.create]: the table holds [unique_review], the
    constraint on the pair of title and author. *)
Definition Review_objects_create (r : Review.t) : M (nat * Review.t) :=
  s ← get_store;
  match objects_filter
    (λ _ r', bool_decide (Review.title r' = Review.title r)
             && bool_decide (Review.author r' = Review.author r))
    (reviews s) with
  | [] =>
      let pk := next_id (reviews s) in
      modify (with_reviews (<[pk := r]> (reviews s)));;
      mret (pk, r)
  | _ => raise IntegrityError
  end.

(** [ModelSerializer.update] of a review: text and score, when given. *)
Definition ReviewSerializer_update (instance : nat * Review.t)
    (validated_data : option string * option Z) : M Review.t :=
  let r := Review.mk (Review.title instance.2)
             (default (Review.text instance.2) validated_data.1)
             (Review.author instance.2)
             (default (Review.score instance.2) validated_data.2)
             (Review.pub_date instance.2) in
  s ← get_store;
  modify (with_reviews (<[instance.1 := r]> (reviews s)));;
  mret r.

Definition author_username (s : Store) (author : nat) : string :=
  from_option User.username "" (users s !! author).

Definition ReviewSerializer_data (s : Store) (pk : nat) (r : Review.t)
    : JSON :=
  JObj [("id", JInt (Z.of_nat pk));
        ("title", JInt (Z.of_nat (Review.title r)));
        ("text", JStr (Review.text r));
        ("author", JStr (author_username s (Review.author r)));
        ("score", JInt (Review.score r));
        ("pub_date", JInt (Z.of_nat (Review.pub_date r)))].

(** *** CommentSerializer *)

Definition CommentSerializer_to_internal_value (data : Body)
    : Result string :=
  match required_field (data !! "text") (JSON_CharField None) with
  | Ok t => Ok t
  | r => Raise (ValidationError (field_errors "text" r))
  end.

Definition CommentSerializer_to_internal_value_partial (data : Body)
    : Result (option string) :=
  match optional_field (data !! "text") (JSON_CharField None) with
  | Ok t => Ok t
  | r => Raise (ValidationError (field_errors "text" r))
  end.

Definition Comments_objects_create (c : Comments.t) : M (nat * Comments.t) :=
  s ← get_store;
  let pk := next_id (comments s) in
  modify (with_comments (<[pk := c]> (comments s)));;
  mret (pk, c).

Definition CommentSerializer_update (instance : nat * Comments.t)
    (validated_data : option string) : M Comments.t :=
  let c := Comments.mk (Comments.review instance.2)
             (default (Comments.text instance.2) validated_data)
             (Comments.author instance.2)
             (Comments.pub_date instance.2) in
  s ← get_store;
  modify (with_comments (<[instance.1 := c]> (comments s)));;
  mret c.

Definition CommentSerializer_data (s : Store) (pk : nat) (c : Comments.t)
    : JSON :=
  JObj [("id", JInt (Z.of_nat pk));
        ("text", JStr (Comments.text c));
        ("author", JStr (author_username s (Comments.author c)));
        ("pub_date", JInt (Z.of_nat (Comments.pub_date c)))].

End serializers.

(** ** api/views.py *)

(** [get_object_or_404] on a filtered queryset. *)
Definition get_or_404 {R} (qs : list R) : Result R :=
  found ← queryset_get qs;
  match found with
  | Some r => Ok r
  | None => Raise Http404
  end.

Definition error_body (field message : string) : JSON :=
  JObj [(field, JList [JStr message])].

(** The serializer classes [TitleViewSet] chooses between. *)
Inductive TitleSerializerClass := TitleSerializer | TitlePostSerializer.

#[global] Instance TitleSerializerClass_eq_dec : EqDecision TitleSerializerClass.
Proof. solve_decision. Defined.

(** The scores of a title's reviews: [reviews__score] on the join. *)
Definition Title_scores (s : Store) (pk : nat) : list Z :=
  (λ kv, Review.score kv.2)
    <$> objects_filter (λ _ r, bool_decide (Review.title r = pk)) (reviews s).

Section views.
Context `{Collaborators}.

(** *** SignUpViewSet *)

(** [create]. The permission is [AllowAny], here and in [TokenObtainView]:
    the caller is not looked at, and the handler is the method's body. *)
Definition SignUpViewSet_create (request : Request.t Form) : M Response.t :=
  validated_data ← UserSignUpSerializer_run_validation (Request.data request);
  user ← UserSignUpSerializer_create validated_data;
  mret (Response.mk HTTP_200_OK (UserSignUpSerializer_data user.2)).

(** *** TokenObtainView *)

Definition TokenObtainView_post (request : Request.t Form) : M Response.t :=
  let username := Request.data request !! "username" in
  let confirmation_code := Request.data request !! "confirmation_code" in
  if negb (truthy confirmation_code) then
    mret (Response.mk HTTP_400_BAD_REQUEST
            (error_body "confirmation_code" "Обязательное поле."))
  else if negb (truthy username) then
    mret (Response.mk HTTP_400_BAD_REQUEST
            (error_body "username" "Обязательное поле."))
  else
    s ← get_store;
    user ← lift (get_or_404 (objects_filter
      (λ _ u, String.eqb (User.username u) (default "" username))
      (users s)));
    if negb (check_confirmation_code user.1 user.2
               (default "" confirmation_code)) then
      mret (Response.mk HTTP_400_BAD_REQUEST
              (error_body "confirmation_code" "Неверный код подтверждения."))
    else
      mret (Response.mk HTTP_200_OK
              (JObj [("token", JStr (access_token user.1 user.2))])).

(** *** Authentication and permissions *)

(** The caller of a request: nobody, or a row of the users table; a
    credential for a user that is gone is refused. *)
Definition authenticate (s : Store) {D} (request : Request.t D)
    : Result (option (nat * User.t)) :=
  match Request.user request with
  | None => Ok None
  | Some pk =>
      match users s !! pk with
      | Some u => Ok (Some (pk, u))
      | None => Raise NotAuthenticated
      end
  end.

(** [permission_denied]: 401 for an anonymous caller, 403 otherwise. *)
Definition permission_denied {A} (user : option (nat * User.t)) : M A :=
  match user with
  | None => raise NotAuthenticated
  | Some _ => raise PermissionDenied
  end.

(** [initial]: authentication, then [check_permissions]. *)
Definition initial {D} (has_permission : Method → option (nat * User.t) → bool)
    (method : Method) (request : Request.t D)
    : M (option (nat * User.t)) :=
  s ← get_store;
  user ← lift (authenticate s request);
  if has_permission method user then mret user else permission_denied user.

Definition IsAuthenticated (_ : Method) (user : option (nat * User.t))
    : bool :=
  bool_decide (is_Some user).

(** Modelled from the spec: [permissions.IsAdminOrReadOnly], which is not
    among the sources (categories, genres and titles: anyone reads, only
    an admin creates, updates or deletes). *)
Definition IsAdminOrReadOnly (method : Method)
    (user : option (nat * User.t)) : bool :=
  is_safe method || from_option (λ u, is_admin u.2) false user.

(** Modelled from the spec:
    [permissions.IsAuthorOrStaffOrAuthenticatedCreateOrReadOnly], which is
    not among the sources (reviews and comments: anyone reads, an
    authenticated user creates, the author, a moderator or an admin
    updates or deletes). *)
Definition IsAuthorOrStaffOrAuthenticatedCreateOrReadOnly (method : Method)
    (user : option (nat * User.t)) : bool :=
  is_safe method || bool_decide (is_Some user).

(** Modelled from the spec: the object level check of the same class. *)
Definition IsAuthorOrStaffOrAuthenticatedCreateOrReadOnly_object
    (method : Method) (user : option (nat * User.t)) (author : nat) : bool :=
  is_safe method
  || from_option (λ u, bool_decide (u.1 = author)
                       || is_moderator u.2 || is_admin u.2) false user.

(** *** UserViewSet *)

(** [me]: the route takes [GET], [PATCH] and [PUT]. [is_valid()] is
    called without [raise_exception], so a body that fails validation
    reaches [save()], which asserts that there are no errors. *)
Definition UserViewSet_me (method : Method) (request : Request.t Form)
    : M Response.t :=
  user ← initial IsAuthenticated method request;
  match user with
  | None => raise NotAuthenticated
  | Some instance =>
      match method with
      | GET => mret (Response.mk HTTP_200_OK (UserSerializer_data instance.2))
      | PATCH | PUT =>
          s ← get_store;
          match UserSerializer_run_validation (users s) instance.2 instance
                  (Request.data request) with
          | Ok validated_data =>
              UserSerializer_update instance validated_data;;
              mret (Response.mk HTTP_200_OK
                      (JObj ((λ kv, (kv.1, JStr kv.2)) <$> validated_data)))
          | Raise (ValidationError _) => raise AssertionError
          | Raise e => raise e
          end
      | _ => raise MethodNotAllowed
      end
  end.

(** *** TitleViewSet *)

(** [queryset]: every title with its [rating] annotation. *)
Definition TitleViewSet_queryset (s : Store)
    : gmap nat (Title.t * option Q) :=
  map_imap (λ pk t, Some (t, Avg (Title_scores s pk))) (titles s).

(** [TitleFilter] on a row of the queryset: the given parameters must all
    hold. *)
Definition TitleFilter_matches (s : Store) (f : TitleFilter.t) (pk : nat)
    (t : Title.t) : bool :=
  from_option (λ c, bool_decide (Title.category t = Some c)) true
    (TitleFilter.category f)
  && from_option (λ y, bool_decide (Title.year t = y)) true
       (TitleFilter.year f)
  && from_option (λ n, icontains (Title.name t) n) true (TitleFilter.name f)
  && from_option (λ g, bool_decide (g ∈ Title_genre_all s pk)) true
       (TitleFilter.genre f).

Definition TitleViewSet_get_serializer_class (action : Action.t)
    : TitleSerializerClass :=
  if bool_decide (action ∈ [Action.create; Action.partial_update])
  then TitlePostSerializer
  else TitleSerializer.

Definition TitleViewSet_get_serializer (action : Action.t)
    : TitleModelSerializer :=
  match TitleViewSet_get_serializer_class action with
  | TitleSerializer => TitleSerializer_impl
  | TitlePostSerializer => TitlePostSerializer_impl
  end.

(** [get_object]: the row of the queryset with the given key (a detail
    route is taken to come without query parameters). *)
Definition TitleViewSet_get_object (pk : nat)
    : M (nat * (Title.t * option Q)) :=
  s ← get_store;
  obj ← lift (get_object_or_404 (TitleViewSet_queryset s) pk);
  mret (pk, obj).

(** [list]: the filtered rows, before ordering and pagination. *)
Definition TitleViewSet_list (f : TitleFilter.t) (request : Request.t Body)
    : M Response.t :=
  _ ← initial IsAdminOrReadOnly GET request;
  s ← get_store;
  let serializer := TitleViewSet_get_serializer Action.list in
  mret (Response.mk HTTP_200_OK
    (JList ((λ kv, to_representation serializer s kv.1 kv.2.1 (Some kv.2.2))
              <$> objects_filter (λ pk t, TitleFilter_matches s f pk t.1)
                    (TitleViewSet_queryset s)))).

Definition TitleViewSet_retrieve (pk : nat) (request : Request.t Body)
    : M Response.t :=
  _ ← initial IsAdminOrReadOnly GET request;
  instance ← TitleViewSet_get_object pk;
  s ← get_store;
  let serializer := TitleViewSet_get_serializer Action.retrieve in
  mret (Response.mk HTTP_200_OK
    (to_representation serializer s pk instance.2.1 (Some instance.2.2))).

Definition TitleViewSet_create (request : Request.t Body) : M Response.t :=
  _ ← initial IsAdminOrReadOnly POST request;
  let serializer := TitleViewSet_get_serializer Action.create in
  s ← get_store;
  validated_data ← lift (to_internal_value serializer s (Request.data request));
  instance ← create serializer validated_data;
  s' ← get_store;
  mret (Response.mk HTTP_201_CREATED
    (to_representation serializer s' instance.1 instance.2 None)).

(** [update] and, with [partial], [partial_update]. *)
Definition TitleViewSet_update (partial : bool) (pk : nat)
    (request : Request.t Body) : M Response.t :=
  let action := if partial then Action.partial_update else Action.update in
  _ ← initial IsAdminOrReadOnly (Action_method action) request;
  instance ← TitleViewSet_get_object pk;
  let serializer := TitleViewSet_get_serializer action in
  s ← get_store;
  validated_data ←
    lift (if partial
          then to_internal_value_partial serializer s (Request.data request)
          else as_partial serializer
                 <$> to_internal_value serializer s (Request.data request));
  t ← update serializer (pk, instance.2.1) validated_data;
  s' ← get_store;
  mret (Response.mk HTTP_200_OK
    (to_representation serializer s' pk t (Some instance.2.2))).

Definition TitleViewSet_destroy (pk : nat) (request : Request.t Body)
    : M Response.t :=
  _ ← initial IsAdminOrReadOnly DELETE request;
  _ ← TitleViewSet_get_object pk;
  modify (Title_delete pk);;
  mret (Response.mk HTTP_204_NO_CONTENT JNull).

(** *** ReviewViewSet *)

Definition ReviewViewSet_get_queryset (title_id : nat)
    : M (gmap nat Review.t) :=
  s ← get_store;
  _ ← lift (get_object_or_404 (titles s) title_id);
  mret (filter (λ kv, Review.title kv.2 = title_id) (reviews s)).

Definition ReviewViewSet_perform_create (title_id : nat) (author : nat)
    (validated_data : string * Z) : M (nat * Review.t) :=
  s ← get_store;
  _ ← lift (get_object_or_404 (titles s) title_id);
  Review_objects_create
    (Review.mk title_id validated_data.1 author validated_data.2 now).

(** [get_object]: the row of [get_queryset()] with the given key, then
    the object level permission. *)
Definition ReviewViewSet_get_object (method : Method)
    (user : option (nat * User.t)) (title_id pk : nat)
    : M (nat * Review.t) :=
  queryset ← ReviewViewSet_get_queryset title_id;
  obj ← lift (get_object_or_404 queryset pk);
  if IsAuthorOrStaffOrAuthenticatedCreateOrReadOnly_object method user
       (Review.author obj)
  then mret (pk, obj)
  else permission_denied user.

(** [validate] reads the caller as the author; for an anonymous caller
    the lookup by author is ill-typed. *)
Definition ReviewSerializer_run_validate {A} (method : Method)
    (title_id : nat) (user : option (nat * User.t)) (data : A) : M A :=
  match method, user with
  | PATCH, _ => mret data
  | _, Some u => ReviewSerializer_validate method title_id u.1 data
  | _, None => raise TypeError
  end.

Definition ReviewViewSet_list (title_id : nat) (request : Request.t Body)
    : M Response.t :=
  _ ← initial IsAuthorOrStaffOrAuthenticatedCreateOrReadOnly GET request;
  queryset ← ReviewViewSet_get_queryset title_id;
  s ← get_store;
  mret (Response.mk HTTP_200_OK
    (JList ((λ kv, ReviewSerializer_data s kv.1 kv.2)
              <$> map_to_list queryset))).

Definition ReviewViewSet_create (title_id : nat) (request : Request.t Body)
    : M Response.t :=
  user ← initial IsAuthorOrStaffOrAuthenticatedCreateOrReadOnly POST request;
  data ← lift (ReviewSerializer_to_internal_value (Request.data request));
  data ← ReviewSerializer_run_validate POST title_id user data;
  match user with
  | None => raise TypeError
  | Some u =>
      review ← ReviewViewSet_perform_create title_id u.1 data;
      s ← get_store;
      mret (Response.mk HTTP_201_CREATED
              (ReviewSerializer_data s review.1 review.2))
  end.

Definition ReviewViewSet_retrieve (title_id pk : nat)
    (request : Request.t Body) : M Response.t :=
  user ← initial IsAuthorOrStaffOrAuthenticatedCreateOrReadOnly GET request;
  instance ← ReviewViewSet_get_object GET user title_id pk;
  s ← get_store;
  mret (Response.mk HTTP_200_OK (ReviewSerializer_data s pk instance.2)).

Definition ReviewViewSet_update (partial : bool) (title_id pk : nat)
    (request : Request.t Body) : M Response.t :=
  let method := if partial then PATCH else PUT in
  user ← initial IsAuthorOrStaffOrAuthenticatedCreateOrReadOnly method request;
  instance ← ReviewViewSet_get_object method user title_id pk;
  data ←
    lift (if partial
          then ReviewSerializer_to_internal_value_partial (Request.data request)
          else (λ d, (Some d.1, Some d.2))
                 <$> ReviewSerializer_to_internal_value (Request.data request));
  data ← ReviewSerializer_run_validate method title_id user data;
  r ← ReviewSerializer_update instance data;
  s ← get_store;
  mret (Response.mk HTTP_200_OK (ReviewSerializer_data s pk r)).

Definition ReviewViewSet_destroy (title_id pk : nat)
    (request : Request.t Body) : M Response.t :=
  user ← initial IsAuthorOrStaffOrAuthenticatedCreateOrReadOnly DELETE request;
  _ ← ReviewViewSet_get_object DELETE user title_id pk;
  modify (Review_delete pk);;
  mret (Response.mk HTTP_204_NO_CONTENT JNull).

(** *** CommentViewSet *)

Definition CommentViewSet_get_review (title_id review_id : nat)
    : M (nat * Review.t) :=
  s ← get_store;
  _ ← lift (get_object_or_404 (titles s) title_id);
  review ← lift (get_object_or_404
    (filter (λ kv, Review.title kv.2 = title_id) (reviews s)) review_id);
  mret (review_id, review).

Definition CommentViewSet_get_queryset (title_id review_id : nat)
    : M (gmap nat Comments.t) :=
  review ← CommentViewSet_get_review title_id review_id;
  s ← get_store;
  mret (filter (λ kv, Comments.review kv.2 = review.1) (comments s)).

Definition CommentViewSet_perform_create (title_id review_id : nat)
    (author : nat) (validated_data : string) : M (nat * Comments.t) :=
  review ← CommentViewSet_get_review title_id review_id;
  Comments_objects_create (Comments.mk review.1 validated_data author now).

Definition CommentViewSet_get_object (method : Method)
    (user : option (nat * User.t)) (title_id review_id pk : nat)
    : M (nat * Comments.t) :=
  queryset ← CommentViewSet_get_queryset title_id review_id;
  obj ← lift (get_object_or_404 queryset pk);
  if IsAuthorOrStaffOrAuthenticatedCreateOrReadOnly_object method user
       (Comments.author obj)
  then mret (pk, obj)
  else permission_denied user.

Definition CommentViewSet_list (title_id review_id : nat)
    (request : Request.t Body) : M Response.t :=
  _ ← initial IsAuthorOrStaffOrAuthenticatedCreateOrReadOnly GET request;
  queryset ← CommentViewSet_get_queryset title_id review_id;
  s ← get_store;
  mret (Response.mk HTTP_200_OK
    (JList ((λ kv, CommentSerializer_data s kv.1 kv.2)
              <$> map_to_list queryset))).

Definition CommentViewSet_create (title_id review_id : nat)
    (request : Request.t Body) : M Response.t :=
  user ← initial IsAuthorOrStaffOrAuthenticatedCreateOrReadOnly POST request;
  data ← lift (CommentSerializer_to_internal_value (Request.data request));
  match user with
  | None => raise TypeError
  | Some u =>
      comment ← CommentViewSet_perform_create title_id review_id u.1 data;
      s ← get_store;
      mret (Response.mk HTTP_201_CREATED
              (CommentSerializer_data s comment.1 comment.2))
  end.

Definition CommentViewSet_retrieve (title_id review_id pk : nat)
    (request : Request.t Body) : M Response.t :=
  user ← initial IsAuthorOrStaffOrAuthenticatedCreateOrReadOnly GET request;
  instance ← CommentViewSet_get_object GET user title_id review_id pk;
  s ← get_store;
  mret (Response.mk HTTP_200_OK (CommentSerializer_data s pk instance.2)).

Definition CommentViewSet_update (partial : bool)
    (title_id review_id pk : nat) (request : Request.t Body)
    : M Response.t :=
  let method := if partial then PATCH else PUT in
  user ← initial IsAuthorOrStaffOrAuthenticatedCreateOrReadOnly method request;
  instance ← CommentViewSet_get_object method user title_id review_id pk;
  data ←
    lift (if partial
          then CommentSerializer_to_internal_value_partial
                 (Request.data request)
          else Some <$> CommentSerializer_to_internal_value
                          (Request.data request));
  c ← CommentSerializer_update instance data;
  s ← get_store;
  mret (Response.mk HTTP_200_OK (CommentSerializer_data s pk c)).

Definition CommentViewSet_destroy (title_id review_id pk : nat)
    (request : Request.t Body) : M Response.t :=
  user ← initial IsAuthorOrStaffOrAuthenticatedCreateOrReadOnly DELETE request;
  _ ← CommentViewSet_get_object DELETE user title_id review_id pk;
  modify (Comments_delete pk);;
  mret (Response.mk HTTP_204_NO_CONTENT JNull).

(** The two viewsets by action; [pk] is read by the detail actions
    only. *)
Definition ReviewViewSet (action : Action.t) (title_id pk : nat)
    (request : Request.t Body) : M Response.t :=
  match action with
  | Action.list => ReviewViewSet_list title_id request
  | Action.create => ReviewViewSet_create title_id request
  | Action.retrieve => ReviewViewSet_retrieve title_id pk request
  | Action.update => ReviewViewSet_update false title_id pk request
  | Action.partial_update => ReviewViewSet_update true title_id pk request
  | Action.destroy => ReviewViewSet_destroy title_id pk request
  end.

Definition CommentViewSet (action : Action.t) (title_id review_id pk : nat)
    (request : Request.t Body) : M Response.t :=
  match action with
  | Action.list => CommentViewSet_list title_id review_id request
  | Action.create => CommentViewSet_create title_id review_id request
  | Action.retrieve => CommentViewSet_retrieve title_id review_id pk request
  | Action.update => CommentViewSet_update false title_id review_id pk request
  | Action.partial_update =>
      CommentViewSet_update true title_id review_id pk request
  | Action.destroy => CommentViewSet_destroy title_id review_id pk request
  end.

End views.

(** The response a client sees: the handler's own, or the one the exception
    handler builds. *)
Definition status_of (r : Result Response.t) : nat :=
  match r with
  | Ok resp => Response.status resp
  | Raise e => status_of_exception e
  end.

(** ** Predicates on the store *)

(** The usernames of the users table are pairwise distinct, as the model
    declares them. *)
Definition unique_usernames (s : Store) : Prop :=
  ∀ k1 k2 u1 u2, users s !! k1 = Some u1 → users s !! k2 = Some u2 →
    User.username u1 = User.username u2 → k1 = k2.

(** [unique_review], the constraint of the reviews table: no two rows with
    the same title and the same author. *)
Definition unique_review (s : Store) : Prop :=
  ∀ k1 k2 r1 r2, reviews s !! k1 = Some r1 → reviews s !! k2 = Some r2 →
    Review.title r1 = Review.title r2 → Review.author r1 = Review.author r2 →
    k1 = k2.

(** The foreign key of a review to its title holds. *)
Definition reviews_have_titles (s : Store) : Prop :=
  ∀ k r, reviews s !! k = Some r → is_Some (titles s !! Review.title r).

(** The parents of a comment route resolve: the title exists, and the
    review exists and is a review of that title. *)
Definition comment_parents (s : Store) (title_id review_id : nat) : Prop :=
  is_Some (titles s !! title_id)
  ∧ ∃ r, reviews s !! review_id = Some r ∧ Review.title r = title_id.

(** The users table takes the row [u] for the key [pk]: no other row has
    its username or its e-mail. *)
Definition User_save_accepts (s : Store) (pk : nat) (u : User.t) : Prop :=
  ∀ k u0, users s !! k = Some u0 → k ≠ pk →
    User.username u0 ≠ User.username u ∧ User.email u0 ≠ User.email u.

(** The credential of the request, if it has one, is that of a user of the
    store. *)
Definition authenticates {D} (s : Store) (request : Request.t D) : Prop :=
  ∀ pk, Request.user request = Some pk → is_Some (users s !! pk).

(** The rows [UserSignUpSerializer.validate] looks at. *)
Definition signup_matches (username email : string) (k : nat) (u : User.t)
    : bool :=
  String.eqb (User.username u) username || String.eqb (User.email u) email.

(** The e-mail addresses of the users table are pairwise distinct, as the
    model declares them. *)
Definition unique_emails (s : Store) : Prop :=
  ∀ k1 k2 u1 u2, users s !! k1 = Some u1 → users s !! k2 = Some u2 →
    User.email u1 = User.email u2 → k1 = k2.

(** Every foreign key of the schema refers to a row of its table. *)
Definition foreign_keys_hold (s : Store) : Prop :=
  (∀ k t c, titles s !! k = Some t → Title.category t = Some c →
     is_Some (categories s !! c))
  ∧ (∀ k g, genre_titles s !! k = Some g →
       is_Some (genres s !! GenreTitle.genre g)
       ∧ is_Some (titles s !! GenreTitle.title g))
  ∧ (∀ k r, reviews s !! k = Some r →
       is_Some (titles s !! Review.title r)
       ∧ is_Some (users s !! Review.author r))
  ∧ (∀ k c, comments s !! k = Some c →
       is_Some (reviews s !! Comments.review c)
       ∧ is_Some (users s !! Comments.author c)).

(** Every stored score is one of [SCORE_CHOICES]. *)
Definition scores_in_range (s : Store) : Prop :=
  ∀ k r, reviews s !! k = Some r → Review.score r ∈ SCORE_CHOICES.

Ltac unfold_monad :=
  unfold mbind, mret, fmap, M_bind, M_ret, Result_bind, Result_ret,
    Result_fmap, raise, lift, get_store, modify in *.

(** ** A concrete setting *)

(** Modelled from the spec: the field validation [UserSerializer] derives
    from the [User] model of [users/models.py], which is not among the
    sources: a username and an e-mail are not blank and are not those of
    another user, a username has at most 150 characters, and the role is one
    of user, moderator and admin; the optional fields take any text. *)
Definition User_field_validation_spec (table : gmap nat User.t)
    (instance : option nat) (name value : string) : option string :=
  let other k := negb (bool_decide (instance = Some k)) in
  if String.eqb name "username" then
    if negb (String.eqb value "") && (String.length value <=? 150)%nat
       && bool_decide (objects_filter
            (λ k u, other k && String.eqb (User.username u) value) table = [])
    then Some value else None
  else if String.eqb name "email" then
    if negb (String.eqb value "")
       && bool_decide (objects_filter
            (λ k u, other k && String.eqb (User.email u) value) table = [])
    then Some value else None
  else if String.eqb name "role" then
    if bool_decide (value ∈ ["user"; "moderator"; "admin"])
    then Some value else None
  else Some value.

(** Collaborators to run the handlers with: an admin and a moderator are
    told by their role, as the spec has it; the confirmation code, the
    token, the e-mail test and the number parser are stand-ins. *)
Definition example_collaborators : Collaborators := {|
  get_confirmation_code := λ pk u, "code-" +:+ User.username u;
  check_confirmation_code := λ pk u c,
    String.eqb c ("code-" +:+ User.username u);
  access_token := λ pk u, "token-" +:+ User.username u;
  is_admin := λ u, String.eqb (User.role u) "admin";
  is_moderator := λ u, String.eqb (User.role u) "moderator";
  EmailValidator := λ e, bool_decide (is_Some (String.index 0 "@" e));
  User_field_validation := User_field_validation_spec;
  python_int := λ _, None;
  db_integer_range := λ z, bool_decide (-2147483648 ≤ z ≤ 2147483647);
  icontains := λ text part, bool_decide (is_Some (String.index 0 part text));
  current_year := 2026;
  now := 0
|}.

(** A small store: two users and an admin, one category, one genre, one
    title with two reviews, one comment. *)
Definition example_store : Store := {|
  users := {[ 1%nat := User.mk "alice" "alice@example.org" "" "" "" "user";
              2%nat := User.mk "bob" "bob@example.org" "" "" "" "user";
              3%nat := User.mk "root" "root@example.org" "" "" "" "admin" ]};
  categories := {[ "film" := Category.mk "Film" ]};
  genres := {[ "drama" := Genre.mk "Drama" ]};
  titles := {[ 1%nat := Title.mk "Solaris" 1972 "" (Some "film") ]};
  genre_titles := {[ 1%nat := GenreTitle.mk "drama" 1 ]};
  reviews := {[ 1%nat := Review.mk 1 "fine" 1 7 0;
                2%nat := Review.mk 1 "great" 2 8 0 ]};
  comments := {[ 1%nat := Comments.mk 1 "agreed" 2 0 ]};
  outbox := []
|}.

(** The body of a title as a client sends it on create. *)
Definition example_title_body : Body :=
  {[ "name" := JStr "Stalker"; "year" := JInt 1979;
     "description" := JStr "The Zone"; "genre" := JList [JStr "drama"];
     "category" := JStr "film" ]}.

(** * Properties *)

(** ** Querysets and keys *)

Lemma next_id_fresh {A} (m : gmap nat A) : m !! next_id m = None.
Proof.
  apply not_elem_of_dom. intros Hin.
  apply elem_of_elements, max_list_elem_of_le in Hin.
  unfold next_id in Hin. lia.
Qed.

Lemma elem_of_objects_filter `{Countable K} {A} (P : K → A → bool)
    (m : gmap K A) k a :
  (k, a) ∈ objects_filter P m ↔ m !! k = Some a ∧ P k a = true.
Proof.
  unfold objects_filter. rewrite list_elem_of_In, filter_In.
  rewrite <- list_elem_of_In, elem_of_map_to_list. done.
Qed.

Lemma objects_filter_NoDup `{Countable K} {A} (P : K → A → bool)
    (m : gmap K A) :
  NoDup (objects_filter P m).
Proof.
  unfold objects_filter. apply NoDup_ListNoDup, List.NoDup_filter.
  apply NoDup_ListNoDup, NoDup_map_to_list.
Qed.

Lemma objects_filter_nil `{Countable K} {A} (P : K → A → bool)
    (m : gmap K A) :
  objects_filter P m = [] ↔ ∀ k a, m !! k = Some a → P k a = false.
Proof.
  split.
  - intros Hnil k a Hk. destruct (P k a) eqn:HP; [|done].
    assert ((k, a) ∈ objects_filter P m) as Hin
      by (apply elem_of_objects_filter; done).
    rewrite Hnil in Hin. by apply elem_of_nil in Hin.
  - intros Hall. destruct (objects_filter P m) as [|[k a] l] eqn:Hf; [done|].
    assert ((k, a) ∈ objects_filter P m) as Hin by (rewrite Hf; left).
    apply elem_of_objects_filter in Hin as [Hk HP].
    rewrite (Hall _ _ Hk) in HP. done.
Qed.

(** A queryset that all agree on is a single row. *)
Lemma objects_filter_singleton `{Countable K} {A} (P : K → A → bool)
    (m : gmap K A) k a :
  m !! k = Some a → P k a = true →
  (∀ k' a', m !! k' = Some a' → P k' a' = true → k' = k) →
  objects_filter P m = [(k, a)].
Proof.
  intros Hk HP Huniq.
  assert ((k, a) ∈ objects_filter P m) as Hin
    by (apply elem_of_objects_filter; done).
  pose proof (objects_filter_NoDup P m) as Hnd.
  assert (∀ x, x ∈ objects_filter P m → x = (k, a)) as Hall.
  { intros [k' a'] [Hk' HP']%elem_of_objects_filter.
    pose proof (Huniq _ _ Hk' HP') as ->. congruence. }
  destruct (objects_filter P m) as [|x [|y l]].
  - by apply elem_of_nil in Hin.
  - rewrite (Hall x); [done|left].
  - exfalso. apply NoDup_cons in Hnd as [Hx _]. apply Hx.
    rewrite (Hall x), (Hall y); [left|right; left|left].
Qed.

(** Two rows that match make the queryset longer than one. *)
Lemma objects_filter_two `{Countable K} {A} (P : K → A → bool)
    (m : gmap K A) k1 a1 k2 a2 :
  m !! k1 = Some a1 → m !! k2 = Some a2 → k1 ≠ k2 →
  P k1 a1 = true → P k2 a2 = true →
  ∃ x y l, objects_filter P m = x :: y :: l.
Proof.
  intros H1 H2 Hne HP1 HP2.
  assert ((k1, a1) ∈ objects_filter P m) as Hin1
    by (apply elem_of_objects_filter; done).
  assert ((k2, a2) ∈ objects_filter P m) as Hin2
    by (apply elem_of_objects_filter; done).
  destruct (objects_filter P m) as [|x [|y l]].
  - by apply elem_of_nil in Hin1.
  - apply list_elem_of_singleton in Hin1, Hin2. congruence.
  - eauto.
Qed.

Section token.
Context `{Collaborators}.

(** C4. Token exchange. A request without a (non-empty) confirmation code
    or without a (non-empty) username is answered 400. With both fields
    present: 404 when no user has the username; 400 when the user exists
    and the code does not match; 200 with the token when it matches. The
    store is never changed. *)
Theorem TokenObtainView_post_status (s : Store) (request : Request.t Form) :
  unique_usernames s →
  let username := Request.data request !! "username" in
  let code := Request.data request !! "confirmation_code" in
  (truthy code = false ∨ truthy username = false →
     ∃ body, TokenObtainView_post request s
             = (Ok (Response.mk 400 body), s))
  ∧ (∀ name c, username = Some name → code = Some c →
     truthy username = true → truthy code = true →
     ((∀ pk u, users s !! pk = Some u → User.username u ≠ name) →
        TokenObtainView_post request s = (Raise Http404, s)
        ∧ status_of_exception Http404 = 404%nat)
     ∧ (∀ pk u, users s !! pk = Some u → User.username u = name →
          (check_confirmation_code pk u c = false →
             ∃ body, TokenObtainView_post request s
                     = (Ok (Response.mk 400 body), s))
          ∧ (check_confirmation_code pk u c = true →
               TokenObtainView_post request s
               = (Ok (Response.mk 200
                        (JObj [("token", JStr (access_token pk u))])), s)))).
Proof.
  intros Huniq username code. unfold TokenObtainView_post.
  fold username code. split.
  - intros [Hc|Hu].
    + rewrite Hc. cbn. eauto.
    + rewrite Hu. destruct (truthy code); cbn; eauto.
  - intros name c Hname Hcode Hu Hc. rewrite Hu, Hc. cbn.
    unfold_monad. rewrite Hname, Hcode. cbn. split.
    + intros Hnone. split; [|done].
      rewrite (proj2 (objects_filter_nil _ _)); [done|].
      intros k a Hk. apply String.eqb_neq. eauto.
    + intros pk u Hpk Hun.
      rewrite (objects_filter_singleton _ _ pk u); [| done | |].
      * cbn. split; intros ->; cbn; eauto.
      * by apply String.eqb_eq.
      * intros k' a' Hk' Heq%String.eqb_eq. eapply Huniq; eauto. congruence.
Qed.

End token.

Lemma example_store_unique_usernames : unique_usernames example_store.
Proof.
  intros k1 k2 u1 u2 H1 H2 Heq. cbn in H1, H2.
  destruct (decide (k1 = 1%nat)) as [->|]; [|
  destruct (decide (k1 = 2%nat)) as [->|]; [|
  destruct (decide (k1 = 3%nat)) as [->|]]];
  (destruct (decide (k2 = 1%nat)) as [->|]; [|
   destruct (decide (k2 = 2%nat)) as [->|]; [|
   destruct (decide (k2 = 3%nat)) as [->|]]]);
  simplify_map_eq; done.
Qed.

(** C4 at the example store: alice exists, and a wrong code for her is
    answered 400. *)
Lemma TokenObtainView_post_status_witness :
  unique_usernames example_store
  ∧ ∃ body,
      TokenObtainView_post (H := example_collaborators)
        (Request.mk None
           {[ "username" := "alice"; "confirmation_code" := "nope" ]})
        example_store
      = (Ok (Response.mk 400 body), example_store).
Proof.
  split; [exact example_store_unique_usernames|].
  pose proof (TokenObtainView_post_status (H := example_collaborators)
                example_store
                (Request.mk None
                   {[ "username" := "alice"; "confirmation_code" := "nope" ]})
                example_store_unique_usernames) as [_ Hpresent].
  destruct (Hpresent "alice" "nope") as [_ Hexists]; [done..|].
  destruct (Hexists 1%nat (User.mk "alice" "alice@example.org" "" "" "" "user"))
    as [Hwrong _]; [done..|].
  apply Hwrong. reflexivity.
Defined.

Section signup.
Context `{Collaborators}.

(** X4. Signup when the username is one user's and the e-mail another's:
    [user.get()] finds two rows and raises; the request ends in a server
    error, not in a validation error. *)
Lemma SignUpViewSet_create_two_matches (s : Store) (request : Request.t Form)
    username email k1 u1 k2 u2 :
  UserSignUpSerializer_to_internal_value (Request.data request)
    = Ok (username, email) →
  users s !! k1 = Some u1 → users s !! k2 = Some u2 → k1 ≠ k2 →
  User.username u1 = username → User.email u2 = email →
  SignUpViewSet_create request s = (Raise MultipleObjectsReturned, s).
Proof.
  intros Hvalid H1 H2 Hne Hu He.
  unfold SignUpViewSet_create, UserSignUpSerializer_run_validation,
    UserSignUpSerializer_validate.
  unfold_monad. rewrite Hvalid. cbn.
  destruct (objects_filter_two (signup_matches username email) (users s)
              k1 u1 k2 u2) as (x & y & l & Hf); [done..| | |].
  - unfold signup_matches. apply orb_true_iff. left. by apply String.eqb_eq.
  - unfold signup_matches. apply orb_true_iff. right. by apply String.eqb_eq.
  - unfold signup_matches in Hf. rewrite Hf. done.
Qed.

(** X2. Signup when a single user matches and one of the two fields differs:
    a validation error (400), and nothing is stored or sent. *)
Lemma SignUpViewSet_create_partial_match (s : Store)
    (request : Request.t Form) username email k u :
  UserSignUpSerializer_to_internal_value (Request.data request)
    = Ok (username, email) →
  users s !! k = Some u →
  signup_matches username email k u = true →
  (∀ k' u', users s !! k' = Some u' →
     signup_matches username email k' u' = true → k' = k) →
  User.username u ≠ username ∨ User.email u ≠ email →
  ∃ detail, SignUpViewSet_create request s
            = (Raise (ValidationError detail), s).
Proof.
  intros Hvalid Hk Hm Honly Hdiff.
  unfold SignUpViewSet_create, UserSignUpSerializer_run_validation,
    UserSignUpSerializer_validate.
  unfold_monad. rewrite Hvalid. cbn.
  pose proof (objects_filter_singleton (signup_matches username email)
                (users s) k u Hk Hm Honly) as Hf.
  unfold signup_matches in Hf. rewrite Hf. cbn.
  assert (negb (User.email u =? email)%string
          || negb (User.username u =? username)%string = true) as ->.
  { apply orb_true_iff. destruct Hdiff as [Hd|Hd].
    - right. apply negb_true_iff. by apply String.eqb_neq.
    - left. apply negb_true_iff. by apply String.eqb_neq. }
  eauto.
Qed.

(** X1. Signup with the username and the e-mail of one user, no other user
    having either: answered 200, no user is added or changed, and the
    confirmation code of that user is sent to the address again. *)
Lemma SignUpViewSet_create_exact_match (s : Store)
    (request : Request.t Form) username email k u :
  UserSignUpSerializer_to_internal_value (Request.data request)
    = Ok (username, email) →
  users s !! k = Some u →
  User.username u = username → User.email u = email →
  (∀ k' u', users s !! k' = Some u' →
     signup_matches username email k' u' = true → k' = k) →
  SignUpViewSet_create request s
  = (Ok (Response.mk 200 (UserSignUpSerializer_data u)),
     with_outbox (outbox s ++ [(email, get_confirmation_code k u)]) s).
Proof.
  intros Hvalid Hk Hu He Honly.
  unfold SignUpViewSet_create, UserSignUpSerializer_run_validation,
    UserSignUpSerializer_validate, UserSignUpSerializer_create,
    User_objects_get_or_create, send_confirmation_email.
  unfold_monad. rewrite Hvalid. cbn.
  assert (signup_matches username email k u = true) as Hm.
  { unfold signup_matches. apply orb_true_iff. left. by apply String.eqb_eq. }
  pose proof (objects_filter_singleton (signup_matches username email)
                (users s) k u Hk Hm Honly) as Hf.
  unfold signup_matches in Hf. rewrite Hf. cbn.
  rewrite Hu, He, !String.eqb_refl. cbn.
  rewrite (objects_filter_singleton _ (users s) k u); [done|done| |].
  - rewrite Hu, He, !String.eqb_refl. done.
  - intros k' u' Hk' [Hu' _]%andb_true_iff. apply (Honly k' u' Hk').
    unfold signup_matches. by rewrite Hu'.
Qed.

(** X3. Signup with a username and an e-mail that no user has: answered 200,
    the user is added and the confirmation code sent. *)
Lemma SignUpViewSet_create_new (s : Store) (request : Request.t Form)
    username email :
  UserSignUpSerializer_to_internal_value (Request.data request)
    = Ok (username, email) →
  (∀ k u, users s !! k = Some u → signup_matches username email k u = false) →
  let pk := next_id (users s) in
  let u := User_new username email in
  SignUpViewSet_create request s
  = (Ok (Response.mk 200 (UserSignUpSerializer_data u)),
     with_outbox (outbox s ++ [(email, get_confirmation_code pk u)])
       (with_users (<[pk := u]> (users s)) s)).
Proof.
  intros Hvalid Hnone pk u.
  unfold SignUpViewSet_create, UserSignUpSerializer_run_validation,
    UserSignUpSerializer_validate, UserSignUpSerializer_create,
    User_objects_get_or_create, User_objects_create,
    send_confirmation_email.
  unfold_monad. rewrite Hvalid. cbn.
  pose proof (proj2 (objects_filter_nil (signup_matches username email)
                       (users s)) Hnone) as Hf.
  unfold signup_matches in Hf. rewrite Hf. cbn.
  rewrite (proj2 (objects_filter_nil _ (users s))).
  2:{ intros k' u' Hk'. specialize (Hnone _ _ Hk').
      unfold signup_matches in Hnone.
      apply orb_false_iff in Hnone as [-> _]. done. }
  cbn. rewrite Hf. cbn. done.
Qed.

End signup.

(** C3, the failing case: alice's username with bob's e-mail. Two users
    match, [user.get()] raises [MultipleObjectsReturned], and the client
    sees a server error (500) where the claim has a conflict (400). The
    store is left as it was. *)
Theorem SignUpViewSet_create_username_and_email_of_two_users :
  let result :=
    SignUpViewSet_create (H := example_collaborators)
      (Request.mk None
         {[ "username" := "alice"; "email" := "bob@example.org" ]})
      example_store in
  result = (Raise MultipleObjectsReturned, example_store)
  ∧ status_of result.1 = 500%nat.
Proof. vm_compute. done. Qed.

(** ** Deletion *)

Lemma lookup_on_delete_rows_CASCADE `{Countable K} {A} (refers : A → bool)
    (set_null : A → A) (m : gmap K A) k a :
  on_delete_rows CASCADE refers set_null m !! k = Some a
  ↔ m !! k = Some a ∧ refers a = false.
Proof. cbn. by rewrite map_lookup_filter_Some. Qed.

Lemma lookup_on_delete_rows_SET_NULL `{Countable K} {A} (refers : A → bool)
    (set_null : A → A) (m : gmap K A) k :
  on_delete_rows SET_NULL refers set_null m !! k
  = (λ a, if refers a then set_null a else a) <$> m !! k.
Proof. cbn. by rewrite lookup_fmap. Qed.

Lemma lookup_Comments_collect (before after : gmap nat Review.t)
    (m : gmap nat Comments.t) k c :
  Comments_collect before after m !! k = Some c
  ↔ m !! k = Some c
    ∧ ¬ (is_Some (before !! Comments.review c)
         ∧ after !! Comments.review c = None).
Proof.
  unfold Comments_collect, Comments_review_on_delete.
  rewrite lookup_on_delete_rows_CASCADE. unfold deleted_from.
  by rewrite bool_decide_eq_false.
Qed.

(** C6. What a deletion leaves behind.
    - Deleting a category removes its row only: every title stays, with the
      same fields, but for the category reference of the titles that
      referred to it, which is cleared; genres, join rows, reviews and
      comments are as before.
    - Deleting a title deletes, among the reviews, exactly those of the
      title, and among the comments exactly those on a review of the
      title.
    - Deleting a review deletes, among the reviews, that one only, and
      among the comments exactly those on it. *)
Theorem on_delete_effects :
  (∀ s slug pk,
     titles (Category_delete slug s) !! pk
     = (λ t, if bool_decide (Title.category t = Some slug)
             then Title.mk (Title.name t) (Title.year t)
                    (Title.description t) None
             else t) <$> titles s !! pk)
  ∧ (∀ s slug,
       categories (Category_delete slug s) = delete slug (categories s)
       ∧ genres (Category_delete slug s) = genres s
       ∧ genre_titles (Category_delete slug s) = genre_titles s
       ∧ reviews (Category_delete slug s) = reviews s
       ∧ comments (Category_delete slug s) = comments s)
  ∧ (∀ s pk k r,
       reviews (Title_delete pk s) !! k = Some r
       ↔ reviews s !! k = Some r ∧ Review.title r ≠ pk)
  ∧ (∀ s pk k c,
       comments (Title_delete pk s) !! k = Some c
       ↔ comments s !! k = Some c
         ∧ ¬ ∃ r, reviews s !! Comments.review c = Some r
                  ∧ Review.title r = pk)
  ∧ (∀ s pk, titles (Title_delete pk s) = delete pk (titles s))
  ∧ (∀ s pk, reviews (Review_delete pk s) = delete pk (reviews s))
  ∧ (∀ s pk k c,
       comments (Review_delete pk s) !! k = Some c
       ↔ comments s !! k = Some c
         ∧ ¬ (Comments.review c = pk ∧ is_Some (reviews s !! pk))).
Proof.
  repeat apply conj.
  - intros s slug pk. unfold Category_delete, Title_category_on_delete.
    cbn [titles with_titles]. by rewrite lookup_on_delete_rows_SET_NULL.
  - intros s slug. repeat split.
  - intros s pk k r. unfold Title_delete, Review_title_on_delete.
    cbn [reviews with_reviews with_comments].
    rewrite lookup_on_delete_rows_CASCADE, bool_decide_eq_false. tauto.
  - intros s pk k c. unfold Title_delete.
    cbn [comments with_comments]. rewrite lookup_Comments_collect.
    unfold Review_title_on_delete. split.
    + intros [Hc Hkeep]. split; [done|].
      intros (r & Hr & Ht). apply Hkeep. split; [eauto|].
      apply eq_None_not_Some. intros [r' Hr'].
      apply lookup_on_delete_rows_CASCADE in Hr' as [Hr' Hf].
      apply bool_decide_eq_false in Hf. congruence.
    + intros [Hc Hkeep]. split; [done|].
      intros [[r Hr] Hgone]. apply Hkeep. exists r. split; [done|].
      destruct (decide (Review.title r = pk)) as [|Hne]; [done|].
      assert (on_delete_rows CASCADE
                (λ r0, bool_decide (Review.title r0 = pk)) id (reviews s)
                !! Comments.review c = Some r) as Hin.
      { apply lookup_on_delete_rows_CASCADE. split; [done|].
        by apply bool_decide_eq_false. }
      congruence.
  - reflexivity.
  - reflexivity.
  - intros s pk k c. unfold Review_delete.
    cbn [comments with_comments]. rewrite lookup_Comments_collect. split.
    + intros [Hc Hkeep]. split; [done|].
      intros [Heq Hsome]. subst pk. apply Hkeep. split; [done|].
      apply lookup_delete_eq.
    + intros [Hc Hkeep]. split; [done|].
      intros [Hsome Hgone]. apply Hkeep.
      destruct (decide (Comments.review c = pk)) as [Heq|Hne].
      * subst pk. done.
      * rewrite lookup_delete_ne in Hgone; [|done].
        destruct Hsome as [r Hr]. congruence.
Qed.

(** ** The rating of a title *)

Lemma Avg_to_representation (scores : list Z) (q : Q) :
  Avg scores = Some q →
  IntegerField_to_representation q
  = Z.quot (Z_sum scores) (Z.of_nat (length scores)).
Proof.
  destruct scores as [|z l]; [done|].
  intros [= <-]. unfold IntegerField_to_representation. cbn [Qnum Qden].
  f_equal. cbn [length]. lia.
Qed.

Section rating.
Context `{Collaborators}.

Lemma initial_safe {D} (s : Store) (request : Request.t D)
    (has_permission : Method → option (nat * User.t) → bool) method :
  authenticates s request →
  (∀ user, has_permission method user = true) →
  ∃ user, initial has_permission method request s = (Ok user, s).
Proof.
  intros Hauth Hperm. unfold initial, authenticate. unfold_monad.
  destruct (Request.user request) as [pk|] eqn:Hu.
  - destruct (Hauth pk Hu) as [u ->]. rewrite Hperm. eauto.
  - rewrite Hperm. eauto.
Qed.

Lemma initial_store {D} (s : Store) (request : Request.t D)
    (has_permission : Method → option (nat * User.t) → bool) method :
  ∃ r, initial has_permission method request s = (r, s).
Proof.
  unfold initial, authenticate, permission_denied. unfold_monad.
  destruct (Request.user request) as [pk|].
  - destruct (users s !! pk) as [u|]; [|eauto].
    destruct (has_permission _ _); eauto.
  - destruct (has_permission _ _); eauto.
Qed.

Lemma initial_Ok {D} (s s' : Store) (request : Request.t D)
    (has_permission : Method → option (nat * User.t) → bool) method user :
  initial has_permission method request s = (Ok user, s') →
  s' = s ∧ has_permission method user = true
  ∧ match user with
    | Some u => Request.user request = Some u.1 ∧ users s !! u.1 = Some u.2
    | None => Request.user request = None
    end.
Proof.
  unfold initial, authenticate, permission_denied. unfold_monad.
  destruct (Request.user request) as [pk|].
  - destruct (users s !! pk) as [u|] eqn:Hu; [|done].
    destruct (has_permission _ _) eqn:Hp; [|done].
    intros [= <- <-]. done.
  - destruct (has_permission _ _) eqn:Hp; [|done].
    intros [= <- <-]. done.
Qed.

Lemma TitleViewSet_queryset_lookup (s : Store) (pk : nat) :
  TitleViewSet_queryset s !! pk
  = (λ t, (t, Avg (Title_scores s pk))) <$> titles s !! pk.
Proof.
  unfold TitleViewSet_queryset. rewrite map_lookup_imap.
  by destruct (titles s !! pk).
Qed.

Lemma TitleSerializer_data_rating (s : Store) (pk : nat) (t : Title.t) :
  field_of "rating" (TitleSerializer_data s pk t (Some (Avg (Title_scores s pk))))
  = Some match Title_scores s pk with
         | [] => JNull
         | scores => JInt (Z.quot (Z_sum scores) (Z.of_nat (length scores)))
         end.
Proof.
  cbn. destruct (Avg (Title_scores s pk)) as [q|] eqn:Havg.
  - cbn. rewrite (Avg_to_representation _ _ Havg).
    by destruct (Title_scores s pk).
  - by destruct (Title_scores s pk).
Qed.

(** C1, as the code has it. For every title of the store, retrieval and
    listing (with any filter the title passes) answer 200 with the title's
    representation, whose [rating] is null when the title has no review and
    else the mean of its reviews' scores cut towards zero to an integer:
    the quotient of their sum by their number. *)
Theorem TitleViewSet_rating (s : Store) (request : Request.t Body)
    (f : TitleFilter.t) (pk : nat) (t : Title.t) :
  authenticates s request →
  titles s !! pk = Some t →
  let rating :=
    match Title_scores s pk with
    | [] => JNull
    | scores => JInt (Z.quot (Z_sum scores) (Z.of_nat (length scores)))
    end in
  (∃ body,
     TitleViewSet_retrieve pk request s = (Ok (Response.mk 200 body), s)
     ∧ field_of "id" body = Some (JInt (Z.of_nat pk))
     ∧ field_of "rating" body = Some rating)
  ∧ (∃ items,
       TitleViewSet_list f request s = (Ok (Response.mk 200 (JList items)), s)
       ∧ (TitleFilter_matches s f pk t = true →
          ∃ item, item ∈ items ∧ field_of "id" item = Some (JInt (Z.of_nat pk)))
       ∧ (∀ item, item ∈ items →
          field_of "id" item = Some (JInt (Z.of_nat pk)) →
          field_of "rating" item = Some rating)).
Proof.
  intros Hauth Ht rating.
  destruct (initial_safe s request IsAdminOrReadOnly GET Hauth) as [user Hinit];
    [done|].
  split.
  - unfold TitleViewSet_retrieve, TitleViewSet_get_object. unfold_monad.
    rewrite Hinit. unfold get_object_or_404.
    rewrite TitleViewSet_queryset_lookup, Ht. cbn [fmap option_fmap option_map].
    eexists. split; [reflexivity|]. split; [done|].
    apply TitleSerializer_data_rating.
  - unfold TitleViewSet_list. unfold_monad. rewrite Hinit.
    eexists. split; [reflexivity|]. split.
    + intros Hmatch.
      exists (TitleSerializer_data s pk t (Some (Avg (Title_scores s pk)))).
      split; [|done].
      apply (list_elem_of_fmap_2'
               (λ kv : nat * (Title.t * option Q),
                  TitleSerializer_data s kv.1 kv.2.1 (Some kv.2.2))
               _ (pk, (t, Avg (Title_scores s pk)))); [|done].
      apply elem_of_objects_filter. split; [|done].
      by rewrite TitleViewSet_queryset_lookup, Ht.
    + intros item Hin Hid.
      apply list_elem_of_fmap in Hin as ([k [t' r]] & -> & Hin).
      apply elem_of_objects_filter in Hin as [Hk _].
      rewrite TitleViewSet_queryset_lookup in Hk.
      destruct (titles s !! k) as [t''|]; [|done].
      injection Hk as -> <-. cbn in Hid.
      assert (k = pk) as -> by (injection Hid; lia).
      apply TitleSerializer_data_rating.
Qed.

End rating.

(** C1 at the example store: the only title, asked for by an anonymous
    caller. *)
Lemma TitleViewSet_rating_witness :
  ∃ body,
    TitleViewSet_retrieve (H := example_collaborators) 1 (Request.mk None ∅)
      example_store
    = (Ok (Response.mk 200 body), example_store)
    ∧ field_of "rating" body = Some (JInt 7).
Proof.
  destruct (TitleViewSet_rating (H := example_collaborators) example_store
              (Request.mk None ∅) (TitleFilter.mk None None None None) 1%nat
              (Title.mk "Solaris" 1972 "" (Some "film")))
    as [(body & Hret & _ & Hrating) _].
  - intros pk Hpk. discriminate Hpk.
  - reflexivity.
  - exists body. split; [exact Hret|]. rewrite Hrating. vm_compute. reflexivity.
Defined.

(** C1 as stated fails: the title of the example store has the scores 7 and
    8, whose mean is 15/2; the rating in the answer is 7. *)
Lemma TitleViewSet_retrieve_rating_is_not_the_mean :
  ∃ body,
    TitleViewSet_retrieve (H := example_collaborators) 1 (Request.mk None ∅)
      example_store
    = (Ok (Response.mk 200 body), example_store)
    ∧ field_of "rating" body = Some (JInt 7)
    ∧ Avg (Title_scores example_store 1) = Some (15 # 2)%Q
    ∧ ¬ (inject_Z 7 == 15 # 2)%Q.
Proof.
  eexists. split; [vm_compute; reflexivity|].
  split; [vm_compute; reflexivity|].
  split; [vm_compute; reflexivity|].
  unfold Qeq. cbn. lia.
Qed.

(** ** The serializers of a title *)

Section titles.
Context `{Collaborators}.

Lemma required_field_Ok {A} (v : option JSON) (run : JSON → Result A) (a : A) :
  required_field v run = Ok a → ∃ j, v = Some j ∧ run j = Ok a.
Proof. destruct v as [j|]; [eauto|done]. Qed.


Lemma TitlePostSerializer_to_internal_value_Ok (s : Store) (data : Body)
    (vd : TitleData.t) :
  TitlePostSerializer_to_internal_value s data = Ok vd →
  required_field (data !! "name") Title_name_field = Ok (TitleData.name vd)
  ∧ required_field (data !! "year") Title_year_field = Ok (TitleData.year vd)
  ∧ required_field (data !! "description") Title_description_field
    = Ok (TitleData.description vd)
  ∧ required_field (data !! "genre")
      (ManyRelatedField_run_validation (genres s)) = Ok (TitleData.genre vd)
  ∧ required_field (data !! "category")
      (SlugRelatedField_run_validation (categories s))
    = Ok (TitleData.category vd).
Proof.
  unfold TitlePostSerializer_to_internal_value.
  destruct (required_field (data !! "name") _);
    destruct (required_field (data !! "year") _);
    destruct (required_field (data !! "description") _);
    destruct (required_field (data !! "genre") _);
    destruct (required_field (data !! "category") _); try done.
  by intros [= <-].
Qed.

(** A slug that [SlugRelatedField] accepts comes as a text or a number and
    names a row of the table. *)
Lemma SlugRelatedField_to_internal_value_Ok {A} (table : gmap string A)
    (j : JSON) (slug : string) :
  SlugRelatedField_to_internal_value table j = Ok slug →
  is_Some (table !! slug) ∧ ((∃ v, j = JStr v) ∨ (∃ z, j = JInt z)).
Proof.
  destruct j as [|v|z|l|l]; cbn; try done.
  - case_bool_decide; [|done]. intros [= <-]. eauto.
  - case_bool_decide; [|done]. intros [= <-]. eauto.
Qed.

Lemma SlugRelatedField_run_validation_Ok {A} (table : gmap string A)
    (j : JSON) (slug : string) :
  SlugRelatedField_run_validation table j = Ok slug →
  is_Some (table !! slug) ∧ ((∃ v, j = JStr v) ∨ (∃ z, j = JInt z)).
Proof.
  unfold SlugRelatedField_run_validation.
  destruct j as [|v|z|l|l]; try done;
    [destruct v as [|a v']; [done|] |..];
    apply SlugRelatedField_to_internal_value_Ok.
Qed.

Lemma each_slug_Ok {A} (table : gmap string A) (l : list JSON)
    (slugs : list string) :
  each_slug table l = Ok slugs → Forall (λ g, is_Some (table !! g)) slugs.
Proof.
  revert slugs. induction l as [|j l IH]; intros slugs; cbn.
  - intros [= <-]. constructor.
  - unfold_monad.
    destruct (SlugRelatedField_to_internal_value table j) as [v|] eqn:Hj;
      [|done].
    destruct (each_slug table l) as [vs|]; [|done].
    intros [= <-]. constructor; [|by apply IH].
    by apply SlugRelatedField_to_internal_value_Ok in Hj as [? _].
Qed.

Lemma ManyRelatedField_run_validation_Ok {A} (table : gmap string A)
    (j : JSON) (slugs : list string) :
  ManyRelatedField_run_validation table j = Ok slugs →
  Forall (λ g, is_Some (table !! g)) slugs.
Proof. destruct j; cbn; try done; apply each_slug_Ok. Qed.

Lemma initial_admin (s : Store) (request : Request.t Body) (method : Method)
    (uid : nat) (u : User.t) :
  Request.user request = Some uid → users s !! uid = Some u →
  is_admin u = true →
  initial IsAdminOrReadOnly method request s = (Ok (Some (uid, u)), s).
Proof.
  intros Huser Hu Hadmin. unfold initial, authenticate. unfold_monad.
  rewrite Huser, Hu. unfold IsAdminOrReadOnly. cbn.
  by rewrite Hadmin, orb_true_r.
Qed.

Lemma TitleViewSet_get_object_Some (s : Store) (pk : nat) (t : Title.t) :
  titles s !! pk = Some t →
  TitleViewSet_get_object pk s = (Ok (pk, (t, Avg (Title_scores s pk))), s).
Proof.
  intros Ht. unfold TitleViewSet_get_object, get_object_or_404. unfold_monad.
  by rewrite TitleViewSet_queryset_lookup, Ht.
Qed.


(** A full update of a title either raises and leaves the store alone, or
    answers 200 and replaces the title's row by one with the same category;
    the join rows with the genres are not touched. *)
Lemma TitleViewSet_update_full_cases (pk : nat) (request : Request.t Body)
    (s : Store) :
  (∃ e, TitleViewSet_update false pk request s = (Raise e, s))
  ∨ (∃ t t' body,
       titles s !! pk = Some t ∧ Title.category t' = Title.category t
       ∧ TitleViewSet_update false pk request s
         = (Ok (Response.mk 200 body),
            with_titles (<[pk := t']> (titles s)) s)).
Proof.
  unfold TitleViewSet_update. unfold_monad.
  destruct (initial _ (Action_method Action.update) request s)
    as [[user|e] s'] eqn:Hinit.
  2:{ destruct (initial_store s request IsAdminOrReadOnly
                  (Action_method Action.update)) as [r Hr].
      left. exists e. congruence. }
  apply initial_Ok in Hinit as (-> & _ & _).
  unfold TitleViewSet_get_object, get_object_or_404. unfold_monad.
  rewrite TitleViewSet_queryset_lookup.
  destruct (titles s !! pk) as [t|] eqn:Ht; [|left; eauto].
  cbn [fmap option_fmap option_map].
  change (to_internal_value (TitleViewSet_get_serializer Action.update))
    with TitleSerializer_to_internal_value.
  destruct (TitleSerializer_to_internal_value s (Request.data request))
    as [vd|e]; [|left; eauto].
  change (update (TitleViewSet_get_serializer Action.update))
    with TitleSerializer_update.
  change (as_partial (TitleViewSet_get_serializer Action.update))
    with TitlePut_as_patch.
  unfold TitleSerializer_update, TitlePut_as_patch. unfold_monad.
  cbn [TitlePutPatch.genre TitlePutPatch.category].
  destruct (TitlePut.genre vd), (TitlePut.category vd);
    try by (left; eexists).
  right. eexists t, _, _. split; [done|]. split; [|reflexivity]. done.
Qed.

End titles.

(** ** Creating a title *)

Section create_title.
Context `{Collaborators}.

Lemma TitlePostSerializer_to_internal_value_cases (s : Store) (data : Body) :
  (∃ vd, TitlePostSerializer_to_internal_value s data = Ok vd)
  ∨ (∃ d, TitlePostSerializer_to_internal_value s data
          = Raise (ValidationError d)).
Proof.
  unfold TitlePostSerializer_to_internal_value.
  destruct (required_field (data !! "name") _);
    destruct (required_field (data !! "year") _);
    destruct (required_field (data !! "description") _);
    destruct (required_field (data !! "genre") _);
    destruct (required_field (data !! "category") _); eauto.
Qed.

(** A body without a category, or with a null one, or without genres, never
    creates a title: the request ends in an exception and the store is as
    before. *)
Lemma TitleViewSet_create_required (s : Store) (request : Request.t Body) :
  Request.data request !! "category" = None
  ∨ Request.data request !! "category" = Some JNull
  ∨ Request.data request !! "genre" = None →
  ∃ e, TitleViewSet_create request s = (Raise e, s).
Proof.
  intros Hmissing. unfold TitleViewSet_create. unfold_monad.
  destruct (initial_store s request IsAdminOrReadOnly POST) as [[user|e] ->];
    [|eauto].
  change (to_internal_value (TitleViewSet_get_serializer Action.create))
    with TitlePostSerializer_to_internal_value.
  destruct (TitlePostSerializer_to_internal_value_cases s
              (Request.data request)) as [[vd Hvd]|[d ->]]; [|eauto].
  exfalso.
  apply TitlePostSerializer_to_internal_value_Ok
    in Hvd as (_ & _ & _ & Hgenre & Hcat).
  destruct Hmissing as [Hm|[Hm|Hm]].
  - by rewrite Hm in Hcat.
  - by rewrite Hm in Hcat.
  - by rewrite Hm in Hgenre.
Qed.

(** C9, as the code has it. The genres of a new title may be none, the
    category may not. An admin's [create] with an empty genre list and a
    body that passes validation, so with the slug of a category of the
    store, answers 201 and adds the title with that category and no join
    row, that is, with no genre. A [create] whose body has no category, a
    null category or no [genre] key ends in an exception and stores
    nothing. *)
Theorem TitleViewSet_create_genre_and_category (s : Store)
    (request : Request.t Body) (uid : nat) (u : User.t) (vd : TitleData.t) :
  Request.user request = Some uid → users s !! uid = Some u →
  is_admin u = true →
  Request.data request !! "genre" = Some (JList []) →
  TitlePostSerializer_to_internal_value s (Request.data request) = Ok vd →
  let pk := next_id (titles s) in
  let title := Title.mk (TitleData.name vd) (TitleData.year vd)
                 (TitleData.description vd) (Some (TitleData.category vd)) in
  (∃ body,
     TitleViewSet_create request s
     = (Ok (Response.mk 201 body), with_titles (<[pk := title]> (titles s)) s))
  ∧ titles s !! pk = None
  ∧ is_Some (categories s !! TitleData.category vd)
  ∧ (∀ s0 (request0 : Request.t Body),
       Request.data request0 !! "category" = None
       ∨ Request.data request0 !! "category" = Some JNull
       ∨ Request.data request0 !! "genre" = None →
       ∃ e, TitleViewSet_create request0 s0 = (Raise e, s0)).
Proof.
  intros Huser Hu Hadmin Hgenre Hvalid pk title.
  pose proof (TitlePostSerializer_to_internal_value_Ok _ _ _ Hvalid)
    as (_ & _ & _ & Hg & Hcat).
  rewrite Hgenre in Hg. cbn in Hg. injection Hg as Hg.
  apply required_field_Ok in Hcat as (jc & _ & Hcat).
  apply SlugRelatedField_run_validation_Ok in Hcat as [Hrow _].
  split; [|split; [apply next_id_fresh|split; [done|]]].
  - unfold TitleViewSet_create. unfold_monad.
    rewrite (initial_admin s request _ uid u) by done.
    change (to_internal_value (TitleViewSet_get_serializer Action.create))
      with TitlePostSerializer_to_internal_value.
    rewrite Hvalid.
    change (create (TitleViewSet_get_serializer Action.create))
      with TitlePostSerializer_create.
    unfold TitlePostSerializer_create. unfold_monad. rewrite <- Hg. cbn.
    eauto.
  - apply TitleViewSet_create_required.
Qed.

End create_title.

(** C9 at the example store: the admin creates a title with an empty genre
    list in the category film. *)
Lemma TitleViewSet_create_genre_and_category_witness :
  ∃ body,
    TitleViewSet_create (H := example_collaborators)
      (Request.mk (Some 3%nat)
         (<["genre" := JList []]> example_title_body)) example_store
    = (Ok (Response.mk 201 body),
       with_titles
         (<[2%nat := Title.mk "Stalker" 1979 "The Zone" (Some "film")]>
            (titles example_store)) example_store).
Proof.
  destruct (TitleViewSet_create_genre_and_category (H := example_collaborators)
              example_store
              (Request.mk (Some 3%nat)
                 (<["genre" := JList []]> example_title_body))
              3%nat (User.mk "root" "root@example.org" "" "" "" "admin")
              (TitleData.mk "Stalker" 1979 "The Zone" [] "film"))
    as [Hcreate _]; [vm_compute; reflexivity..|].
  exact Hcreate.
Defined.

(** C9 as stated fails: whatever the collaborators, the store and the
    caller, no [create] whose body has no category, or a null one, stores a
    title. *)
Lemma TitleViewSet_create_without_category :
  ¬ ∃ (C : Collaborators) (s s' : Store) (request : Request.t Body)
      (response : Response.t),
      (Request.data request !! "category" = None
       ∨ Request.data request !! "category" = Some JNull)
      ∧ TitleViewSet_create request s = (Ok response, s').
Proof.
  intros (C & s & s' & request & response & Hmissing & Hcreate).
  destruct (TitleViewSet_create_required s request) as [e He]; [tauto|].
  congruence.
Qed.

(** ** Reviews and comments *)

Section reviews.
Context `{Collaborators}.

Lemma ReviewViewSet_get_queryset_cases (title_id : nat) (s : Store) :
  ReviewViewSet_get_queryset title_id s
  = match titles s !! title_id with
    | Some _ => (Ok (filter (λ kv, Review.title kv.2 = title_id) (reviews s)), s)
    | None => (Raise Http404, s)
    end.
Proof.
  unfold ReviewViewSet_get_queryset, get_object_or_404. unfold_monad.
  by destruct (titles s !! title_id).
Qed.

(** [get_object] gives a review of the title, or raises and leaves the
    store alone; without the title it raises [Http404]. *)
Lemma ReviewViewSet_get_object_cases (method : Method)
    (user : option (nat * User.t)) (title_id pk : nat) (s : Store) :
  (∃ r, ReviewViewSet_get_object method user title_id pk s = (Ok (pk, r), s)
        ∧ reviews s !! pk = Some r ∧ Review.title r = title_id
        ∧ is_Some (titles s !! title_id))
  ∨ (∃ e, ReviewViewSet_get_object method user title_id pk s = (Raise e, s)
          ∧ (titles s !! title_id = None → e = Http404)).
Proof.
  unfold ReviewViewSet_get_object. unfold_monad.
  rewrite ReviewViewSet_get_queryset_cases.
  destruct (titles s !! title_id) as [t|]; [|right; eauto].
  unfold get_object_or_404, permission_denied. unfold_monad.
  destruct (filter _ (reviews s) !! pk) as [r|] eqn:Hr.
  - apply map_lookup_filter_Some in Hr as [Hr Ht].
    destruct (IsAuthorOrStaffOrAuthenticatedCreateOrReadOnly_object _ _ _).
    + left. eauto 6.
    + right. destruct user; eexists; (split; [reflexivity|done]).
  - right. eexists. split; [reflexivity|done].
Qed.

(** [create] of a review either raises, and then leaves the store alone, or
    answers 201 and adds one row: a review of the title whose author is
    the caller, where the caller had none. *)
Lemma ReviewViewSet_create_cases (title_id : nat) (request : Request.t Body)
    (s : Store) :
  (∃ e, ReviewViewSet_create title_id request s = (Raise e, s))
  ∨ (∃ uid u text score body,
       Request.user request = Some uid ∧ users s !! uid = Some u
       ∧ is_Some (titles s !! title_id)
       ∧ (∀ k r, reviews s !! k = Some r → Review.title r = title_id →
            Review.author r ≠ uid)
       ∧ ReviewViewSet_create title_id request s
         = (Ok (Response.mk 201 body),
            with_reviews
              (<[next_id (reviews s)
                 := Review.mk title_id text uid score now]> (reviews s)) s)).
Proof.
  unfold ReviewViewSet_create. unfold_monad.
  destruct (initial _ POST request s) as [[user|e] s'] eqn:Hinit.
  2:{ destruct (initial_store s request
                  IsAuthorOrStaffOrAuthenticatedCreateOrReadOnly POST)
        as [r Hr]. left. exists e. congruence. }
  apply initial_Ok in Hinit as (-> & _ & Huser).
  destruct (ReviewSerializer_to_internal_value (Request.data request))
    as [[text score]|e]; [|left; eauto].
  destruct user as [[uid u]|]; [|left; cbn; eauto].
  cbn [ReviewSerializer_run_validate]. unfold ReviewSerializer_validate.
  unfold_monad.
  destruct (objects_filter _ (reviews s)) as [|x l] eqn:Hf; [|left; eauto].
  unfold ReviewViewSet_perform_create, Review_objects_create,
    get_object_or_404.
  unfold_monad.
  destruct (titles s !! title_id) as [t|] eqn:Ht; [|left; eauto].
  cbn [Review.title Review.author fst snd].
  assert (∀ k r, reviews s !! k = Some r → Review.title r = title_id →
            Review.author r ≠ uid) as Hnone.
  { intros k r Hk Htitle Hauthor.
    pose proof (proj1 (objects_filter_nil _ _) Hf k r Hk) as Hfalse.
    cbn in Hfalse. rewrite !bool_decide_eq_true_2 in Hfalse; done. }
  rewrite (proj2 (objects_filter_nil _ (reviews s))).
  2:{ intros k r Hk. apply andb_false_iff.
      destruct (decide (Review.title r = title_id)) as [Heq|Hne].
      - right. apply bool_decide_eq_false. by apply Hnone in Hk.
      - left. by apply bool_decide_eq_false. }
  right. exists uid, u, text, score. eexists.
  destruct Huser as [Hu1 Hu2]. cbn in Hu1, Hu2.
  split; [done|]. split; [done|]. split; [eauto|]. split; [done|].
  reflexivity.
Qed.

Lemma ReviewSerializer_to_internal_value_cases (data : Body) :
  (∃ vd, ReviewSerializer_to_internal_value data = Ok vd)
  ∨ (∃ d, ReviewSerializer_to_internal_value data = Raise (ValidationError d)).
Proof.
  unfold ReviewSerializer_to_internal_value.
  destruct (required_field (data !! "text") _);
    destruct (required_field (data !! "score") _); eauto.
Qed.

(** [update] and [partial_update] of a review either raise, and then leave
    the store alone, or answer 200 and replace the row by one with the same
    title and author. Without the title, once the permission check has
    passed, the exception is [Http404]. *)
Lemma ReviewViewSet_update_cases (partial : bool) (title_id pk : nat)
    (request : Request.t Body) (s : Store) :
  (∃ e, ReviewViewSet_update partial title_id pk request s = (Raise e, s)
        ∧ (titles s !! title_id = None →
           (∃ user, initial IsAuthorOrStaffOrAuthenticatedCreateOrReadOnly
                      (if partial then PATCH else PUT) request s
                    = (Ok user, s)) →
           e = Http404))
  ∨ (∃ r r' body,
       reviews s !! pk = Some r
       ∧ Review.title r' = Review.title r ∧ Review.author r' = Review.author r
       ∧ ReviewViewSet_update partial title_id pk request s
         = (Ok (Response.mk 200 body),
            with_reviews (<[pk := r']> (reviews s)) s)).
Proof.
  unfold ReviewViewSet_update. unfold_monad.
  destruct (initial _ (if partial then PATCH else PUT) request s)
    as [[user|e] s'] eqn:Hinit.
  2:{ destruct (initial_store s request
                  IsAuthorOrStaffOrAuthenticatedCreateOrReadOnly
                  (if partial then PATCH else PUT)) as [r Hr].
      left. exists e. split; [congruence|].
      intros _ [user Huser]. congruence. }
  apply initial_Ok in Hinit as (-> & _ & Huser).
  destruct (ReviewViewSet_get_object_cases (if partial then PATCH else PUT)
              user title_id pk s)
    as [(r & -> & Hr & Ht & Hsome)|(e & -> & He)].
  2:{ left. exists e. split; [done|]. intros Hnone _. by apply He. }
  assert (∀ e, titles s !! title_id = None → e = Http404) as Himp.
  { intros e Hnone. rewrite Hnone in Hsome. by destruct Hsome. }
  destruct (if partial
            then ReviewSerializer_to_internal_value_partial
                   (Request.data request)
            else _) as [vd|e]; [|left; eauto].
  destruct (ReviewSerializer_run_validate _ title_id user vd s)
    as [[vd'|e] s''] eqn:Hval.
  - assert (s'' = s) as ->.
    { revert Hval. unfold ReviewSerializer_run_validate,
        ReviewSerializer_validate. unfold_monad.
      destruct partial, user as [[uid u]|];
        repeat case_match; congruence. }
    unfold ReviewSerializer_update. unfold_monad. right.
    eexists r, _, _. split; [done|]. split; [|split]; [| |reflexivity]; done.
  - assert (s'' = s) as ->.
    { revert Hval. unfold ReviewSerializer_run_validate,
        ReviewSerializer_validate. unfold_monad.
      destruct partial, user as [[uid u]|];
        repeat case_match; congruence. }
    left. eauto.
Qed.

Lemma ReviewViewSet_destroy_cases (title_id pk : nat)
    (request : Request.t Body) (s : Store) :
  (∃ e, ReviewViewSet_destroy title_id pk request s = (Raise e, s)
        ∧ (titles s !! title_id = None →
           (∃ user, initial IsAuthorOrStaffOrAuthenticatedCreateOrReadOnly
                      DELETE request s = (Ok user, s)) →
           e = Http404))
  ∨ (∃ body, is_Some (titles s !! title_id)
       ∧ ReviewViewSet_destroy title_id pk request s
         = (Ok (Response.mk 204 body), Review_delete pk s)).
Proof.
  unfold ReviewViewSet_destroy. unfold_monad.
  destruct (initial _ DELETE request s) as [[user|e] s'] eqn:Hinit.
  2:{ destruct (initial_store s request
                  IsAuthorOrStaffOrAuthenticatedCreateOrReadOnly DELETE)
        as [r Hr].
      left. exists e. split; [congruence|].
      intros _ [user Huser]. congruence. }
  apply initial_Ok in Hinit as (-> & _ & Huser).
  destruct (ReviewViewSet_get_object_cases DELETE user title_id pk s)
    as [(r & -> & Hr & Ht & Hsome)|(e & -> & He)].
  - right. eauto.
  - left. exists e. split; [done|]. intros Hnone _. by apply He.
Qed.

(** The reading actions leave the store alone, and without the title they
    raise [Http404]. *)
Lemma ReviewViewSet_list_cases (title_id : nat) (request : Request.t Body)
    (s : Store) :
  ∃ r, ReviewViewSet_list title_id request s = (r, s)
       ∧ (titles s !! title_id = None →
          (∃ user, initial IsAuthorOrStaffOrAuthenticatedCreateOrReadOnly
                     GET request s = (Ok user, s)) →
          r = Raise Http404).
Proof.
  unfold ReviewViewSet_list. unfold_monad.
  destruct (initial _ GET request s) as [[user|e] s'] eqn:Hinit.
  2:{ destruct (initial_store s request
                  IsAuthorOrStaffOrAuthenticatedCreateOrReadOnly GET)
        as [r Hr].
      exists (Raise e). split; [congruence|].
      intros _ [user Huser]. congruence. }
  apply initial_Ok in Hinit as (-> & _ & Huser).
  rewrite ReviewViewSet_get_queryset_cases.
  destruct (titles s !! title_id); eexists; (split; [reflexivity|done]).
Qed.

Lemma ReviewViewSet_retrieve_cases (title_id pk : nat)
    (request : Request.t Body) (s : Store) :
  ∃ r, ReviewViewSet_retrieve title_id pk request s = (r, s)
       ∧ (titles s !! title_id = None →
          (∃ user, initial IsAuthorOrStaffOrAuthenticatedCreateOrReadOnly
                     GET request s = (Ok user, s)) →
          r = Raise Http404).
Proof.
  unfold ReviewViewSet_retrieve. unfold_monad.
  destruct (initial _ GET request s) as [[user|e] s'] eqn:Hinit.
  2:{ destruct (initial_store s request
                  IsAuthorOrStaffOrAuthenticatedCreateOrReadOnly GET)
        as [r Hr].
      exists (Raise e). split; [congruence|].
      intros _ [user Huser]. congruence. }
  apply initial_Ok in Hinit as (-> & _ & Huser).
  destruct (ReviewViewSet_get_object_cases GET user title_id pk s)
    as [(r & -> & Hr & Ht & Hsome)|(e & -> & He)].
  - eexists. split; [reflexivity|]. intros Hnone.
    rewrite Hnone in Hsome. by destruct Hsome.
  - eexists. split; [reflexivity|]. intros Hnone _. by rewrite He.
Qed.

End reviews.

(** ** One review for each title and author *)

Lemma unique_review_insert_new (s : Store) (k0 : nat) (r0 : Review.t) :
  unique_review s → reviews s !! k0 = None →
  (∀ k r, reviews s !! k = Some r → Review.title r = Review.title r0 →
     Review.author r ≠ Review.author r0) →
  unique_review (with_reviews (<[k0 := r0]> (reviews s)) s).
Proof.
  intros Huniq Hfresh Hnew k1 k2 r1 r2. cbn [reviews with_reviews].
  destruct (decide (k1 = k0)) as [->|Hk1], (decide (k2 = k0)) as [->|Hk2];
    rewrite ?lookup_insert_eq, ?lookup_insert_ne by done; try done.
  - intros [= <-] H2 Ht Ha. exfalso. by eapply Hnew.
  - intros H1 [= <-] Ht Ha. exfalso. by eapply Hnew.
  - by apply Huniq.
Qed.

Lemma unique_review_replace (s : Store) (pk : nat) (r r' : Review.t) :
  unique_review s → reviews s !! pk = Some r →
  Review.title r' = Review.title r → Review.author r' = Review.author r →
  unique_review (with_reviews (<[pk := r']> (reviews s)) s).
Proof.
  intros Huniq Hr Ht Ha k1 k2 r1 r2. cbn [reviews with_reviews].
  destruct (decide (k1 = pk)) as [->|Hk1], (decide (k2 = pk)) as [->|Hk2];
    rewrite ?lookup_insert_eq, ?lookup_insert_ne by done; try done.
  - intros [= <-] H2 Ht2 Ha2. eapply Huniq; eauto; congruence.
  - intros H1 [= <-] Ht1 Ha1. eapply Huniq; eauto; congruence.
  - by apply Huniq.
Qed.

(** A store whose reviews are among those of a store that holds the
    constraint holds it too. *)
Lemma unique_review_subseteq (s s' : Store) :
  unique_review s → reviews s' ⊆ reviews s → unique_review s'.
Proof.
  intros Huniq Hsub k1 k2 r1 r2 H1 H2.
  apply (Huniq k1 k2 r1 r2); by eapply lookup_weaken.
Qed.

Section unique_review.
Context `{Collaborators}.

(** C2. The constraint on the pair of title and author holds at any time:
    a store that holds it still holds it after any action of the review
    handlers, whatever the request, and after the deletion of a title or of
    a user. And a create by a caller who has a review of the title already
    is refused with a validation error, answered 400, and the store is as
    it was. *)
Theorem ReviewViewSet_unique_review (s : Store) :
  unique_review s →
  (∀ action title_id pk request,
     unique_review (ReviewViewSet action title_id pk request s).2)
  ∧ (∀ pk, unique_review (Title_delete pk s) ∧ unique_review (User_delete pk s))
  ∧ (∀ title_id pk (request : Request.t Body) uid u k r,
       Request.user request = Some uid → users s !! uid = Some u →
       reviews s !! k = Some r →
       Review.title r = title_id → Review.author r = uid →
       ∃ d, ReviewViewSet Action.create title_id pk request s
            = (Raise (ValidationError d), s)
            ∧ status_of_exception (ValidationError d) = 400%nat).
Proof.
  intros Huniq. split; [|split].
  - intros [] title_id pk request; cbn [ReviewViewSet].
    + by destruct (ReviewViewSet_list_cases title_id request s) as (r & -> & _).
    + destruct (ReviewViewSet_create_cases title_id request s)
        as [[e ->]|(uid & u & text & score & body & _ & _ & _ & Hnone & ->)];
        [done|].
      apply unique_review_insert_new; [done|apply next_id_fresh|].
      intros k r Hk Ht. by apply (Hnone k r).
    + by destruct (ReviewViewSet_retrieve_cases title_id pk request s)
        as (r & -> & _).
    + destruct (ReviewViewSet_update_cases false title_id pk request s)
        as [(e & -> & _)|(r & r' & body & Hr & Ht & Ha & ->)]; [done|].
      by eapply unique_review_replace.
    + destruct (ReviewViewSet_update_cases true title_id pk request s)
        as [(e & -> & _)|(r & r' & body & Hr & Ht & Ha & ->)]; [done|].
      by eapply unique_review_replace.
    + destruct (ReviewViewSet_destroy_cases title_id pk request s)
        as [(e & -> & _)|(body & _ & ->)]; [done|].
      apply (unique_review_subseteq s); [done|]. apply delete_subseteq.
  - intros pk. split; apply (unique_review_subseteq s); try done.
    + unfold Title_delete, Review_title_on_delete. cbn.
      apply map_filter_subseteq.
    + unfold User_delete, Review_author_on_delete. cbn.
      apply map_filter_subseteq.
  - intros title_id pk request uid u k r Huser Hu Hr Ht Ha.
    cbn [ReviewViewSet]. unfold ReviewViewSet_create, initial, authenticate.
    unfold_monad. rewrite Huser, Hu. cbn.
    destruct (ReviewSerializer_to_internal_value_cases (Request.data request))
      as [[vd ->]|[d ->]]; [|eauto].
    unfold ReviewSerializer_validate. unfold_monad.
    destruct (objects_filter _ (reviews s)) as [|x l] eqn:Hf; [|eauto].
    pose proof (proj1 (objects_filter_nil _ _) Hf k r Hr) as Hfalse.
    cbn in Hfalse. rewrite !bool_decide_eq_true_2 in Hfalse; done.
Qed.

End unique_review.

Lemma example_store_unique_review : unique_review example_store.
Proof.
  intros k1 k2 r1 r2 H1 H2 Ht Ha. cbn in H1, H2.
  destruct (decide (k1 = 1%nat)) as [->|]; [|
  destruct (decide (k1 = 2%nat)) as [->|]];
  (destruct (decide (k2 = 1%nat)) as [->|]; [|
   destruct (decide (k2 = 2%nat)) as [->|]]);
  simplify_map_eq; done.
Qed.

(** C2 at the example store: alice, who has reviewed the title, sends a
    second review. *)
Lemma ReviewViewSet_unique_review_witness :
  unique_review example_store
  ∧ ∃ d,
      ReviewViewSet (H := example_collaborators) Action.create 1 0
        (Request.mk (Some 1%nat) {[ "text" := JStr "again"; "score" := JInt 9 ]})
        example_store
      = (Raise (ValidationError d), example_store)
      ∧ status_of_exception (ValidationError d) = 400%nat.
Proof.
  split; [exact example_store_unique_review|].
  destruct (ReviewViewSet_unique_review (H := example_collaborators)
              example_store example_store_unique_review) as (_ & _ & Hsecond).
  apply (Hsecond 1%nat 0%nat
           (Request.mk (Some 1%nat)
              {[ "text" := JStr "again"; "score" := JInt 9 ]})
           1%nat (User.mk "alice" "alice@example.org" "" "" "" "user")
           1%nat (Review.mk 1 "fine" 1 7 0)); reflexivity.
Defined.

(** ** Parents first, and the author of a new row *)

Section parents.
Context `{Collaborators}.

Lemma CommentViewSet_get_review_cases (title_id review_id : nat) (s : Store) :
  (∃ r, CommentViewSet_get_review title_id review_id s
        = (Ok (review_id, r), s)
        ∧ comment_parents s title_id review_id)
  ∨ (CommentViewSet_get_review title_id review_id s = (Raise Http404, s)
     ∧ ¬ comment_parents s title_id review_id).
Proof.
  unfold CommentViewSet_get_review, get_object_or_404, comment_parents.
  unfold_monad.
  destruct (titles s !! title_id) as [t|] eqn:Ht.
  - destruct (filter _ (reviews s) !! review_id) as [r|] eqn:Hr.
    + apply map_lookup_filter_Some in Hr as [Hr Hrt]. left. eauto 6.
    + right. split; [done|]. intros [_ (r & Hr' & Hrt)].
      assert (filter (λ kv : nat * Review.t, Review.title kv.2 = title_id)
                (reviews s) !! review_id = Some r) as Hin
        by (by apply map_lookup_filter_Some).
      congruence.
  - right. split; [done|]. by intros [[t Ht'] _].
Qed.

(** Every action of the comment handlers but [create] resolves the parents
    right after the permission check. *)
Lemma CommentViewSet_get_object_missing (method : Method)
    (user : option (nat * User.t)) (title_id review_id pk : nat) (s : Store) :
  ¬ comment_parents s title_id review_id →
  CommentViewSet_get_object method user title_id review_id pk s
  = (Raise Http404, s).
Proof.
  intros Hmissing.
  unfold CommentViewSet_get_object, CommentViewSet_get_queryset. unfold_monad.
  by destruct (CommentViewSet_get_review_cases title_id review_id s)
    as [(r & _ & Hp)|[-> _]].
Qed.

Lemma CommentViewSet_missing_parent (action : Action.t)
    (title_id review_id pk : nat) (request : Request.t Body) (s : Store) user :
  initial IsAuthorOrStaffOrAuthenticatedCreateOrReadOnly
    (Action_method action) request s = (Ok user, s) →
  ¬ comment_parents s title_id review_id →
  action ≠ Action.create
  ∨ (∃ vd, CommentSerializer_to_internal_value (Request.data request) = Ok vd) →
  CommentViewSet action title_id review_id pk request s = (Raise Http404, s).
Proof.
  intros Hinit Hmissing Hbody.
  destruct action; cbn [CommentViewSet Action_method] in *.
  - unfold CommentViewSet_list, CommentViewSet_get_queryset. unfold_monad.
    rewrite Hinit.
    by destruct (CommentViewSet_get_review_cases title_id review_id s)
      as [(r & _ & Hp)|[-> _]].
  - destruct Hbody as [|[vd Hvd]]; [done|].
    unfold CommentViewSet_create, CommentViewSet_perform_create.
    unfold_monad. rewrite Hinit, Hvd.
    apply initial_Ok in Hinit as (_ & Hperm & _).
    destruct user as [[uid u]|]; [|done].
    by destruct (CommentViewSet_get_review_cases title_id review_id s)
      as [(r & _ & Hp)|[-> _]].
  - unfold CommentViewSet_retrieve. unfold_monad. rewrite Hinit.
    by rewrite CommentViewSet_get_object_missing.
  - unfold CommentViewSet_update. unfold_monad. rewrite Hinit.
    by rewrite CommentViewSet_get_object_missing.
  - unfold CommentViewSet_update. unfold_monad. rewrite Hinit.
    by rewrite CommentViewSet_get_object_missing.
  - unfold CommentViewSet_destroy. unfold_monad. rewrite Hinit.
    by rewrite CommentViewSet_get_object_missing.
Qed.

Lemma ReviewViewSet_missing_title (action : Action.t) (title_id pk : nat)
    (request : Request.t Body) (s : Store) user :
  reviews_have_titles s →
  initial IsAuthorOrStaffOrAuthenticatedCreateOrReadOnly
    (Action_method action) request s = (Ok user, s) →
  titles s !! title_id = None →
  action ≠ Action.create
  ∨ (∃ vd, ReviewSerializer_to_internal_value (Request.data request) = Ok vd) →
  ReviewViewSet action title_id pk request s = (Raise Http404, s).
Proof.
  intros Hfk Hinit Hmissing Hbody.
  destruct action; cbn [ReviewViewSet Action_method] in *.
  - destruct (ReviewViewSet_list_cases title_id request s) as (r & -> & Hr).
    rewrite Hr; eauto.
  - destruct Hbody as [|[vd Hvd]]; [done|].
    unfold ReviewViewSet_create. unfold_monad. rewrite Hinit, Hvd.
    apply initial_Ok in Hinit as (_ & Hperm & _).
    destruct user as [[uid u]|]; [|done].
    cbn [ReviewSerializer_run_validate]. unfold ReviewSerializer_validate.
    unfold_monad.
    rewrite (proj2 (objects_filter_nil _ (reviews s))).
    + unfold ReviewViewSet_perform_create, get_object_or_404. unfold_monad.
      by rewrite Hmissing.
    + intros k r Hk. apply andb_false_iff. right.
      apply bool_decide_eq_false. intros Ht.
      destruct (Hfk k r Hk) as [t Htitle]. congruence.
  - destruct (ReviewViewSet_retrieve_cases title_id pk request s)
      as (r & -> & Hr).
    rewrite Hr; eauto.
  - destruct (ReviewViewSet_update_cases false title_id pk request s)
      as [(e & -> & He)|(r & r' & body & Hr & _ & _ & _)].
    + rewrite He; eauto.
    + unfold ReviewViewSet_update in *. revert Hinit. unfold_monad.
      intros Hinit.
      destruct (ReviewViewSet_get_object_cases PUT user title_id pk s)
        as [(r0 & _ & _ & _ & Hsome)|(e & He & Hnone)].
      * rewrite Hmissing in Hsome. by destruct Hsome.
      * rewrite Hinit, He. by rewrite Hnone.
  - destruct (ReviewViewSet_update_cases true title_id pk request s)
      as [(e & -> & He)|(r & r' & body & Hr & _ & _ & _)].
    + rewrite He; eauto.
    + unfold ReviewViewSet_update in *. revert Hinit. unfold_monad.
      intros Hinit.
      destruct (ReviewViewSet_get_object_cases PATCH user title_id pk s)
        as [(r0 & _ & _ & _ & Hsome)|(e & He & Hnone)].
      * rewrite Hmissing in Hsome. by destruct Hsome.
      * rewrite Hinit, He. by rewrite Hnone.
  - destruct (ReviewViewSet_destroy_cases title_id pk request s)
      as [(e & -> & He)|(body & Hsome & _)].
    + rewrite He; eauto.
    + rewrite Hmissing in Hsome. by destruct Hsome.
Qed.

(** A comment that [create] stores has the caller as its author and the
    review of the path as its review. *)
Lemma CommentViewSet_create_Ok (title_id review_id : nat)
    (request : Request.t Body) (s s' : Store) (response : Response.t) :
  CommentViewSet_create title_id review_id request s = (Ok response, s') →
  ∃ uid c, Request.user request = Some uid
           ∧ s' = with_comments (<[next_id (comments s) := c]> (comments s)) s
           ∧ Comments.author c = uid ∧ Comments.review c = review_id.
Proof.
  unfold CommentViewSet_create, CommentViewSet_perform_create,
    Comments_objects_create.
  unfold_monad.
  destruct (initial _ POST request s) as [[user|e] s0] eqn:Hinit; [|done].
  apply initial_Ok in Hinit as (-> & _ & Huser).
  destruct (CommentSerializer_to_internal_value _) as [text|e]; [|done].
  destruct user as [[uid u]|]; [|done].
  destruct (CommentViewSet_get_review_cases title_id review_id s)
    as [(r & -> & _)|[-> _]]; [|done].
  intros [= <- <-]. exists uid. eexists.
  split; [by destruct Huser|]. split; [reflexivity|]. done.
Qed.

(** C7, as the code has it. Once authentication and the permission check
    have passed: every review or comment action other than [create]
    resolves the parents of the path first and raises [Http404], leaving
    the store alone, when one does not resolve, whatever the body holds.
    [create] validates the body first: a body that fails the validation of
    the serializer ends the request in that validation error and leaves
    the store alone, whether the parents resolve or not; for a body that
    passes validation [create] then raises [Http404] when a parent does
    not resolve. Every create that succeeds adds one row whose author is
    the caller and whose parent is that of the path, whatever the body
    holds. *)
Theorem parents_then_author (s : Store) (request : Request.t Body)
    (action : Action.t) (title_id review_id pk : nat)
    (user : option (nat * User.t)) :
  reviews_have_titles s →
  initial IsAuthorOrStaffOrAuthenticatedCreateOrReadOnly
    (Action_method action) request s = (Ok user, s) →
  (titles s !! title_id = None →
   action ≠ Action.create
   ∨ (∃ vd, ReviewSerializer_to_internal_value (Request.data request) = Ok vd) →
   ReviewViewSet action title_id pk request s = (Raise Http404, s))
  ∧ (¬ comment_parents s title_id review_id →
     action ≠ Action.create
     ∨ (∃ vd, CommentSerializer_to_internal_value (Request.data request)
              = Ok vd) →
     CommentViewSet action title_id review_id pk request s
     = (Raise Http404, s))
  ∧ (action = Action.create →
     ∀ e, ReviewSerializer_to_internal_value (Request.data request)
          = Raise e →
          ReviewViewSet action title_id pk request s = (Raise e, s))
  ∧ (action = Action.create →
     ∀ e, CommentSerializer_to_internal_value (Request.data request)
          = Raise e →
          CommentViewSet action title_id review_id pk request s
          = (Raise e, s))
  ∧ (∀ response s',
       ReviewViewSet Action.create title_id pk request s = (Ok response, s') →
       ∃ uid r,
         Request.user request = Some uid
         ∧ s' = with_reviews (<[next_id (reviews s) := r]> (reviews s)) s
         ∧ Review.author r = uid ∧ Review.title r = title_id)
  ∧ (∀ response s',
       CommentViewSet Action.create title_id review_id pk request s
       = (Ok response, s') →
       ∃ uid c,
         Request.user request = Some uid
         ∧ s' = with_comments (<[next_id (comments s) := c]> (comments s)) s
         ∧ Comments.author c = uid ∧ Comments.review c = review_id).
Proof.
  intros Hfk Hinit. repeat apply conj.
  - intros Hmissing Hbody. by eapply ReviewViewSet_missing_title.
  - intros Hmissing Hbody. by eapply CommentViewSet_missing_parent.
  - intros -> e Hbody. cbn [ReviewViewSet Action_method] in *.
    unfold ReviewViewSet_create. unfold_monad. by rewrite Hinit, Hbody.
  - intros -> e Hbody. cbn [CommentViewSet Action_method] in *.
    unfold CommentViewSet_create. unfold_monad. by rewrite Hinit, Hbody.
  - intros response s' Hcreate. cbn [ReviewViewSet] in Hcreate.
    destruct (ReviewViewSet_create_cases title_id request s)
      as [[e He]|(uid & u & text & score & body & Hu & _ & _ & _ & He)];
      [congruence|].
    rewrite He in Hcreate. injection Hcreate as _ <-.
    exists uid. eexists. split; [done|]. split; [reflexivity|]. done.
  - intros response s' Hcreate. by eapply CommentViewSet_create_Ok.
Qed.

End parents.

Lemma example_store_reviews_have_titles : reviews_have_titles example_store.
Proof.
  intros k r Hk. cbn in Hk.
  destruct (decide (k = 1%nat)) as [->|]; [|
  destruct (decide (k = 2%nat)) as [->|]]; simplify_map_eq; by eexists.
Qed.

(** C7 at the example store: the admin reviews the title and names bob as
    the author in the body; the stored author is the admin. *)
Lemma parents_then_author_witness :
  ∃ response s' r,
    ReviewViewSet (H := example_collaborators) Action.create 1 0
      (Request.mk (Some 3%nat)
         {[ "text" := JStr "slow"; "score" := JInt 5; "author" := JStr "bob" ]})
      example_store
    = (Ok response, s')
    ∧ s' = with_reviews
             (<[next_id (reviews example_store) := r]> (reviews example_store))
             example_store
    ∧ Review.author r = 3%nat.
Proof.
  destruct (parents_then_author (H := example_collaborators) example_store
              (Request.mk (Some 3%nat)
                 {[ "text" := JStr "slow"; "score" := JInt 5;
                    "author" := JStr "bob" ]})
              Action.create 1%nat 1%nat 0%nat
              (Some (3%nat, User.mk "root" "root@example.org" "" "" "" "admin"))
              example_store_reviews_have_titles eq_refl)
    as (_ & _ & _ & _ & Hauthor & _).
  destruct (Hauthor
              (Response.mk 201
                 (ReviewSerializer_data
                    (with_reviews
                       (<[3%nat := Review.mk 1 "slow" 3 5 0]>
                          (reviews example_store)) example_store)
                    3 (Review.mk 1 "slow" 3 5 0)))
              (with_reviews
                 (<[3%nat := Review.mk 1 "slow" 3 5 0]> (reviews example_store))
                 example_store))
    as (uid & r & Huid & Hs' & Ha & _); [vm_compute; reflexivity|].
  eexists _, _, r. split; [vm_compute; reflexivity|].
  split; [exact Hs'|]. rewrite Ha. by injection Huid.
Defined.

(** C7 as stated fails: alice sends a review with the score 11 for a title
    that does not exist, and a comment without a text for a title and a
    review that do not exist; the body is validated before the parents are
    looked up, and the answer is a validation error (400), not 404. *)
Lemma ReviewViewSet_create_validates_before_parents :
  titles example_store !! 9%nat = None
  ∧ ReviewViewSet (H := example_collaborators) Action.create 9 0
      (Request.mk (Some 1%nat) {[ "text" := JStr "fine"; "score" := JInt 11 ]})
      example_store
    = (Raise (ValidationError [("score", "invalid_choice")]), example_store)
  ∧ CommentViewSet (H := example_collaborators) Action.create 9 9 0
      (Request.mk (Some 1%nat) ∅) example_store
    = (Raise (ValidationError [("text", "required")]), example_store)
  ∧ status_of_exception (ValidationError [("score", "invalid_choice")])
    ≠ status_of_exception Http404
  ∧ status_of_exception (ValidationError [("text", "required")])
    ≠ status_of_exception Http404.
Proof.
  split; [|split; [|split]]; [vm_compute; reflexivity..|]. cbn. lia.
Qed.

(** ** The caller's own profile *)

Section me.
Context `{Collaborators}.

Lemma User_save_cases (s : Store) (pk : nat) (u : User.t) :
  (User_save_accepts s pk u
   ∧ User_save pk u s = (Ok (), with_users (<[pk := u]> (users s)) s))
  ∨ (¬ User_save_accepts s pk u
     ∧ User_save pk u s = (Raise IntegrityError, s)).
Proof.
  unfold User_save. unfold_monad.
  destruct (objects_filter _ (users s)) as [|[k u0] l] eqn:Hf.
  - left. split; [|done]. intros k u0 Hk Hne.
    pose proof (proj1 (objects_filter_nil _ _) Hf k u0 Hk) as Hfalse.
    cbn in Hfalse. rewrite bool_decide_eq_false_2 in Hfalse by done.
    cbn in Hfalse. apply orb_false_iff in Hfalse as [Hu He].
    split; by apply String.eqb_neq.
  - right. split; [|done]. intros Hacc.
    assert ((k, u0) ∈ objects_filter
              (λ k u', negb (bool_decide (k = pk))
                       && (String.eqb (User.username u') (User.username u)
                           || String.eqb (User.email u') (User.email u)))
              (users s)) as Hin by (rewrite Hf; left).
    apply elem_of_objects_filter in Hin as [Hk HP].
    apply andb_true_iff in HP as [Hne HP].
    apply negb_true_iff, bool_decide_eq_false in Hne.
    destruct (Hacc k u0 Hk Hne) as [Hu He].
    apply orb_true_iff in HP as [HP|HP]; by apply String.eqb_eq in HP.
Qed.


(** X5. A body that fails validation: [is_valid()] is false and [save()]
    raises. *)
Lemma UserViewSet_me_invalid (s : Store) (request : Request.t Form)
    (method : Method) (uid : nat) (u : User.t) (d : ErrorDetail) :
  Request.user request = Some uid → users s !! uid = Some u →
  method = PATCH ∨ method = PUT →
  UserSerializer_run_validation (users s) u (uid, u) (Request.data request)
  = Raise (ValidationError d) →
  UserViewSet_me method request s = (Raise AssertionError, s).
Proof.
  intros Huser Hu Hmethod Hinvalid.
  unfold UserViewSet_me, initial, authenticate. unfold_monad.
  rewrite Huser, Hu. unfold IsAuthenticated.
  rewrite bool_decide_eq_true_2 by eauto.
  destruct Hmethod as [-> | ->]; cbn [fst snd]; by rewrite Hinvalid.
Qed.

Lemma collect_fields_Ok {A} (xs : list (option A)) :
  collect_fields (Ok <$> xs) = Ok (omap id xs).
Proof.
  induction xs as [|x xs IH]; [done|].
  cbn [fmap list_fmap collect_fields omap list_omap] in *. rewrite IH.
  by destruct x.
Qed.

Lemma User_getattr_setattr_eq (u : User.t) (name v : string) :
  name ∈ UserSerializer_fields →
  User_getattr (User_setattr u (name, v)) name = v.
Proof.
  unfold UserSerializer_fields. rewrite !elem_of_cons, elem_of_nil.
  intros [->|[->|[->|[->|[->|[->|[]]]]]]]; reflexivity.
Qed.

Lemma User_getattr_setattr_ne (u : User.t) (name name' v : string) :
  name ≠ name' →
  User_getattr (User_setattr u (name, v)) name' = User_getattr u name'.
Proof.
  intros Hne. unfold User_setattr, User_getattr.
  repeat (match goal with
          | |- context [String.eqb ?a ?b] =>
              destruct (String.eqb_spec a b); subst
          end; cbn [User.username User.email User.first_name User.last_name
                    User.bio User.role]);
    try done.
Qed.

Lemma User_getattr_foldl_notin (vd : list (string * string)) (u : User.t)
    (name : string) :
  name ∉ vd.*1 →
  User_getattr (foldl User_setattr u vd) name = User_getattr u name.
Proof.
  revert u. induction vd as [|[n v] vd IH]; intros u Hnotin; [done|].
  cbn in Hnotin. apply not_elem_of_cons in Hnotin as [Hne Hnotin].
  cbn [foldl]. rewrite IH by done. by apply User_getattr_setattr_ne.
Qed.

Lemma User_getattr_foldl_in (vd : list (string * string)) (u : User.t)
    (name v : string) :
  NoDup vd.*1 → (name, v) ∈ vd → name ∈ UserSerializer_fields →
  User_getattr (foldl User_setattr u vd) name = v.
Proof.
  revert u. induction vd as [|[n v'] vd IH]; intros u Hnd Hin Hfield.
  - by apply elem_of_nil in Hin.
  - cbn in Hnd. apply NoDup_cons in Hnd as [Hn Hnd]. cbn [foldl].
    apply elem_of_cons in Hin as [[= <- <-]|Hin].
    + rewrite User_getattr_foldl_notin by done.
      by apply User_getattr_setattr_eq.
    + by apply IH.
Qed.

(** A list of entries, each keyed by the name it was made for. *)
Lemma keyed_entries_elem_of {B} (entry : string → option (string * B))
    (l : list string) (n : string) :
  (∀ m kv, entry m = Some kv → kv.1 = m) →
  n ∈ (omap id (entry <$> l)).*1 → n ∈ l.
Proof.
  intros Hkey Hin. apply list_elem_of_fmap in Hin as ([n' v] & -> & Hin).
  apply list_elem_of_omap in Hin as (x & Hx & Hid). cbn in Hid. subst x.
  apply list_elem_of_fmap in Hx as (m & Hm & Hin).
  symmetry in Hm. apply Hkey in Hm. cbn in *. by subst.
Qed.

Lemma keyed_entries_NoDup {B} (entry : string → option (string * B))
    (l : list string) :
  (∀ m kv, entry m = Some kv → kv.1 = m) →
  NoDup l → NoDup (omap id (entry <$> l)).*1.
Proof.
  intros Hkey. induction 1 as [|n l Hn Hnd IH]; cbn; [constructor|].
  destruct (entry n) as [kv|] eqn:He; cbn; [|done].
  apply NoDup_cons. split; [|done].
  rewrite (Hkey _ _ He). intros Hin.
  by apply keyed_entries_elem_of in Hin.
Qed.








End me.



(** C8, the failing case: alice sends a blank username to her own profile.
    The body fails validation, [is_valid()] is called without
    [raise_exception], and [save()] raises [AssertionError]: the client
    sees a server error (500) where the claim has 400. *)
Theorem UserViewSet_me_invalid_body_is_a_server_error :
  let result :=
    UserViewSet_me (H := example_collaborators) PATCH
      (Request.mk (Some 1%nat) {[ "username" := "" ]}) example_store in
  UserSerializer_run_validation (H := example_collaborators)
    (users example_store)
    (User.mk "alice" "alice@example.org" "" "" "" "user")
    (1%nat, User.mk "alice" "alice@example.org" "" "" "" "user")
    {[ "username" := "" ]}
  = Raise (ValidationError [("username", "invalid")])
  ∧ result = (Raise AssertionError, example_store)
  ∧ status_of result.1 = 500%nat.
Proof. vm_compute. done. Qed.

(** ** Further properties of signup and of the validators *)

Lemma example_store_users (k : nat) (u : User.t) :
  users example_store !! k = Some u →
  (k = 1%nat ∧ u = User.mk "alice" "alice@example.org" "" "" "" "user")
  ∨ (k = 2%nat ∧ u = User.mk "bob" "bob@example.org" "" "" "" "user")
  ∨ (k = 3%nat ∧ u = User.mk "root" "root@example.org" "" "" "" "admin").
Proof.
  intros Hk. cbn in Hk.
  destruct (decide (k = 1%nat)) as [->|]; [|
  destruct (decide (k = 2%nat)) as [->|]; [|
  destruct (decide (k = 3%nat)) as [->|]]]; simplify_map_eq; eauto.
Qed.

(** X1 at the example store. Signup again with alice's own username and e-mail: 200, the users are
    as before and her code is sent once more. *)
Lemma SignUpViewSet_create_exact_match_witness :
  SignUpViewSet_create (H := example_collaborators)
    (Request.mk None
       {[ "username" := "alice"; "email" := "alice@example.org" ]})
    example_store
  = (Ok (Response.mk 200
           (JObj [("username", JStr "alice");
                  ("email", JStr "alice@example.org")])),
     with_outbox [("alice@example.org", "code-alice")] example_store).
Proof.
  apply (SignUpViewSet_create_exact_match (H := example_collaborators)
           example_store _ "alice" "alice@example.org" 1%nat
           (User.mk "alice" "alice@example.org" "" "" "" "user"));
    [vm_compute; reflexivity | reflexivity | reflexivity | reflexivity |].
  intros k' u' Hk' Hm.
  destruct (example_store_users k' u' Hk') as [[-> ->]|[[-> ->]|[-> ->]]];
    [done | discriminate Hm | discriminate Hm].
Defined.

(** X2 at the example store. Signup with alice's username and a new e-mail: refused, 400. *)
Lemma SignUpViewSet_create_partial_match_witness :
  ∃ detail,
    SignUpViewSet_create (H := example_collaborators)
      (Request.mk None
         {[ "username" := "alice"; "email" := "eve@example.org" ]})
      example_store
    = (Raise (ValidationError detail), example_store).
Proof.
  apply (SignUpViewSet_create_partial_match (H := example_collaborators)
           example_store _ "alice" "eve@example.org" 1%nat
           (User.mk "alice" "alice@example.org" "" "" "" "user"));
    [vm_compute; reflexivity | reflexivity | reflexivity | | by right].
  intros k' u' Hk' Hm.
  destruct (example_store_users k' u' Hk') as [[-> ->]|[[-> ->]|[-> ->]]];
    [done | discriminate Hm | discriminate Hm].
Defined.

(** X3 at the example store. Signup with a new username and a new e-mail: the user is added. *)
Lemma SignUpViewSet_create_new_witness :
  SignUpViewSet_create (H := example_collaborators)
    (Request.mk None {[ "username" := "eve"; "email" := "eve@example.org" ]})
    example_store
  = (Ok (Response.mk 200
           (JObj [("username", JStr "eve"); ("email", JStr "eve@example.org")])),
     with_outbox [("eve@example.org", "code-eve")]
       (with_users
          (<[4%nat := User.mk "eve" "eve@example.org" "" "" "" "user"]>
             (users example_store)) example_store)).
Proof.
  apply (SignUpViewSet_create_new (H := example_collaborators)
           example_store _ "eve" "eve@example.org");
    [vm_compute; reflexivity|].
  intros k u Hk.
  by destruct (example_store_users k u Hk) as [[-> ->]|[[-> ->]|[-> ->]]].
Defined.

(** X5 at the example store. Any body that fails the validation of [UserSerializer] ends [me] in a
    server error: here, a role that is none of the three. *)
Lemma UserViewSet_me_invalid_witness :
  UserViewSet_me (H := example_collaborators) PUT
    (Request.mk (Some 2%nat) {[ "role" := "king" ]}) example_store
  = (Raise AssertionError, example_store).
Proof.
  apply (UserViewSet_me_invalid (H := example_collaborators) example_store _
           PUT 2%nat (User.mk "bob" "bob@example.org" "" "" "" "user")
           [("role", "invalid")]);
    [reflexivity | reflexivity | by right | vm_compute; reflexivity].
Defined.

Section validators.
Context `{Collaborators}.

(** X6. The reserved username: signup as [me] is refused with a validation
    error on [username], whatever else the body holds, and nothing is
    stored or sent. *)
Lemma SignUpViewSet_create_reserved_username (s : Store)
    (request : Request.t Form) :
  Request.data request !! "username" = Some "me" →
  ∃ d, SignUpViewSet_create request s = (Raise (ValidationError d), s)
       ∧ "username" ∈ d.*1.
Proof.
  intros Hname.
  unfold SignUpViewSet_create, UserSignUpSerializer_run_validation,
    UserSignUpSerializer_to_internal_value.
  unfold_monad. rewrite Hname.
  destruct (EmailField_run_validation _ _); cbn;
    (eexists; split; [reflexivity|]); cbn; left.
Qed.

(** X7. A year that has not come yet: [validate_year] refuses it, and a create
    by an admin with such a year ends in a validation error on [year] and
    stores nothing. *)
Lemma TitleViewSet_create_future_year (s : Store) (request : Request.t Body)
    (uid : nat) (u : User.t) (year : Z) :
  Request.user request = Some uid → users s !! uid = Some u →
  is_admin u = true →
  Request.data request !! "year" = Some (JInt year) →
  year > current_year →
  ∃ d, TitleViewSet_create request s = (Raise (ValidationError d), s)
       ∧ "year" ∈ d.*1.
Proof.
  intros Huser Hu Hadmin Hyear Hfuture.
  unfold TitleViewSet_create. unfold_monad.
  rewrite (initial_admin s request _ uid u) by done.
  change (to_internal_value (TitleViewSet_get_serializer Action.create))
    with TitlePostSerializer_to_internal_value.
  unfold TitlePostSerializer_to_internal_value. rewrite Hyear.
  cbn [required_field]. unfold Title_year_field. cbn. unfold validate_year.
  rewrite bool_decide_eq_true_2 by done.
  destruct (required_field (Request.data request !! "name") _);
    destruct (required_field (Request.data request !! "description") _);
    destruct (required_field (Request.data request !! "genre") _);
    destruct (required_field (Request.data request !! "category") _);
    destruct (db_integer_range year);
    (eexists; split; [reflexivity|]);
    rewrite !fmap_app; cbn; set_solver.
Qed.

End validators.

(** X6 at the example store. *)
Lemma SignUpViewSet_create_reserved_username_witness :
  ∃ d, SignUpViewSet_create (H := example_collaborators)
         (Request.mk None {[ "username" := "me"; "email" := "me@example.org" ]})
         example_store
       = (Raise (ValidationError d), example_store)
       ∧ "username" ∈ d.*1.
Proof.
  apply (SignUpViewSet_create_reserved_username (H := example_collaborators)).
  reflexivity.
Defined.

(** X7 at the example store: the admin sends the year 2100. *)
Lemma TitleViewSet_create_future_year_witness :
  ∃ d, TitleViewSet_create (H := example_collaborators)
         (Request.mk (Some 3%nat) (<["year" := JInt 2100]> example_title_body))
         example_store
       = (Raise (ValidationError d), example_store)
       ∧ "year" ∈ d.*1.
Proof.
  apply (TitleViewSet_create_future_year (H := example_collaborators)
           example_store _ 3%nat
           (User.mk "root" "root@example.org" "" "" "" "admin") 2100);
    reflexivity.
Defined.

(** X4 at the example store. Signup with bob's username and alice's e-mail: two users match, and
    the request ends in [MultipleObjectsReturned]. *)
Lemma SignUpViewSet_create_two_matches_witness :
  SignUpViewSet_create (H := example_collaborators)
    (Request.mk None {[ "username" := "bob"; "email" := "alice@example.org" ]})
    example_store
  = (Raise MultipleObjectsReturned, example_store).
Proof.
  apply (SignUpViewSet_create_two_matches (H := example_collaborators)
           example_store _ "bob" "alice@example.org"
           2%nat (User.mk "bob" "bob@example.org" "" "" "" "user")
           1%nat (User.mk "alice" "alice@example.org" "" "" "" "user"));
    [vm_compute; reflexivity | reflexivity | reflexivity | lia
    | reflexivity | reflexivity].
Defined.

(** * Further properties *)

(** ** Deletion and the foreign keys *)

Lemma is_Some_on_delete_rows_SET_NULL `{Countable K} {A} (refers : A → bool)
    (set_null : A → A) (m : gmap K A) k :
  is_Some (on_delete_rows SET_NULL refers set_null m !! k) ↔ is_Some (m !! k).
Proof. rewrite lookup_on_delete_rows_SET_NULL. apply fmap_is_Some. Qed.

Lemma is_Some_Comments_collect (before after : gmap nat Review.t)
    (m : gmap nat Comments.t) k c :
  Comments_collect before after m !! k = Some c →
  is_Some (before !! Comments.review c) →
  is_Some (after !! Comments.review c).
Proof.
  intros [_ Hkeep]%lookup_Comments_collect Hbefore.
  destruct (after !! Comments.review c) eqn:Hafter; [done|].
  by destruct Hkeep.
Qed.

Lemma Category_delete_foreign_keys (s : Store) (slug : string) :
  foreign_keys_hold s → foreign_keys_hold (Category_delete slug s).
Proof.
  intros (Hcat & Hjoin & Hrev & Hcom).
  unfold Category_delete, Title_category_on_delete.
  repeat apply conj; cbn [titles categories genres genre_titles reviews
    comments users with_titles with_categories].
  - intros k t c. rewrite lookup_on_delete_rows_SET_NULL.
    destruct (titles s !! k) as [t0|] eqn:Ht0; [|done].
    cbn. intros [= <-]. case_bool_decide as Href; [done|].
    intros Hc. rewrite lookup_delete_ne by congruence. by eapply Hcat.
  - intros k g Hg. rewrite is_Some_on_delete_rows_SET_NULL. by eapply Hjoin.
  - intros k r Hr. rewrite is_Some_on_delete_rows_SET_NULL. by eapply Hrev.
  - done.
Qed.

Lemma Genre_delete_foreign_keys (s : Store) (slug : string) :
  foreign_keys_hold s → foreign_keys_hold (Genre_delete slug s).
Proof.
  intros (Hcat & Hjoin & Hrev & Hcom).
  unfold Genre_delete, GenreTitle_genre_on_delete.
  repeat apply conj; cbn [titles categories genres genre_titles reviews
    comments users with_genre_titles with_genres]; [done| |done|done].
  intros k g [Hg Href]%lookup_on_delete_rows_CASCADE.
  apply bool_decide_eq_false in Href.
  rewrite lookup_delete_ne by done. by eapply Hjoin.
Qed.

Lemma Title_delete_foreign_keys (s : Store) (pk : nat) :
  foreign_keys_hold s → foreign_keys_hold (Title_delete pk s).
Proof.
  intros (Hcat & Hjoin & Hrev & Hcom).
  unfold Title_delete, GenreTitle_title_on_delete, Review_title_on_delete.
  repeat apply conj; cbn [titles categories genres genre_titles reviews
    comments users with_genre_titles with_titles with_reviews
    with_comments].
  - intros k t c [_ Ht]%lookup_delete_Some. by eapply Hcat.
  - intros k g [Hg Href]%lookup_on_delete_rows_CASCADE.
    apply bool_decide_eq_false in Href.
    rewrite lookup_delete_ne by done. by eapply Hjoin.
  - intros k r [Hr Href]%lookup_on_delete_rows_CASCADE.
    apply bool_decide_eq_false in Href.
    rewrite lookup_delete_ne by done. by eapply Hrev.
  - intros k c Hc. split.
    + eapply is_Some_Comments_collect; [done|].
      apply lookup_Comments_collect in Hc as [Hc _]. by eapply Hcom.
    + apply lookup_Comments_collect in Hc as [Hc _]. by eapply Hcom.
Qed.

Lemma Review_delete_foreign_keys (s : Store) (pk : nat) :
  foreign_keys_hold s → foreign_keys_hold (Review_delete pk s).
Proof.
  intros (Hcat & Hjoin & Hrev & Hcom). unfold Review_delete.
  repeat apply conj; cbn [titles categories genres genre_titles reviews
    comments users with_reviews with_comments]; [done|done| |].
  - intros k r [_ Hr]%lookup_delete_Some. by eapply Hrev.
  - intros k c Hc. split.
    + eapply is_Some_Comments_collect; [done|].
      apply lookup_Comments_collect in Hc as [Hc _]. by eapply Hcom.
    + apply lookup_Comments_collect in Hc as [Hc _]. by eapply Hcom.
Qed.

Lemma Comments_delete_foreign_keys (s : Store) (pk : nat) :
  foreign_keys_hold s → foreign_keys_hold (Comments_delete pk s).
Proof.
  intros (Hcat & Hjoin & Hrev & Hcom). unfold Comments_delete.
  repeat apply conj; cbn [titles categories genres genre_titles reviews
    comments users with_comments]; [done|done|done|].
  intros k c [_ Hc]%lookup_delete_Some. by eapply Hcom.
Qed.

Lemma User_delete_foreign_keys (s : Store) (pk : nat) :
  foreign_keys_hold s → foreign_keys_hold (User_delete pk s).
Proof.
  intros (Hcat & Hjoin & Hrev & Hcom).
  unfold User_delete, Review_author_on_delete, Comments_author_on_delete.
  repeat apply conj; cbn [titles categories genres genre_titles reviews
    comments users with_users with_reviews with_comments]; [done|done| |].
  - intros k r [Hr Href]%lookup_on_delete_rows_CASCADE.
    apply bool_decide_eq_false in Href.
    rewrite lookup_delete_ne by done. by eapply Hrev.
  - intros k c Hc.
    pose proof Hc as [[Hc0 Href]%lookup_on_delete_rows_CASCADE _]
      %lookup_Comments_collect.
    apply bool_decide_eq_false in Href. split.
    + eapply is_Some_Comments_collect; [done|]. by eapply Hcom.
    + rewrite lookup_delete_ne by done. by eapply Hcom.
Qed.

(** X8. No deletion leaves a dangling reference: a store whose foreign keys
    all hold still holds them after the deletion of a category, a genre, a
    title, a review, a comment or a user. *)
Theorem delete_keeps_foreign_keys (s : Store) :
  foreign_keys_hold s →
  (∀ slug, foreign_keys_hold (Category_delete slug s))
  ∧ (∀ slug, foreign_keys_hold (Genre_delete slug s))
  ∧ (∀ pk, foreign_keys_hold (Title_delete pk s))
  ∧ (∀ pk, foreign_keys_hold (Review_delete pk s))
  ∧ (∀ pk, foreign_keys_hold (Comments_delete pk s))
  ∧ (∀ pk, foreign_keys_hold (User_delete pk s)).
Proof.
  intros Hfk. repeat apply conj; intros k.
  - by apply Category_delete_foreign_keys.
  - by apply Genre_delete_foreign_keys.
  - by apply Title_delete_foreign_keys.
  - by apply Review_delete_foreign_keys.
  - by apply Comments_delete_foreign_keys.
  - by apply User_delete_foreign_keys.
Qed.

Lemma example_store_foreign_keys : foreign_keys_hold example_store.
Proof.
  repeat apply conj.
  - intros k t c Hk Hc. cbn in Hk.
    destruct (decide (k = 1%nat)) as [->|]; simplify_map_eq. by eexists.
  - intros k g Hk. cbn in Hk.
    destruct (decide (k = 1%nat)) as [->|]; simplify_map_eq.
    split; by eexists.
  - intros k r Hk. cbn in Hk.
    destruct (decide (k = 1%nat)) as [->|]; [|
    destruct (decide (k = 2%nat)) as [->|]]; simplify_map_eq;
      split; by eexists.
  - intros k c Hk. cbn in Hk.
    destruct (decide (k = 1%nat)) as [->|]; simplify_map_eq.
    split; by eexists.
Qed.

(** X8 at the example store: after the deletion of bob, whose comment is on
    alice's review, the foreign keys hold. *)
Lemma delete_keeps_foreign_keys_witness :
  foreign_keys_hold example_store
  ∧ foreign_keys_hold (User_delete 2 example_store).
Proof.
  split; [exact example_store_foreign_keys|].
  apply (delete_keeps_foreign_keys example_store example_store_foreign_keys).
Defined.

(** X9. Deleting a user deletes the user's row, among the reviews exactly
    those the user wrote, and among the comments exactly those the user
    wrote and those on a review the user wrote; titles, categories, genres
    and join rows are as before. *)
Theorem User_delete_effects (s : Store) (pk : nat) :
  users (User_delete pk s) = delete pk (users s)
  ∧ (∀ k r, reviews (User_delete pk s) !! k = Some r
            ↔ reviews s !! k = Some r ∧ Review.author r ≠ pk)
  ∧ (∀ k c, comments (User_delete pk s) !! k = Some c
            ↔ comments s !! k = Some c ∧ Comments.author c ≠ pk
              ∧ ¬ ∃ r, reviews s !! Comments.review c = Some r
                       ∧ Review.author r = pk)
  ∧ titles (User_delete pk s) = titles s
  ∧ categories (User_delete pk s) = categories s
  ∧ genres (User_delete pk s) = genres s
  ∧ genre_titles (User_delete pk s) = genre_titles s.
Proof.
  unfold User_delete, Review_author_on_delete, Comments_author_on_delete.
  cbn [users reviews comments titles categories genres genre_titles
       with_users with_reviews with_comments].
  repeat apply conj; try reflexivity.
  - intros k r. rewrite lookup_on_delete_rows_CASCADE, bool_decide_eq_false.
    tauto.
  - intros k c.
    rewrite lookup_Comments_collect, lookup_on_delete_rows_CASCADE,
      bool_decide_eq_false.
    split.
    + intros [[Hc Ha] Hkeep]. split; [done|]. split; [done|].
      intros (r & Hr & Hauthor). apply Hkeep. split; [eauto|].
      apply eq_None_not_Some. intros [r' Hr'].
      apply lookup_on_delete_rows_CASCADE in Hr' as [Hr' Hf].
      apply bool_decide_eq_false in Hf. congruence.
    + intros (Hc & Ha & Hkeep). split; [done|].
      intros [[r Hr] Hgone]. apply Hkeep. exists r. split; [done|].
      destruct (decide (Review.author r = pk)) as [|Hne]; [done|].
      assert (on_delete_rows CASCADE
                (λ r0, bool_decide (Review.author r0 = pk)) id (reviews s)
                !! Comments.review c = Some r) as Hin.
      { apply lookup_on_delete_rows_CASCADE. split; [done|].
        by apply bool_decide_eq_false. }
      congruence.
Qed.

Lemma elem_of_Title_genre_all (s : Store) (pk : nat) (g : string) :
  g ∈ Title_genre_all s pk
  ↔ ∃ k, genre_titles s !! k = Some (GenreTitle.mk g pk).
Proof.
  unfold Title_genre_all. rewrite list_elem_of_fmap. split.
  - intros ([k [g' pk']] & -> & [Hk Hpk]%elem_of_objects_filter).
    cbn in Hpk. apply bool_decide_eq_true in Hpk as ->. eauto.
  - intros [k Hk]. exists (k, GenreTitle.mk g pk). split; [done|].
    apply elem_of_objects_filter. split; [done|].
    by apply bool_decide_eq_true.
Qed.

(** X10. Deleting a genre deletes its row and, among the join rows, exactly
    those of the genre: every title stays as it was and keeps its other
    genres; categories, reviews, comments and users are as before. *)
Theorem Genre_delete_effects (s : Store) (slug : string) :
  genres (Genre_delete slug s) = delete slug (genres s)
  ∧ (∀ k g, genre_titles (Genre_delete slug s) !! k = Some g
            ↔ genre_titles s !! k = Some g ∧ GenreTitle.genre g ≠ slug)
  ∧ (∀ pk g, g ∈ Title_genre_all (Genre_delete slug s) pk
             ↔ g ∈ Title_genre_all s pk ∧ g ≠ slug)
  ∧ titles (Genre_delete slug s) = titles s
  ∧ categories (Genre_delete slug s) = categories s
  ∧ reviews (Genre_delete slug s) = reviews s
  ∧ comments (Genre_delete slug s) = comments s
  ∧ users (Genre_delete slug s) = users s.
Proof.
  assert (∀ k g, genre_titles (Genre_delete slug s) !! k = Some g
                 ↔ genre_titles s !! k = Some g ∧ GenreTitle.genre g ≠ slug)
    as Hrows.
  { intros k g. unfold Genre_delete, GenreTitle_genre_on_delete.
    cbn [genre_titles with_genres with_genre_titles].
    rewrite lookup_on_delete_rows_CASCADE, bool_decide_eq_false. tauto. }
  repeat apply conj; try reflexivity; [done|].
  intros pk g. rewrite !elem_of_Title_genre_all. split.
  - intros [k [Hk Hne]%Hrows]. eauto.
  - intros [[k Hk] Hne]. exists k. by apply Hrows.
Qed.

(** ** Editing a review *)

Section review_rows.
Context `{Collaborators}.

Lemma ReviewSerializer_run_validate_store {A} (method : Method)
    (title_id : nat) (user : option (nat * User.t)) (data : A) (s : Store) :
  ∃ r, ReviewSerializer_run_validate method title_id user data s = (r, s).
Proof.
  unfold ReviewSerializer_run_validate, ReviewSerializer_validate.
  unfold_monad. destruct method, user as [[uid u]|];
    repeat case_match; eauto.
Qed.

(** What a successful [create] of a review stores and answers. *)
Lemma ReviewViewSet_create_Ok (title_id : nat) (request : Request.t Body)
    (s s' : Store) (response : Response.t) :
  ReviewViewSet_create title_id request s = (Ok response, s') →
  ∃ uid text score,
    Request.user request = Some uid
    ∧ is_Some (users s !! uid)
    ∧ is_Some (titles s !! title_id)
    ∧ ReviewSerializer_to_internal_value (Request.data request)
      = Ok (text, score)
    ∧ (∀ k r, reviews s !! k = Some r → Review.title r = title_id →
         Review.author r ≠ uid)
    ∧ let pk := next_id (reviews s) in
      let r := Review.mk title_id text uid score now in
      s' = with_reviews (<[pk := r]> (reviews s)) s
      ∧ response = Response.mk 201 (ReviewSerializer_data s' pk r).
Proof.
  unfold ReviewViewSet_create. unfold_monad.
  destruct (initial _ POST request s) as [[user|e] s0] eqn:Hinit; [|done].
  apply initial_Ok in Hinit as (-> & _ & Huser).
  destruct (ReviewSerializer_to_internal_value (Request.data request))
    as [[text score]|e]; [|done].
  destruct user as [[uid u]|]; [|done].
  cbn [ReviewSerializer_run_validate]. unfold ReviewSerializer_validate.
  unfold_monad.
  destruct (objects_filter _ (reviews s)) as [|x l] eqn:Hf; [|done].
  unfold ReviewViewSet_perform_create, Review_objects_create,
    get_object_or_404.
  unfold_monad.
  destruct (titles s !! title_id) as [t|] eqn:Ht; [|done].
  cbn [Review.title Review.author fst snd].
  assert (∀ k r, reviews s !! k = Some r → Review.title r = title_id →
            Review.author r ≠ uid) as Hnone.
  { intros k r Hk Htitle Hauthor.
    pose proof (proj1 (objects_filter_nil _ _) Hf k r Hk) as Hfalse.
    cbn in Hfalse. rewrite !bool_decide_eq_true_2 in Hfalse; done. }
  rewrite (proj2 (objects_filter_nil _ (reviews s))).
  2:{ intros k r Hk. apply andb_false_iff.
      destruct (decide (Review.title r = title_id)) as [Heq|Hne].
      - right. apply bool_decide_eq_false. by apply Hnone in Hk.
      - left. by apply bool_decide_eq_false. }
  intros [= <- <-]. destruct Huser as [Hu1 Hu2]. cbn in Hu1, Hu2.
  exists uid, text, score. eauto 10.
Qed.

(** What a successful [update] or [partial_update] of a review stores and
    answers: the validated text and score, when given, replace those of
    the row; nothing else of the row changes. *)
Lemma ReviewViewSet_update_Ok (partial : bool) (title_id pk : nat)
    (request : Request.t Body) (s s' : Store) (response : Response.t) :
  ReviewViewSet_update partial title_id pk request s = (Ok response, s') →
  ∃ r text score,
    reviews s !! pk = Some r ∧ Review.title r = title_id
    ∧ (if partial
       then ReviewSerializer_to_internal_value_partial (Request.data request)
       else (λ d, (Some d.1, Some d.2))
              <$> ReviewSerializer_to_internal_value (Request.data request))
      = Ok (text, score)
    ∧ (partial = false →
       ∃ uid, Request.user request = Some uid
              ∧ ∀ k r0, reviews s !! k = Some r0 →
                  Review.title r0 = title_id → Review.author r0 ≠ uid)
    ∧ let r' := Review.mk (Review.title r) (default (Review.text r) text)
                  (Review.author r) (default (Review.score r) score)
                  (Review.pub_date r) in
      s' = with_reviews (<[pk := r']> (reviews s)) s
      ∧ response = Response.mk 200 (ReviewSerializer_data s' pk r').
Proof.
  unfold ReviewViewSet_update. unfold_monad.
  destruct (initial _ (if partial then PATCH else PUT) request s)
    as [[user|e] s0] eqn:Hinit; [|done].
  apply initial_Ok in Hinit as (-> & _ & Huser).
  destruct (ReviewViewSet_get_object_cases (if partial then PATCH else PUT)
              user title_id pk s)
    as [(r & -> & Hr & Ht & Hsome)|(e & -> & He)]; [|done].
  destruct (if partial
            then ReviewSerializer_to_internal_value_partial
                   (Request.data request)
            else _) as [[text score]|e] eqn:Hvd; [|done].
  destruct (ReviewSerializer_run_validate _ title_id user (text, score) s)
    as [[vd'|e] s''] eqn:Hval; [|done].
  destruct (ReviewSerializer_run_validate_store
              (if partial then PATCH else PUT) title_id user (text, score) s)
    as [res Hres].
  rewrite Hres in Hval. injection Hval as -> <-.
  unfold ReviewSerializer_update. unfold_monad. cbn [fst snd].
  intros [= <- <-].
  assert (vd' = (text, score)
          ∧ (partial = false →
             ∃ uid, Request.user request = Some uid
                    ∧ ∀ k r0, reviews s !! k = Some r0 →
                        Review.title r0 = title_id → Review.author r0 ≠ uid))
    as [-> Hput].
  { revert Hres. unfold ReviewSerializer_run_validate,
      ReviewSerializer_validate. unfold_monad.
    destruct partial; [by intros [= <-]|].
    destruct user as [[uid u]|]; [|done].
    destruct (objects_filter _ (reviews s)) as [|x l] eqn:Hf; [|done].
    intros [= <-]. split; [done|]. intros _. exists uid.
    split; [by destruct Huser|].
    intros k r0 Hk Htitle Hauthor.
    pose proof (proj1 (objects_filter_nil _ _) Hf k r0 Hk) as Hfalse.
    cbn in Hfalse. rewrite !bool_decide_eq_true_2 in Hfalse; done. }
  exists r, text, score. eauto 10.
Qed.

End review_rows.

Section own_review.
Context `{Collaborators}.

Lemma initial_authenticated (s : Store) (request : Request.t Body)
    (method : Method) (uid : nat) (u : User.t) :
  Request.user request = Some uid → users s !! uid = Some u →
  initial IsAuthorOrStaffOrAuthenticatedCreateOrReadOnly method request s
  = (Ok (Some (uid, u)), s).
Proof.
  intros Huser Hu. unfold initial, authenticate. unfold_monad.
  rewrite Huser, Hu. unfold IsAuthorOrStaffOrAuthenticatedCreateOrReadOnly.
  rewrite (bool_decide_eq_true_2 (is_Some (Some (uid, u)))) by eauto.
  by rewrite orb_true_r.
Qed.

Lemma ReviewViewSet_get_object_author (s : Store) (method : Method)
    (title_id pk uid : nat) (u : User.t) (r : Review.t) :
  is_Some (titles s !! title_id) →
  reviews s !! pk = Some r → Review.title r = title_id →
  Review.author r = uid →
  ReviewViewSet_get_object method (Some (uid, u)) title_id pk s
  = (Ok (pk, r), s).
Proof.
  intros [t Ht] Hr Htitle Hauthor.
  unfold ReviewViewSet_get_object. unfold_monad.
  rewrite ReviewViewSet_get_queryset_cases, Ht.
  unfold get_object_or_404.
  rewrite (proj2 (map_lookup_filter_Some _ (reviews s) pk r)) by done.
  unfold IsAuthorOrStaffOrAuthenticatedCreateOrReadOnly_object.
  cbn [from_option fst snd].
  rewrite (bool_decide_eq_true_2 (uid = Review.author r)) by done.
  cbn. by rewrite orb_true_r.
Qed.

(** X11. The author of a review edits it with [PATCH] only. A [PATCH] by the
    author with a body that passes the field validation answers 200 and
    replaces the text and the score that the body gives, and nothing else
    of the row. A [PUT] by the author is refused with a validation error
    whatever the body: [validate] looks for a review of the title by the
    caller, and finds the one being updated. And no [PUT] succeeds for a
    caller who has a review of the title. *)
Theorem ReviewViewSet_update_own_review (s : Store) (title_id pk uid : nat)
    (request : Request.t Body) (u : User.t) (r : Review.t) :
  Request.user request = Some uid → users s !! uid = Some u →
  is_Some (titles s !! title_id) →
  reviews s !! pk = Some r → Review.title r = title_id →
  Review.author r = uid →
  (∀ text score,
     ReviewSerializer_to_internal_value_partial (Request.data request)
     = Ok (text, score) →
     let r' := Review.mk (Review.title r) (default (Review.text r) text)
                 (Review.author r) (default (Review.score r) score)
                 (Review.pub_date r) in
     let s' := with_reviews (<[pk := r']> (reviews s)) s in
     ReviewViewSet_update true title_id pk request s
     = (Ok (Response.mk 200 (ReviewSerializer_data s' pk r')), s'))
  ∧ (∃ d, ReviewViewSet_update false title_id pk request s
          = (Raise (ValidationError d), s))
  ∧ (∀ (request0 : Request.t Body) pk0 response s',
       Request.user request0 = Some uid →
       ReviewViewSet_update false title_id pk0 request0 s
       ≠ (Ok response, s')).
Proof.
  intros Huser Hu Htitle Hr Ht Ha. repeat apply conj.
  - intros text score Hvd r' s'.
    unfold ReviewViewSet_update. unfold_monad.
    rewrite (initial_authenticated s request PATCH uid u) by done.
    rewrite (ReviewViewSet_get_object_author s PATCH title_id pk uid u r)
      by done.
    rewrite Hvd. cbn [ReviewSerializer_run_validate].
    unfold ReviewSerializer_update. unfold_monad. done.
  - unfold ReviewViewSet_update. unfold_monad.
    rewrite (initial_authenticated s request PUT uid u) by done.
    rewrite (ReviewViewSet_get_object_author s PUT title_id pk uid u r)
      by done.
    destruct (ReviewSerializer_to_internal_value_cases (Request.data request))
      as [[vd ->]|[d ->]]; [|eauto].
    cbn [fmap Result_fmap ReviewSerializer_run_validate fst snd].
    unfold ReviewSerializer_validate. unfold_monad.
    destruct (objects_filter _ (reviews s)) as [|x l] eqn:Hf; [|eauto].
    pose proof (proj1 (objects_filter_nil _ _) Hf pk r Hr) as Hfalse.
    cbn in Hfalse. rewrite !bool_decide_eq_true_2 in Hfalse; done.
  - intros request0 pk0 response s' Huser0 Hput.
    apply ReviewViewSet_update_Ok in Hput
      as (r0 & text & score & _ & _ & _ & Hnone & _).
    destruct (Hnone eq_refl) as (uid' & Huid' & Hnone').
    assert (uid' = uid) as -> by congruence.
    by apply (Hnone' pk r).
Qed.

(** [get_object] on a key that is not that of a review of the title. *)
Lemma ReviewViewSet_get_object_404 (s : Store) (method : Method)
    (user : option (nat * User.t)) (title_id pk : nat) :
  (¬ ∃ r, reviews s !! pk = Some r ∧ Review.title r = title_id) →
  ReviewViewSet_get_object method user title_id pk s = (Raise Http404, s).
Proof.
  intros Hnone. unfold ReviewViewSet_get_object. unfold_monad.
  rewrite ReviewViewSet_get_queryset_cases.
  destruct (titles s !! title_id) as [t|]; [|done].
  unfold get_object_or_404.
  destruct (filter _ (reviews s) !! pk) as [r|] eqn:Hr; [|done].
  apply map_lookup_filter_Some in Hr as [Hr Ht]. destruct Hnone; eauto.
Qed.

(** [get_object] on a key that is not that of a comment on the review. *)
Lemma CommentViewSet_get_object_404 (s : Store) (method : Method)
    (user : option (nat * User.t)) (title_id review_id pk : nat) :
  (¬ ∃ c, comments s !! pk = Some c ∧ Comments.review c = review_id) →
  CommentViewSet_get_object method user title_id review_id pk s
  = (Raise Http404, s).
Proof.
  intros Hnone.
  unfold CommentViewSet_get_object, CommentViewSet_get_queryset.
  unfold_monad.
  destruct (CommentViewSet_get_review_cases title_id review_id s)
    as [(r & -> & _)|[-> _]]; [|done].
  unfold get_object_or_404. cbn [fst].
  destruct (filter _ (comments s) !! pk) as [c|] eqn:Hc; [|done].
  apply map_lookup_filter_Some in Hc as [Hc Hrev]. destruct Hnone; eauto.
Qed.

(** X12. A review is reached through its own title only, and a comment
    through its own review: once authentication and the permission check
    have passed, every detail action on a key that is not that of a review
    of the title of the path, or of a comment on the review of the path,
    raises [Http404] and leaves the store alone. *)
Theorem detail_of_another_parent (s : Store) (action : Action.t)
    (title_id review_id pk : nat) (request : Request.t Body)
    (user : option (nat * User.t)) :
  initial IsAuthorOrStaffOrAuthenticatedCreateOrReadOnly
    (Action_method action) request s = (Ok user, s) →
  action ∈ [Action.retrieve; Action.update; Action.partial_update;
            Action.destroy] →
  ((¬ ∃ r, reviews s !! pk = Some r ∧ Review.title r = title_id) →
   ReviewViewSet action title_id pk request s = (Raise Http404, s))
  ∧ ((¬ ∃ c, comments s !! pk = Some c ∧ Comments.review c = review_id) →
     CommentViewSet action title_id review_id pk request s
     = (Raise Http404, s)).
Proof.
  intros Hinit Haction.
  rewrite !elem_of_cons, elem_of_nil in Haction.
  split; intros Hnone.
  - destruct Haction as [->|[->|[->|[->|[]]]]];
      cbn [ReviewViewSet Action_method] in *.
    + unfold ReviewViewSet_retrieve. unfold_monad.
      by rewrite Hinit, ReviewViewSet_get_object_404.
    + unfold ReviewViewSet_update. unfold_monad.
      by rewrite Hinit, ReviewViewSet_get_object_404.
    + unfold ReviewViewSet_update. unfold_monad.
      by rewrite Hinit, ReviewViewSet_get_object_404.
    + unfold ReviewViewSet_destroy. unfold_monad.
      by rewrite Hinit, ReviewViewSet_get_object_404.
  - destruct Haction as [->|[->|[->|[->|[]]]]];
      cbn [CommentViewSet Action_method] in *.
    + unfold CommentViewSet_retrieve. unfold_monad.
      by rewrite Hinit, CommentViewSet_get_object_404.
    + unfold CommentViewSet_update. unfold_monad.
      by rewrite Hinit, CommentViewSet_get_object_404.
    + unfold CommentViewSet_update. unfold_monad.
      by rewrite Hinit, CommentViewSet_get_object_404.
    + unfold CommentViewSet_destroy. unfold_monad.
      by rewrite Hinit, CommentViewSet_get_object_404.
Qed.

End own_review.

(** X11 at the example store: alice sends a new score for her review of the
    title; [PATCH] stores it, [PUT] is refused. *)
Lemma ReviewViewSet_update_own_review_witness :
  reviews (ReviewViewSet_update (H := example_collaborators) true 1 1
             (Request.mk (Some 1%nat) {[ "score" := JInt 9 ]})
             example_store).2 !! 1%nat
  = Some (Review.mk 1 "fine" 1 9 0)
  ∧ ∃ d, ReviewViewSet_update (H := example_collaborators) false 1 1
           (Request.mk (Some 1%nat) {[ "score" := JInt 9 ]}) example_store
         = (Raise (ValidationError d), example_store).
Proof.
  destruct (ReviewViewSet_update_own_review (H := example_collaborators)
              example_store 1%nat 1%nat 1%nat
              (Request.mk (Some 1%nat) {[ "score" := JInt 9 ]})
              (User.mk "alice" "alice@example.org" "" "" "" "user")
              (Review.mk 1 "fine" 1 7 0))
    as (Hpatch & Hput & _); [reflexivity|reflexivity|by eexists|
                             reflexivity..|].
  split; [|exact Hput].
  rewrite (Hpatch None (Some 9) eq_refl). reflexivity.
Defined.

(** X12 at the example store: the comment on alice's review, asked for
    under bob's review. *)
Lemma detail_of_another_parent_witness :
  CommentViewSet (H := example_collaborators) Action.retrieve 1 2 1
    (Request.mk None ∅) example_store
  = (Raise Http404, example_store).
Proof.
  apply (detail_of_another_parent (H := example_collaborators) example_store
           Action.retrieve 1%nat 2%nat 1%nat (Request.mk None ∅) None).
  - reflexivity.
  - apply list_elem_of_here.
  - intros (c & Hc & Hreview). vm_compute in Hc. injection Hc as <-.
    discriminate Hreview.
Defined.

(** ** Scores and ratings *)

Lemma ChoiceField_to_internal_value_Ok (choices : list Z) (j : JSON) (z : Z) :
  ChoiceField_to_internal_value choices j = Ok z → z ∈ choices.
Proof.
  destruct j as [|v|i|l|l]; cbn; try done.
  - destruct (List.find _ choices) as [z'|] eqn:Hfind; [|done].
    intros [= <-]. apply find_some in Hfind as [Hin _].
    by apply list_elem_of_In.
  - destruct (List.find _ choices) as [z'|] eqn:Hfind; [|done].
    intros [= <-]. apply find_some in Hfind as [Hin _].
    by apply list_elem_of_In.
Qed.

Lemma SCORE_CHOICES_range (z : Z) : z ∈ SCORE_CHOICES ↔ 1 ≤ z ≤ 10.
Proof.
  unfold SCORE_CHOICES. rewrite !elem_of_cons, elem_of_nil. lia.
Qed.

Lemma Z_sum_bounds (l : list Z) (lo hi : Z) :
  Forall (λ z, lo ≤ z ≤ hi) l →
  lo * Z.of_nat (length l) ≤ Z_sum l ≤ hi * Z.of_nat (length l).
Proof.
  induction 1 as [|z l Hz Hl IH]; cbn [Z_sum foldr length]; [lia|].
  unfold Z_sum in IH. lia.
Qed.

Section scores.
Context `{Collaborators}.

(** X13. Every score the review handlers store is one of [SCORE_CHOICES]: a
    store whose scores all are still has only such scores after any action
    of the review handlers, whatever the request. *)
Theorem ReviewViewSet_scores_in_range (s : Store) (action : Action.t)
    (title_id pk : nat) (request : Request.t Body) :
  scores_in_range s →
  scores_in_range (ReviewViewSet action title_id pk request s).2.
Proof.
  intros Hrange.
  assert (∀ partial response s',
            ReviewViewSet_update partial title_id pk request s
            = (Ok response, s') → scores_in_range s') as Hupdate.
  { intros partial response s' Hupd.
    apply ReviewViewSet_update_Ok in Hupd
      as (r & text & score & Hr & _ & Hvd & _ & -> & _).
    intros k r'. cbn [reviews with_reviews].
    destruct (decide (k = pk)) as [->|Hne];
      rewrite ?lookup_insert_eq, ?lookup_insert_ne by done;
      [|by apply Hrange].
    intros [= <-]. cbn [Review.score].
    destruct score as [sc|]; [|by eapply Hrange]. cbn [default].
    destruct partial.
    - unfold ReviewSerializer_to_internal_value_partial in Hvd.
      destruct (optional_field (Request.data request !! "text") _);
        destruct (optional_field (Request.data request !! "score") _)
          as [sc'|] eqn:Hsc; try done.
      injection Hvd as _ ->.
      destruct (Request.data request !! "score") as [j|]; [|done].
      cbn in Hsc. unfold_monad.
      destruct (ChoiceField_to_internal_value SCORE_CHOICES j) as [z|] eqn:Hz;
        [|done].
      injection Hsc as <-. by eapply ChoiceField_to_internal_value_Ok.
    - unfold ReviewSerializer_to_internal_value in Hvd.
      destruct (required_field (Request.data request !! "text") _);
        destruct (required_field (Request.data request !! "score") _)
          as [sc'|] eqn:Hsc; try done.
      cbn in Hvd. injection Hvd as _ ->.
      apply required_field_Ok in Hsc as (j & _ & Hz).
      by eapply ChoiceField_to_internal_value_Ok. }
  destruct action; cbn [ReviewViewSet].
  - by destruct (ReviewViewSet_list_cases title_id request s) as (r & -> & _).
  - destruct (ReviewViewSet_create title_id request s) as [[response|e] s']
      eqn:Hcreate.
    + apply ReviewViewSet_create_Ok in Hcreate
        as (uid & text & score & _ & _ & _ & Hvd & _ & -> & _).
      intros k r'. cbn [snd reviews with_reviews].
      destruct (decide (k = next_id (reviews s))) as [->|Hne];
        rewrite ?lookup_insert_eq, ?lookup_insert_ne by done;
        [|by apply Hrange].
      intros [= <-]. cbn [Review.score].
      unfold ReviewSerializer_to_internal_value in Hvd.
      destruct (required_field (Request.data request !! "text") _);
        destruct (required_field (Request.data request !! "score") _)
          as [sc'|] eqn:Hsc; try done.
      injection Hvd as _ ->.
      apply required_field_Ok in Hsc as (j & _ & Hz).
      by eapply ChoiceField_to_internal_value_Ok.
    + destruct (ReviewViewSet_create_cases title_id request s)
        as [[e' He]|(? & ? & ? & ? & ? & _ & _ & _ & _ & He)];
        rewrite He in Hcreate; [|done].
      by injection Hcreate as _ <-.
  - by destruct (ReviewViewSet_retrieve_cases title_id pk request s)
      as (r & -> & _).
  - destruct (ReviewViewSet_update false title_id pk request s)
      as [[response|e] s'] eqn:Hupd; [by eapply Hupdate|].
    destruct (ReviewViewSet_update_cases false title_id pk request s)
      as [(e' & He & _)|(? & ? & ? & _ & _ & _ & He)];
      rewrite He in Hupd; [|done].
    by injection Hupd as _ <-.
  - destruct (ReviewViewSet_update true title_id pk request s)
      as [[response|e] s'] eqn:Hupd; [by eapply Hupdate|].
    destruct (ReviewViewSet_update_cases true title_id pk request s)
      as [(e' & He & _)|(? & ? & ? & _ & _ & _ & He)];
      rewrite He in Hupd; [|done].
    by injection Hupd as _ <-.
  - destruct (ReviewViewSet_destroy_cases title_id pk request s)
      as [(e & -> & _)|(body & _ & ->)]; [done|].
    intros k r. unfold Review_delete. cbn [snd reviews with_comments
      with_reviews].
    intros [_ Hr]%lookup_delete_Some. by eapply Hrange.
Qed.

(** X14. With scores among [SCORE_CHOICES], the rating of a title is null or
    an integer from 1 to 10: the retrieval of a title of the store answers
    200 with such a rating. *)
Theorem TitleViewSet_rating_range (s : Store) (request : Request.t Body)
    (pk : nat) (t : Title.t) :
  scores_in_range s →
  authenticates s request →
  titles s !! pk = Some t →
  ∃ body,
    TitleViewSet_retrieve pk request s = (Ok (Response.mk 200 body), s)
    ∧ (field_of "rating" body = Some JNull
       ∨ ∃ z, field_of "rating" body = Some (JInt z) ∧ 1 ≤ z ≤ 10).
Proof.
  intros Hrange Hauth Ht.
  destruct (initial_safe s request IsAdminOrReadOnly GET Hauth) as [user Hinit];
    [done|].
  unfold TitleViewSet_retrieve. unfold_monad.
  rewrite Hinit, (TitleViewSet_get_object_Some s pk t Ht).
  eexists. split; [reflexivity|].
  change (to_representation (TitleViewSet_get_serializer Action.retrieve))
    with TitleSerializer_data.
  cbn [fst snd]. rewrite TitleSerializer_data_rating.
  assert (Forall (λ z, 1 ≤ z ≤ 10) (Title_scores s pk)) as Hscores.
  { unfold Title_scores. rewrite Forall_fmap. apply Forall_forall.
    intros [k r] [Hk _]%elem_of_objects_filter. cbn.
    by apply SCORE_CHOICES_range, (Hrange k r). }
  destruct (Title_scores s pk) as [|z l] eqn:Hl; [by left|].
  right. eexists. split; [reflexivity|].
  apply Z_sum_bounds in Hscores.
  set (n := Z.of_nat (length (z :: l))) in *.
  assert (0 < n) by (unfold n; cbn [length]; lia).
  rewrite Z.quot_div_nonneg by lia.
  split.
  - apply Z.div_le_lower_bound; lia.
  - apply Z.div_le_upper_bound; lia.
Qed.

End scores.

(** ** Rows that were just written or deleted *)

Section round_trips.
Context `{Collaborators}.

Lemma initial_GET {D} (s : Store) (request : Request.t D) :
  authenticates s request →
  ∃ user, initial IsAuthorOrStaffOrAuthenticatedCreateOrReadOnly GET request s
          = (Ok user, s).
Proof. intros Hauth. by apply initial_safe. Qed.

(** What a successful [create] of a comment stores and answers. *)
Lemma CommentViewSet_create_row (title_id review_id : nat)
    (request : Request.t Body) (s s' : Store) (response : Response.t) :
  CommentViewSet_create title_id review_id request s = (Ok response, s') →
  ∃ uid text,
    Request.user request = Some uid
    ∧ is_Some (users s !! uid)
    ∧ comment_parents s title_id review_id
    ∧ CommentSerializer_to_internal_value (Request.data request) = Ok text
    ∧ let pk := next_id (comments s) in
      let c := Comments.mk review_id text uid now in
      s' = with_comments (<[pk := c]> (comments s)) s
      ∧ response = Response.mk 201 (CommentSerializer_data s' pk c).
Proof.
  unfold CommentViewSet_create, CommentViewSet_perform_create,
    Comments_objects_create.
  unfold_monad.
  destruct (initial _ POST request s) as [[user|e] s0] eqn:Hinit; [|done].
  apply initial_Ok in Hinit as (-> & _ & Huser).
  destruct (CommentSerializer_to_internal_value _) as [text|e]; [|done].
  destruct user as [[uid u]|]; [|done].
  destruct (CommentViewSet_get_review_cases title_id review_id s)
    as [(r & -> & Hparents)|[-> _]]; [|done].
  intros [= <- <-]. destruct Huser as [Hu1 Hu2]. cbn in Hu1, Hu2.
  exists uid, text. eauto 10.
Qed.

(** X15. A review or a comment that was just created is served back: after
    a [create] that succeeded, which answers 201, the retrieval of the new
    key under the same parents, by any caller, answers 200 with the body
    that [create] answered. *)
Theorem create_then_retrieve (s s' : Store) (title_id review_id : nat)
    (request request0 : Request.t Body) (response : Response.t) :
  authenticates s' request0 →
  (ReviewViewSet_create title_id request s = (Ok response, s') →
   Response.status response = 201%nat
   ∧ ReviewViewSet_retrieve title_id (next_id (reviews s)) request0 s'
     = (Ok (Response.mk 200 (Response.data response)), s'))
  ∧ (CommentViewSet_create title_id review_id request s = (Ok response, s') →
     Response.status response = 201%nat
     ∧ CommentViewSet_retrieve title_id review_id (next_id (comments s))
         request0 s'
       = (Ok (Response.mk 200 (Response.data response)), s')).
Proof.
  intros Hauth. destruct (initial_GET s' request0 Hauth) as [user Hinit].
  split; intros Hcreate.
  - apply ReviewViewSet_create_Ok in Hcreate
      as (uid & text & score & _ & _ & [t Ht] & _ & _ & Hs' & ->).
    split; [done|].
    unfold ReviewViewSet_retrieve, ReviewViewSet_get_object. unfold_monad.
    rewrite Hinit, ReviewViewSet_get_queryset_cases.
    rewrite Hs' at 1. cbn [titles with_reviews]. rewrite Ht.
    unfold get_object_or_404.
    erewrite (proj2 (map_lookup_filter_Some _ (reviews s') _ _)).
    2:{ rewrite Hs'. cbn [reviews with_reviews].
        rewrite lookup_insert_eq. done. }
    done.
  - apply CommentViewSet_create_row in Hcreate
      as (uid & text & _ & _ & [[t Ht] (r & Hr & Hrt)] & _ & Hs' & ->).
    split; [done|].
    unfold CommentViewSet_retrieve, CommentViewSet_get_object,
      CommentViewSet_get_queryset.
    unfold_monad. rewrite Hinit.
    destruct (CommentViewSet_get_review_cases title_id review_id s')
      as [(r' & -> & _)|[_ Hmissing]].
    2:{ destruct Hmissing. rewrite Hs'. split; [by eexists|eauto]. }
    unfold get_object_or_404. cbn [fst].
    erewrite (proj2 (map_lookup_filter_Some _ (comments s') _ _)).
    2:{ rewrite Hs'. cbn [comments with_comments].
        rewrite lookup_insert_eq. done. }
    done.
Qed.

(** X16. What was deleted is gone for every caller. After a [destroy] of a
    title that succeeded, the retrieval of the title and the listing of its
    reviews raise [Http404]; after that of a review, so do the retrieval of
    the review and the listing of its comments; after that of a comment,
    so does its retrieval. *)
Theorem destroy_then_404 (s s' : Store) (title_id review_id pk : nat)
    (request request0 : Request.t Body) (response : Response.t) :
  authenticates s' request0 →
  (TitleViewSet_destroy title_id request s = (Ok response, s') →
   TitleViewSet_retrieve title_id request0 s' = (Raise Http404, s')
   ∧ ReviewViewSet_list title_id request0 s' = (Raise Http404, s'))
  ∧ (ReviewViewSet_destroy title_id review_id request s = (Ok response, s') →
     ReviewViewSet_retrieve title_id review_id request0 s'
     = (Raise Http404, s')
     ∧ CommentViewSet_list title_id review_id request0 s'
       = (Raise Http404, s'))
  ∧ (CommentViewSet_destroy title_id review_id pk request s
     = (Ok response, s') →
     CommentViewSet_retrieve title_id review_id pk request0 s'
     = (Raise Http404, s')).
Proof.
  intros Hauth. destruct (initial_GET s' request0 Hauth) as [user Hinit].
  repeat apply conj.
  - unfold TitleViewSet_destroy. unfold_monad.
    destruct (initial _ DELETE request s) as [[user0|e] s0] eqn:Hinit0;
      [|done].
    apply initial_Ok in Hinit0 as (-> & _ & _).
    destruct (TitleViewSet_get_object title_id s) as [[obj|e] s0] eqn:Hobj;
      [|done].
    assert (s0 = s) as ->.
    { revert Hobj. unfold TitleViewSet_get_object. unfold_monad.
      destruct (get_object_or_404 _ _); congruence. }
    intros [= _ <-].
    assert (titles (Title_delete title_id s) !! title_id = None) as Hgone.
    { unfold Title_delete. cbn [titles with_titles with_genre_titles
        with_reviews with_comments]. apply lookup_delete_eq. }
    split.
    + unfold TitleViewSet_retrieve, TitleViewSet_get_object. unfold_monad.
      destruct (initial_safe (Title_delete title_id s) request0
                  IsAdminOrReadOnly GET Hauth) as [user1 ->]; [done|].
      unfold get_object_or_404.
      by rewrite TitleViewSet_queryset_lookup, Hgone.
    + unfold ReviewViewSet_list. unfold_monad.
      by rewrite Hinit, ReviewViewSet_get_queryset_cases, Hgone.
  - intros Hdestroy.
    destruct (ReviewViewSet_destroy_cases title_id review_id request s)
      as [(e & He & _)|(body & _ & He)]; rewrite He in Hdestroy; [done|].
    injection Hdestroy as _ <-.
    assert (reviews (Review_delete review_id s) !! review_id = None) as Hgone.
    { unfold Review_delete. cbn [reviews with_reviews with_comments].
      apply lookup_delete_eq. }
    split.
    + unfold ReviewViewSet_retrieve. unfold_monad.
      rewrite Hinit, ReviewViewSet_get_object_404; [done|].
      intros (r & Hr & _). congruence.
    + unfold CommentViewSet_list, CommentViewSet_get_queryset. unfold_monad.
      rewrite Hinit.
      destruct (CommentViewSet_get_review_cases title_id review_id
                  (Review_delete review_id s))
        as [(r & _ & _ & r' & Hr' & _)|[-> _]]; [congruence|done].
  - unfold CommentViewSet_destroy. unfold_monad.
    destruct (initial _ DELETE request s) as [[user0|e] s0] eqn:Hinit0;
      [|done].
    apply initial_Ok in Hinit0 as (-> & _ & _).
    destruct (CommentViewSet_get_object DELETE user0 title_id review_id pk s)
      as [[obj|e] s0] eqn:Hobj; [|done].
    assert (s0 = s) as ->.
    { revert Hobj. unfold CommentViewSet_get_object,
        CommentViewSet_get_queryset, permission_denied. unfold_monad.
      destruct (CommentViewSet_get_review_cases title_id review_id s)
        as [(r & -> & _)|[-> _]]; [|done].
      destruct (get_object_or_404 _ _); [|congruence].
      destruct (IsAuthorOrStaffOrAuthenticatedCreateOrReadOnly_object _ _ _);
        [congruence|]. by destruct user0. }
    intros [= _ <-].
    unfold CommentViewSet_retrieve. unfold_monad.
    rewrite Hinit, CommentViewSet_get_object_404; [done|].
    intros (c & Hc & _). unfold Comments_delete in Hc.
    cbn [comments with_comments] in Hc. by rewrite lookup_delete_eq in Hc.
Qed.

End round_trips.

(** ** Titles: the full update and the filters *)

Section title_extras.
Context `{Collaborators}.

Lemma TitleSerializer_to_internal_value_Ok (s : Store) (data : Body)
    (vd : TitlePut.t) :
  TitleSerializer_to_internal_value s data = Ok vd →
  optional_field (data !! "genre") (GenreSerializer_many_run_validation s)
  = Ok (TitlePut.genre vd)
  ∧ optional_field (data !! "category") (CategorySerializer_run_validation s)
    = Ok (TitlePut.category vd).
Proof.
  unfold TitleSerializer_to_internal_value.
  destruct (required_field (data !! "name") _);
    destruct (required_field (data !! "year") _);
    destruct (required_field (data !! "description") _);
    destruct (optional_field (data !! "genre") _);
    destruct (optional_field (data !! "category") _); try done.
  by intros [= <-].
Qed.

Lemma TitleSerializer_to_internal_value_cases (s : Store) (data : Body) :
  (∃ vd, TitleSerializer_to_internal_value s data = Ok vd)
  ∨ (∃ d, TitleSerializer_to_internal_value s data
          = Raise (ValidationError d)).
Proof.
  unfold TitleSerializer_to_internal_value.
  destruct (required_field (data !! "name") _);
    destruct (required_field (data !! "year") _);
    destruct (required_field (data !! "description") _);
    destruct (optional_field (data !! "genre") _);
    destruct (optional_field (data !! "category") _); eauto.
Qed.

Lemma optional_field_is_Some {A} (v : option JSON) (run : JSON → Result A)
    (a : option A) :
  is_Some v → optional_field v run = Ok a → is_Some a.
Proof.
  intros [j ->]. cbn. unfold_monad. destruct (run j); [|done].
  intros [= <-]. eauto.
Qed.

(** X17. No full update ([PUT]) of a title whose body has a [genre] or a
    [category] key succeeds. [TitleSerializer] reads both as nested
    objects: the body fails validation, or it passes and [update] meets
    the assertion against writes through nested serializers. For an admin
    and a title of the store the answer is a validation error (400) or an
    [AssertionError] (500), and the store is as before. *)
Theorem TitleViewSet_update_full_nested (s : Store) (pk : nat)
    (request : Request.t Body) :
  is_Some (Request.data request !! "genre")
  ∨ is_Some (Request.data request !! "category") →
  (∃ e, TitleViewSet_update false pk request s = (Raise e, s))
  ∧ (∀ uid u t,
       Request.user request = Some uid → users s !! uid = Some u →
       is_admin u = true → titles s !! pk = Some t →
       (∃ d, TitleViewSet_update false pk request s
             = (Raise (ValidationError d), s))
       ∨ TitleViewSet_update false pk request s = (Raise AssertionError, s)).
Proof.
  intros Hkey.
  assert (∀ vd, TitleSerializer_to_internal_value s (Request.data request)
                = Ok vd →
                ∀ instance, TitleSerializer_update instance
                              (TitlePut_as_patch vd) s
                            = (Raise AssertionError, s)) as Hassert.
  { intros vd [Hg Hc]%TitleSerializer_to_internal_value_Ok instance.
    unfold TitleSerializer_update, TitlePut_as_patch. unfold_monad.
    cbn [TitlePutPatch.genre TitlePutPatch.category].
    destruct Hkey as [Hkey|Hkey].
    - destruct (optional_field_is_Some _ _ _ Hkey Hg) as [g ->].
      by destruct (TitlePut.category vd).
    - destruct (optional_field_is_Some _ _ _ Hkey Hc) as [c ->].
      by destruct (TitlePut.genre vd). }
  split.
  - destruct (TitleViewSet_update_full_cases pk request s)
      as [[e He]|(t & t' & body & Ht & _ & He)]; [eauto|].
    exfalso. revert He. unfold TitleViewSet_update. unfold_monad.
    destruct (initial _ (Action_method Action.update) request s)
      as [[user|e] s0] eqn:Hinit; [|done].
    apply initial_Ok in Hinit as (-> & _ & _).
    rewrite (TitleViewSet_get_object_Some s pk t Ht).
    change (to_internal_value (TitleViewSet_get_serializer Action.update))
      with TitleSerializer_to_internal_value.
    change (update (TitleViewSet_get_serializer Action.update))
      with TitleSerializer_update.
    change (as_partial (TitleViewSet_get_serializer Action.update))
      with TitlePut_as_patch.
    destruct (TitleSerializer_to_internal_value s (Request.data request))
      as [vd|e] eqn:Hvd; [|done].
    cbn [fmap Result_fmap fst snd]. by rewrite (Hassert vd eq_refl).
  - intros uid u t Huser Hu Hadmin Ht.
    unfold TitleViewSet_update. unfold_monad.
    rewrite (initial_admin s request _ uid u),
      (TitleViewSet_get_object_Some s pk t) by done.
    change (to_internal_value (TitleViewSet_get_serializer Action.update))
      with TitleSerializer_to_internal_value.
    change (update (TitleViewSet_get_serializer Action.update))
      with TitleSerializer_update.
    change (as_partial (TitleViewSet_get_serializer Action.update))
      with TitlePut_as_patch.
    destruct (TitleSerializer_to_internal_value_cases s
                (Request.data request)) as [[vd Hvd]|[d ->]]; [|eauto].
    rewrite Hvd. cbn [fmap Result_fmap fst snd].
    right. by rewrite (Hassert vd Hvd).
Qed.

(** X18. The listing of titles under [TitleFilter]: the parameters that are
    given must all hold. A title is listed exactly when its category is
    the given slug, its year the given year, its name contains the given
    text and one of its genres is the given slug, for each parameter that
    is given; without parameters every title is listed. No title is listed
    twice, and the store is not changed. *)
Theorem TitleViewSet_list_filter (s : Store) (f : TitleFilter.t)
    (request : Request.t Body) :
  authenticates s request →
  ∃ items,
    TitleViewSet_list f request s = (Ok (Response.mk 200 (JList items)), s)
    ∧ NoDup (field_of "id" <$> items)
    ∧ ∀ pk,
        Some (JInt (Z.of_nat pk)) ∈ field_of "id" <$> items
        ↔ ∃ t, titles s !! pk = Some t
               ∧ (∀ c, TitleFilter.category f = Some c →
                    Title.category t = Some c)
               ∧ (∀ y, TitleFilter.year f = Some y → Title.year t = y)
               ∧ (∀ n, TitleFilter.name f = Some n →
                    icontains (Title.name t) n = true)
               ∧ (∀ g, TitleFilter.genre f = Some g →
                    ∃ k, genre_titles s !! k = Some (GenreTitle.mk g pk)).
Proof.
  intros Hauth.
  destruct (initial_safe s request IsAdminOrReadOnly GET Hauth) as [user Hinit];
    [done|].
  unfold TitleViewSet_list. unfold_monad. rewrite Hinit.
  eexists. split; [reflexivity|].
  change (to_representation (TitleViewSet_get_serializer Action.list))
    with TitleSerializer_data.
  rewrite <- list_fmap_compose.
  set (rows := objects_filter _ (TitleViewSet_queryset s)).
  assert (∀ l : list (nat * (Title.t * option Q)),
            (field_of "id"
               ∘ (λ kv, TitleSerializer_data s kv.1 kv.2.1 (Some kv.2.2)))
              <$> l
            = (λ kv, Some (JInt (Z.of_nat kv.1))) <$> l) as ->.
  { intros l. by apply list_fmap_ext. }
  split.
  - apply NoDup_fmap_2_strong; [|apply objects_filter_NoDup].
    intros [k1 [t1 r1]] [k2 [t2 r2]]
      [Hk1 _]%elem_of_objects_filter [Hk2 _]%elem_of_objects_filter Heq.
    cbn in Heq. assert (k1 = k2) as -> by (injection Heq; lia). congruence.
  - intros pk. rewrite list_elem_of_fmap. split.
    + intros ([k [t r]] & Heq & [Hk Hmatch]%elem_of_objects_filter).
      cbn in Heq. assert (k = pk) as -> by (injection Heq; lia).
      rewrite TitleViewSet_queryset_lookup in Hk.
      destruct (titles s !! pk) as [t'|]; [|done].
      injection Hk as -> _. exists t. split; [done|].
      cbn [fst] in Hmatch. unfold TitleFilter_matches in Hmatch.
      apply andb_true_iff in Hmatch as [Hmatch Hg].
      apply andb_true_iff in Hmatch as [Hmatch Hn].
      apply andb_true_iff in Hmatch as [Hc Hy].
      repeat apply conj.
      * intros c Hf. rewrite Hf in Hc. by apply bool_decide_eq_true in Hc.
      * intros y Hf. rewrite Hf in Hy. by apply bool_decide_eq_true in Hy.
      * intros n Hf. by rewrite Hf in Hn.
      * intros g Hf. rewrite Hf in Hg. apply bool_decide_eq_true in Hg.
        by apply elem_of_Title_genre_all.
    + intros (t & Ht & Hc & Hy & Hn & Hg).
      exists (pk, (t, Avg (Title_scores s pk))). split; [done|].
      apply elem_of_objects_filter. split.
      { by rewrite TitleViewSet_queryset_lookup, Ht. }
      cbn [fst]. unfold TitleFilter_matches.
      repeat (apply andb_true_iff; split).
      * destruct (TitleFilter.category f) as [c|]; [|done].
        apply bool_decide_eq_true. by apply Hc.
      * destruct (TitleFilter.year f) as [y|]; [|done].
        apply bool_decide_eq_true. by apply Hy.
      * destruct (TitleFilter.name f) as [n|]; [|done]. by apply Hn.
      * destruct (TitleFilter.genre f) as [g|]; [|done].
        apply bool_decide_eq_true, elem_of_Title_genre_all. by apply Hg.
Qed.

End title_extras.

(** ** The own profile: what it touches, and the role of an admin *)

Section me_extras.
Context `{Collaborators}.

(** X19. [me] reads and writes the caller's own row only. Whatever the
    method and the body, every other user's row is as before, no user is
    added or removed, and no other table and no mail is touched; a [GET]
    changes nothing and answers 200 with the caller's row; an anonymous
    caller is refused (401). *)
Theorem UserViewSet_me_frame (s : Store) (method : Method)
    (request : Request.t Form) :
  let s' := (UserViewSet_me method request s).2 in
  (∀ k, Request.user request ≠ Some k → users s' !! k = users s !! k)
  ∧ dom (users s') = dom (users s)
  ∧ categories s' = categories s ∧ genres s' = genres s
  ∧ titles s' = titles s ∧ genre_titles s' = genre_titles s
  ∧ reviews s' = reviews s ∧ comments s' = comments s
  ∧ outbox s' = outbox s
  ∧ (∀ uid u, Request.user request = Some uid → users s !! uid = Some u →
       UserViewSet_me GET request s
       = (Ok (Response.mk 200 (UserSerializer_data u)), s))
  ∧ (Request.user request = None →
     UserViewSet_me method request s = (Raise NotAuthenticated, s)).
Proof.
  assert (∀ uid u, Request.user request = Some uid →
            users s !! uid = Some u →
            ∀ m, initial IsAuthenticated m request s
                 = (Ok (Some (uid, u)), s)) as Hinit.
  { intros uid u Huser Hu m. unfold initial, authenticate. unfold_monad.
    rewrite Huser, Hu. unfold IsAuthenticated.
    by rewrite bool_decide_eq_true_2 by eauto. }
  assert ((UserViewSet_me method request s).2 = s
          ∨ ∃ uid u u', Request.user request = Some uid
                        ∧ users s !! uid = Some u
                        ∧ (UserViewSet_me method request s).2
                          = with_users (<[uid := u']> (users s)) s)
    as Hcases.
  { unfold UserViewSet_me. unfold_monad.
    destruct (initial IsAuthenticated method request s) as [[user|e] s0]
      eqn:Hi.
    2:{ destruct (initial_store s request IsAuthenticated method) as [r Hr].
        left. rewrite Hr in Hi. by injection Hi as _ <-. }
    apply initial_Ok in Hi as (-> & _ & Huser).
    destruct user as [[uid u]|]; [|by left].
    destruct Huser as [Hu1 Hu2]. cbn [fst snd] in Hu1, Hu2 |- *.
    destruct method; try by left.
    - destruct (UserSerializer_run_validation _ _ _ _) as [vd|e];
        [|destruct e; by left].
      unfold UserSerializer_update. unfold_monad. cbn [fst snd].
      destruct (User_save_cases s uid (foldl User_setattr u vd))
        as [[_ ->]|[_ ->]]; [|by left].
      right. eauto 6.
    - destruct (UserSerializer_run_validation _ _ _ _) as [vd|e];
        [|destruct e; by left].
      unfold UserSerializer_update. unfold_monad. cbn [fst snd].
      destruct (User_save_cases s uid (foldl User_setattr u vd))
        as [[_ ->]|[_ ->]]; [|by left].
      right. eauto 6. }
  cbv zeta. repeat apply conj.
  - intros k Hk. destruct Hcases as [->|(uid & u & u' & Hu & _ & ->)]; [done|].
    cbn [users with_users]. rewrite lookup_insert_ne; [done|congruence].
  - destruct Hcases as [->|(uid & u & u' & _ & Hu & ->)]; [done|].
    cbn [users with_users]. rewrite dom_insert_L.
    apply subseteq_union_1_L, singleton_subseteq_l. by eapply elem_of_dom_2.
  - by destruct Hcases as [->|(uid & u & u' & _ & _ & ->)].
  - by destruct Hcases as [->|(uid & u & u' & _ & _ & ->)].
  - by destruct Hcases as [->|(uid & u & u' & _ & _ & ->)].
  - by destruct Hcases as [->|(uid & u & u' & _ & _ & ->)].
  - by destruct Hcases as [->|(uid & u & u' & _ & _ & ->)].
  - by destruct Hcases as [->|(uid & u & u' & _ & _ & ->)].
  - by destruct Hcases as [->|(uid & u & u' & _ & _ & ->)].
  - intros uid u Huser Hu. unfold UserViewSet_me. unfold_monad.
    by rewrite (Hinit uid u Huser Hu).
  - intros Huser. unfold UserViewSet_me, initial, authenticate.
    unfold_monad. by rewrite Huser.
Qed.

Lemma UserSerializer_field_Ok_admin (table : gmap nat User.t) (u : User.t)
    (uid : nat) (data : Form) (name : string) :
  is_admin u = true →
  (∀ raw, data !! name = Some raw →
     is_Some (User_field_validation table (Some uid) name raw)) →
  UserSerializer_field table u (uid, u) data name
  = Ok (raw ← data !! name;
        v ← User_field_validation table (Some uid) name raw;
        Some (name, v)).
Proof.
  intros Hadmin Hvalid. unfold UserSerializer_field. cbn [fst snd].
  destruct (data !! name) as [raw|]; [|done].
  destruct (Hvalid raw eq_refl) as [v Hv]. cbn. rewrite !Hv.
  unfold UserSerializer_validate_role. rewrite Hadmin. cbn.
  by destruct (String.eqb name "role").
Qed.

(** X20. An admin changes the own role through [me]: when every submitted
    field passes its field's validation, the body passes validation, the
    updated row has the validated role that was submitted, and the request
    answers 200 and stores that row, unless the users table refuses it. *)
Theorem UserViewSet_me_admin_role (s : Store) (request : Request.t Form)
    (method : Method) (uid : nat) (u : User.t) (raw role : string) :
  Request.user request = Some uid → users s !! uid = Some u →
  is_admin u = true →
  method = PATCH ∨ method = PUT →
  (∀ name raw, name ∈ UserSerializer_fields →
     Request.data request !! name = Some raw →
     is_Some (User_field_validation (users s) (Some uid) name raw)) →
  Request.data request !! "role" = Some raw →
  User_field_validation (users s) (Some uid) "role" raw = Some role →
  ∃ validated_data,
    UserSerializer_run_validation (users s) u (uid, u) (Request.data request)
    = Ok validated_data
    ∧ let u' := foldl User_setattr u validated_data in
      User.role u' = role
      ∧ (User_save_accepts s uid u' →
           ∃ body, UserViewSet_me method request s
                   = (Ok (Response.mk 200 body),
                      with_users (<[uid := u']> (users s)) s)).
Proof.
  intros Huser Hu Hadmin Hmethod Hvalid Hraw Hrole.
  set (entry := λ name : string,
         raw ← Request.data request !! name;
         v ← User_field_validation (users s) (Some uid) name raw;
         Some (name, v)).
  assert (∀ m kv, entry m = Some kv → kv.1 = m) as Hkey.
  { intros m kv. unfold entry.
    destruct (Request.data request !! m) as [raw0|]; [|done]. cbn.
    destruct (User_field_validation _ _ m raw0); [|done]. by intros [= <-]. }
  assert (UserSerializer_run_validation (users s) u (uid, u)
            (Request.data request)
          = Ok (omap id (entry <$> UserSerializer_fields))) as Hrun.
  { unfold UserSerializer_run_validation.
    rewrite <- collect_fields_Ok, <- list_fmap_compose. f_equal.
    apply Forall_fmap_ext, Forall_forall. intros name Hin. cbn.
    apply UserSerializer_field_Ok_admin; [done|]. intros raw0.
    by apply Hvalid. }
  set (vd := omap id (entry <$> UserSerializer_fields)) in *.
  assert (NoDup vd.*1) as Hnd.
  { apply keyed_entries_NoDup; [done|].
    apply (bool_decide_unpack (NoDup UserSerializer_fields)). by vm_compute. }
  exists vd. split; [exact Hrun|]. cbv zeta. split.
  - change (User_getattr (foldl User_setattr u vd) "role" = role).
    assert ("role" ∈ UserSerializer_fields) as Hfield
      by (by repeat first [left | right]).
    apply User_getattr_foldl_in; [done| |done].
    apply list_elem_of_omap. exists (Some ("role", role)). split; [|done].
    apply (list_elem_of_fmap_2' entry _ "role"); [done|].
    unfold entry. rewrite Hraw. cbn. by rewrite Hrole.
  - intros Hacc. unfold UserViewSet_me, initial, authenticate. unfold_monad.
    rewrite Huser, Hu. unfold IsAuthenticated.
    rewrite bool_decide_eq_true_2 by eauto.
    unfold UserSerializer_update. unfold_monad.
    destruct (User_save_cases s uid (foldl User_setattr u vd))
      as [[_ Hsave]|[Hrefuse _]]; [|by destruct Hrefuse].
    destruct Hmethod as [-> | ->]; cbn [fst snd]; rewrite Hrun, Hsave; eauto.
Qed.

End me_extras.

(** ** Signup: what it keeps, and the code it mails *)

Lemma CharField_run_validation_Ok (max_length : option nat)
    (v : option string) (value : string) :
  CharField_run_validation max_length v = Ok value →
  value ≠ ""
  ∧ ∀ n, max_length = Some n → (String.length value ≤ n)%nat.
Proof.
  unfold CharField_run_validation. destruct v as [raw|]; [|done].
  destruct (String.eqb_spec (str_strip raw) "") as [|Hne]; [done|].
  destruct max_length as [n|].
  - destruct (Nat.leb_spec (String.length (str_strip raw)) n); [|done].
    intros [= <-]. split; [done|]. by intros ? [= <-].
  - intros [= <-]. done.
Qed.

Section signup_extras.
Context `{Collaborators}.

Lemma UserSignUpSerializer_to_internal_value_Ok (data : Form)
    (username email : string) :
  UserSignUpSerializer_to_internal_value data = Ok (username, email) →
  username ≠ "me" ∧ username ≠ ""
  ∧ (String.length username ≤ 150)%nat
  ∧ email ≠ "" ∧ EmailValidator email = true.
Proof.
  unfold UserSignUpSerializer_to_internal_value, EmailField_run_validation,
    UserSignUpSerializer_validate_username.
  unfold_monad.
  destruct (CharField_run_validation (Some 150%nat) (data !! "username"))
    as [u|] eqn:Hu; [|done].
  destruct (String.eqb_spec u "me") as [|Hme]; [done|].
  destruct (CharField_run_validation (Some 256%nat) (data !! "email"))
    as [e|] eqn:He; [|done].
  destruct (EmailValidator e) eqn:Hvalid; [|done].
  intros [= <- <-].
  apply CharField_run_validation_Ok in Hu as [Hu Hlen].
  apply CharField_run_validation_Ok in He as [He _].
  specialize (Hlen _ eq_refl). done.
Qed.

(** The outcomes of a signup: an exception that leaves the store alone; or
    the user [u] with the username and the e-mail of the body, who was in
    the users table or is added to it when no user has either, and the
    mail with the user's code. *)
Lemma SignUpViewSet_create_cases (request : Request.t Form) (s : Store) :
  (∃ e, SignUpViewSet_create request s = (Raise e, s))
  ∨ (∃ username email k u users',
       UserSignUpSerializer_to_internal_value (Request.data request)
       = Ok (username, email)
       ∧ User.username u = username ∧ User.email u = email
       ∧ users' !! k = Some u
       ∧ (users' = users s
          ∨ users' = <[k := u]> (users s) ∧ users s !! k = None
            ∧ ∀ k' u', users s !! k' = Some u' →
                User.username u' ≠ username ∧ User.email u' ≠ email)
       ∧ SignUpViewSet_create request s
         = (Ok (Response.mk 200 (UserSignUpSerializer_data u)),
            with_outbox (outbox s ++ [(email, get_confirmation_code k u)])
              (with_users users' s))).
Proof.
  unfold SignUpViewSet_create, UserSignUpSerializer_run_validation,
    UserSignUpSerializer_validate.
  unfold_monad.
  destruct (UserSignUpSerializer_to_internal_value (Request.data request))
    as [[username email]|e] eqn:Hvalid; [|left; eauto].
  cbn [fst snd].
  destruct (objects_filter _ (users s)) as [|[k u] l] eqn:Hf.
  - pose proof (proj1 (objects_filter_nil _ _) Hf) as Hnone.
    assert (∀ k' u', users s !! k' = Some u' →
              User.username u' ≠ username ∧ User.email u' ≠ email) as Hfree.
    { intros k' u' Hk'. specialize (Hnone k' u' Hk'). cbn in Hnone.
      apply orb_false_iff in Hnone as [Hu He].
      split; by apply String.eqb_neq. }
    unfold UserSignUpSerializer_create, User_objects_get_or_create,
      User_objects_create, send_confirmation_email.
    unfold_monad. cbn [fst snd].
    rewrite (proj2 (objects_filter_nil _ (users s))).
    2:{ intros k' u' Hk'. destruct (Hfree k' u' Hk') as [Hu _].
        apply andb_false_iff. left. by apply String.eqb_neq. }
    cbn [queryset_get]. cbn [User_new User.username User.email].
    rewrite Hf. right.
    exists username, email, (next_id (users s)), (User_new username email),
      (<[next_id (users s) := User_new username email]> (users s)).
    split; [done|]. split; [done|]. split; [done|].
    split; [apply lookup_insert_eq|].
    split; [|done]. right. split; [done|]. split; [apply next_id_fresh|done].
  - destruct l as [|y l]; [|left; cbn; eauto].
    cbn [queryset_get].
    assert ((k, u) ∈ objects_filter
              (λ _ u0, String.eqb (User.username u0) username
                       || String.eqb (User.email u0) email) (users s))
      as [Hk _]%elem_of_objects_filter by (rewrite Hf; left).
    destruct (String.eqb_spec (User.email u) email) as [He|];
      [|left; cbn; eauto].
    destruct (String.eqb_spec (User.username u) username) as [Hu|];
      [|left; cbn; eauto].
    cbn [negb orb].
    unfold UserSignUpSerializer_create, User_objects_get_or_create,
      send_confirmation_email.
    unfold_monad. cbn [fst snd].
    rewrite (objects_filter_singleton _ (users s) k u); [|done| |].
    + cbn [queryset_get fst snd]. right.
      exists username, email, k, u, (users s).
      split; [done|]. split; [done|]. split; [done|]. split; [done|].
      split; [by left|]. by destruct s.
    + rewrite Hu, He, !String.eqb_refl. done.
    + intros k' u' Hk' [Hu' _]%andb_true_iff.
      assert ((k', u') ∈ objects_filter
                (λ _ u0, String.eqb (User.username u0) username
                         || String.eqb (User.email u0) email) (users s))
        as Hin.
      { apply elem_of_objects_filter. split; [done|]. by rewrite Hu'. }
      rewrite Hf in Hin. apply list_elem_of_singleton in Hin. congruence.
Qed.

(** X21. Signup keeps the users table sound without relying on the table
    to refuse a row. Usernames and e-mail addresses that were pairwise
    distinct still are; every row that was there is there unchanged; and a
    row that signup adds has a username that is not [me], is not empty and
    has at most 150 characters, and an e-mail address that passes the
    e-mail validator. *)
Theorem SignUpViewSet_create_keeps_users (s : Store)
    (request : Request.t Form) :
  unique_usernames s → unique_emails s →
  let s' := (SignUpViewSet_create request s).2 in
  unique_usernames s' ∧ unique_emails s'
  ∧ (∀ k u, users s !! k = Some u → users s' !! k = Some u)
  ∧ (∀ k u, users s' !! k = Some u → users s !! k = None →
       User.username u ≠ "me" ∧ User.username u ≠ ""
       ∧ (String.length (User.username u) ≤ 150)%nat
       ∧ EmailValidator (User.email u) = true).
Proof.
  intros Hnames Hmails.
  destruct (SignUpViewSet_create_cases request s)
    as [[e ->]|(username & email & k & u & users' & Hvalid & Hu & He & Hk
                & Husers & ->)]; cbv zeta; cbn [snd].
  { repeat apply conj; [done|done|done|]. intros k u Hk Hnone. congruence. }
  destruct Husers as [->|(-> & Hfresh & Hfree)];
    unfold unique_usernames, unique_emails;
    cbn [users with_users with_outbox].
  { repeat apply conj; [done|done|done|]. intros k0 u0 H0 Hnone. congruence. }
  apply UserSignUpSerializer_to_internal_value_Ok in Hvalid
    as (Hme & Hblank & Hlen & _ & Hmail).
  repeat apply conj.
  - intros k1 k2 u1 u2.
    destruct (decide (k1 = k)) as [->|Hk1], (decide (k2 = k)) as [->|Hk2];
      rewrite ?lookup_insert_eq, ?lookup_insert_ne by done; try done.
    + intros [= <-] H2 Heq. destruct (Hfree k2 u2 H2) as [Hn _]. congruence.
    + intros H1 [= <-] Heq. destruct (Hfree k1 u1 H1) as [Hn _]. congruence.
    + apply Hnames.
  - intros k1 k2 u1 u2.
    destruct (decide (k1 = k)) as [->|Hk1], (decide (k2 = k)) as [->|Hk2];
      rewrite ?lookup_insert_eq, ?lookup_insert_ne by done; try done.
    + intros [= <-] H2 Heq. destruct (Hfree k2 u2 H2) as [_ Hn]. congruence.
    + intros H1 [= <-] Heq. destruct (Hfree k1 u1 H1) as [_ Hn]. congruence.
    + apply Hmails.
  - intros k0 u0 H0. rewrite lookup_insert_ne; [done|congruence].
  - intros k0 u0. destruct (decide (k0 = k)) as [->|Hne];
      rewrite ?lookup_insert_eq, ?lookup_insert_ne by done; [|congruence].
    intros [= <-] _. subst username email. done.
Qed.

(** X22. The code that signup mails opens the token exchange, given that
    [check_confirmation_code] accepts what [get_confirmation_code] makes
    for the same user and that a code is not empty. After a signup that
    succeeded, the last mail of the outbox goes to the e-mail address of
    the body, and a token request with the username of the body and the
    code of that mail answers 200 with a token. *)
Theorem signup_then_token (s s' : Store) (request : Request.t Form)
    (response : Response.t) :
  (∀ pk u, check_confirmation_code pk u (get_confirmation_code pk u) = true) →
  (∀ pk u, get_confirmation_code pk u ≠ "") →
  unique_usernames s →
  SignUpViewSet_create request s = (Ok response, s') →
  ∃ username email code,
    UserSignUpSerializer_to_internal_value (Request.data request)
    = Ok (username, email)
    ∧ last (outbox s') = Some (email, code)
    ∧ ∀ request0 : Request.t Form,
        Request.data request0 !! "username" = Some username →
        Request.data request0 !! "confirmation_code" = Some code →
        ∃ token,
          TokenObtainView_post request0 s'
          = (Ok (Response.mk 200 (JObj [("token", JStr token)])), s').
Proof.
  intros Hcheck Hcode Hnames Hcreate.
  destruct (SignUpViewSet_create_cases request s)
    as [[e He]|(username & email & k & u & users' & Hvalid & Hu & He & Hk
                & Husers & Hok)]; [congruence|].
  rewrite Hok in Hcreate. injection Hcreate as _ <-.
  exists username, email, (get_confirmation_code k u).
  split; [done|]. split; [cbn [outbox with_outbox]; apply last_snoc|].
  intros request0 Hname Hcode0.
  apply UserSignUpSerializer_to_internal_value_Ok in Hvalid
    as (_ & Hblank & _).
  unfold TokenObtainView_post. unfold_monad. rewrite Hname, Hcode0.
  cbn [truthy default].
  rewrite (proj2 (String.eqb_neq _ _) (Hcode k u)),
    (proj2 (String.eqb_neq _ _) Hblank).
  cbn [negb users with_users with_outbox].
  rewrite (objects_filter_singleton _ users' k u); [|done| |].
  - unfold get_or_404. cbn [queryset_get]. unfold_monad. cbn [fst snd id].
    rewrite Hcheck. cbn [negb]. eauto.
  - rewrite Hu. apply String.eqb_refl.
  - intros k' u' Hk' Heq%String.eqb_eq. cbn in Heq.
    destruct Husers as [->|(-> & Hfresh & Hfree)].
    + apply (Hnames k' k u' u); congruence.
    + destruct (decide (k' = k)) as [|Hne]; [done|].
      rewrite lookup_insert_ne in Hk' by done.
      destruct (Hfree k' u' Hk') as [Hn _]. congruence.
Qed.

End signup_extras.

(** ** The genres of a title *)

Lemma List_filter_Permutation {A} (f : A → bool) (l l' : list A) :
  l ≡ₚ l' → List.filter f l ≡ₚ List.filter f l'.
Proof.
  induction 1 as [|x l l' _ IH|x y l|l l' l'' _ IH1 _ IH2]; cbn.
  - done.
  - destruct (f x); by rewrite IH.
  - destruct (f x), (f y); try done. apply perm_swap.
  - by rewrite IH1.
Qed.

Lemma Title_genre_all_insert (s : Store) (k : nat) (g : string)
    (pk0 pk : nat) :
  genre_titles s !! k = None →
  Title_genre_all
    (with_genre_titles (<[k := GenreTitle.mk g pk0]> (genre_titles s)) s) pk
  ≡ₚ (if bool_decide (pk0 = pk) then [g] else []) ++ Title_genre_all s pk.
Proof.
  intros Hfresh. unfold Title_genre_all, objects_filter.
  cbn [genre_titles with_genre_titles].
  rewrite (List_filter_Permutation _ _ _ (map_to_list_insert _ _ _ Hfresh)).
  cbn [List.filter fst snd GenreTitle.title].
  by case_bool_decide.
Qed.

Lemma Title_genre_all_none (s : Store) (pk : nat) :
  (∀ k row, genre_titles s !! k = Some row → GenreTitle.title row ≠ pk) →
  Title_genre_all s pk = [].
Proof.
  intros Hnone. unfold Title_genre_all.
  rewrite (proj2 (objects_filter_nil _ (genre_titles s))); [done|].
  intros k row Hk. apply bool_decide_eq_false. by eapply Hnone.
Qed.

Lemma for_each_cons_Ok {A} (f : A → M unit) (a : A) (l : list A)
    (s s' : Store) :
  f a s = (Ok (), s') → for_each (a :: l) f s = for_each l f s'.
Proof. intros Hf. cbn [for_each]. unfold_monad. by rewrite Hf. Qed.

Section title_genres.
Context `{Collaborators}.

(** The loop of [TitlePostSerializer.create]: one join row for each genre
    of the list, in a store that has these genres. *)
Lemma TitlePostSerializer_create_loop (gs : list string) (pk : nat)
    (s0 : Store) :
  Forall (λ g, is_Some (genres s0 !! g)) gs →
  ∃ rows,
    for_each gs (λ genre,
      s' ← get_store;
      _ ← lift (get_object_or_404 (genres s') genre);
      GenreTitle_objects_create genre pk) s0
    = (Ok (), with_genre_titles rows s0)
    ∧ genre_titles s0 ⊆ rows
    ∧ (∀ k row, rows !! k = Some row → genre_titles s0 !! k = None →
         GenreTitle.title row = pk ∧ GenreTitle.genre row ∈ gs)
    ∧ ∀ pk', Title_genre_all (with_genre_titles rows s0) pk'
             ≡ₚ (if bool_decide (pk = pk') then gs else [])
                ++ Title_genre_all s0 pk'.
Proof.
  revert s0. induction gs as [|g gs IH]; intros s0 Hgs.
  - exists (genre_titles s0). cbn [for_each]. unfold_monad.
    split; [by destruct s0|]. split; [done|].
    split; [intros k row ? ?; congruence|].
    intros pk'. destruct s0. cbn. by case_bool_decide.
  - apply Forall_cons in Hgs as [[row Hg] Hgs].
    set (k0 := next_id (genre_titles s0)).
    set (s1 := with_genre_titles
                 (<[k0 := GenreTitle.mk g pk]> (genre_titles s0)) s0).
    destruct (IH s1 Hgs) as (rows & Hloop & Hsub & Hnew & Hall).
    rewrite (for_each_cons_Ok _ g gs s0 s1).
    2:{ unfold GenreTitle_objects_create, get_object_or_404.
        unfold_monad. by rewrite Hg. }
    rewrite Hloop. exists rows.
    pose proof (next_id_fresh (genre_titles s0)) as Hfresh.
    split; [done|]. split; [|split].
    + etrans; [|exact Hsub]. by apply insert_subseteq.
    + intros k row0 Hk Hk0.
      destruct (decide (k = k0)) as [->|Hne].
      * assert (rows !! k0 = Some (GenreTitle.mk g pk)) as Hin.
        { eapply lookup_weaken; [|exact Hsub].
          cbn [genre_titles s1 with_genre_titles]. apply lookup_insert_eq. }
        rewrite Hin in Hk. injection Hk as <-. split; [done|left].
      * destruct (Hnew k row0 Hk) as [Ht Hin].
        { cbn [genre_titles s1 with_genre_titles].
          by rewrite lookup_insert_ne. }
        split; [done|by right].
    + intros pk'. change (with_genre_titles rows s1)
        with (with_genre_titles rows s0) in Hall.
      rewrite (Hall pk'). unfold s1.
      rewrite (Title_genre_all_insert s0 k0 g pk pk' Hfresh).
      case_bool_decide; [|done].
      cbn [app]. by rewrite <- Permutation_middle.
Qed.

(** X23. [create] of a title by an admin, with a body that passes the
    validation of [TitlePostSerializer] and in a store whose join rows refer
    to titles of the store. It answers 201 and adds the title with the
    category of the body and one join row for each genre of the list, a
    genre that is listed twice getting two: the genres of the new title
    are those of the list, and its representation lists them. No other
    row of any table is changed, the genres of every other title are as
    before, and the foreign keys of the new rows hold. *)
Theorem TitleViewSet_create_genres (s : Store) (request : Request.t Body)
    (uid : nat) (u : User.t) (vd : TitleData.t) :
  Request.user request = Some uid → users s !! uid = Some u →
  is_admin u = true →
  foreign_keys_hold s →
  TitlePostSerializer_to_internal_value s (Request.data request) = Ok vd →
  let pk := next_id (titles s) in
  let title := Title.mk (TitleData.name vd) (TitleData.year vd)
                 (TitleData.description vd) (Some (TitleData.category vd)) in
  ∃ rows,
    let s' := with_genre_titles rows
                (with_titles (<[pk := title]> (titles s)) s) in
    TitleViewSet_create request s
    = (Ok (Response.mk 201 (TitlePostSerializer_data s' pk title None)), s')
    ∧ titles s !! pk = None
    ∧ genre_titles s ⊆ rows
    ∧ Title_genre_all s' pk ≡ₚ TitleData.genre vd
    ∧ (∀ pk', pk' ≠ pk → Title_genre_all s' pk' ≡ₚ Title_genre_all s pk')
    ∧ foreign_keys_hold s'.
Proof.
  intros Huser Hu Hadmin (Hcat & Hjoin & Hrev & Hcom) Hvalid pk title.
  pose proof (TitlePostSerializer_to_internal_value_Ok _ _ _ Hvalid)
    as (_ & _ & _ & Hg & Hc).
  apply required_field_Ok in Hg as (jg & _ & Hg).
  apply ManyRelatedField_run_validation_Ok in Hg.
  apply required_field_Ok in Hc as (jc & _ & Hc).
  apply SlugRelatedField_run_validation_Ok in Hc as [Hc _].
  pose proof (next_id_fresh (titles s)) as Hfresh. fold pk in Hfresh.
  set (s1 := with_titles (<[pk := title]> (titles s)) s).
  destruct (TitlePostSerializer_create_loop (TitleData.genre vd) pk s1 Hg)
    as (rows & Hloop & Hsub & Hnew & Hall).
  exists rows. cbv zeta.
  assert (Title_genre_all s1 pk = []) as Hnone.
  { apply Title_genre_all_none. intros k row Hk Ht.
    destruct (Hjoin k row Hk) as [_ [t Htitle]]. congruence. }
  repeat apply conj.
  - unfold TitleViewSet_create. unfold_monad.
    rewrite (initial_admin s request _ uid u) by done.
    change (to_internal_value (TitleViewSet_get_serializer Action.create))
      with TitlePostSerializer_to_internal_value.
    rewrite Hvalid.
    change (create (TitleViewSet_get_serializer Action.create))
      with TitlePostSerializer_create.
    unfold TitlePostSerializer_create. unfold_monad.
    fold pk title s1. by rewrite Hloop.
  - done.
  - done.
  - rewrite (Hall pk), Hnone, bool_decide_eq_true_2 by done.
    by rewrite app_nil_r.
  - intros pk' Hne. rewrite (Hall pk'), bool_decide_eq_false_2 by done. done.
  - unfold s1. cbn [titles categories with_genre_titles with_titles].
    intros k t c. destruct (decide (k = pk)) as [->|Hne];
      rewrite ?lookup_insert_eq, ?lookup_insert_ne by done; [|apply Hcat].
    by intros [= <-] [= <-].
  - unfold s1 in *.
    cbn [titles genres genre_titles with_genre_titles with_titles] in *.
    intros k row Hk.
    destruct (genre_titles s !! k) as [row0|] eqn:Hk0.
    + assert (row = row0) as ->.
      { eapply lookup_weaken in Hk0; [|exact Hsub]. congruence. }
      destruct (Hjoin k row0 Hk0) as [Hgenre [t Ht]]. split; [done|].
      rewrite lookup_insert_ne; [eauto|congruence].
    + destruct (Hnew k row Hk Hk0) as [-> Hin]. split.
      * rewrite Forall_forall in Hg. by apply Hg.
      * rewrite lookup_insert_eq. eauto.
  - unfold s1. cbn [titles users reviews with_genre_titles with_titles].
    intros k r Hk. destruct (Hrev k r Hk) as [[t Ht] Huser']. split; [|done].
    rewrite lookup_insert_ne; [eauto|congruence].
  - done.
Qed.

End title_genres.

Section title_patch.
Context `{Collaborators}.

(** The loop of [title.genre.set]: a join row for each genre of the list
    that the title does not have yet. *)
Lemma Title_genre_set_loop (l : list string) (pk : nat) (s1 : Store) :
  ∃ rows,
    for_each l (λ genre,
      s' ← get_store;
      if bool_decide (genre ∈ Title_genre_all s' pk) then mret ()
      else GenreTitle_objects_create genre pk) s1
    = (Ok (), with_genre_titles rows s1)
    ∧ (∀ g, (∃ k, rows !! k = Some (GenreTitle.mk g pk))
            ↔ (∃ k, genre_titles s1 !! k = Some (GenreTitle.mk g pk))
              ∨ g ∈ l)
    ∧ (∀ k row, GenreTitle.title row ≠ pk →
         rows !! k = Some row ↔ genre_titles s1 !! k = Some row).
Proof.
  revert s1. induction l as [|g l IH]; intros s1.
  - exists (genre_titles s1). cbn [for_each]. unfold_monad.
    split; [by destruct s1|]. split; [|done].
    intros g. rewrite elem_of_nil. tauto.
  - destruct (decide (g ∈ Title_genre_all s1 pk)) as [Hin|Hout].
    + destruct (IH s1) as (rows & Hloop & Hgenres & Hother).
      rewrite (for_each_cons_Ok _ g l s1 s1).
      2:{ unfold_monad. by rewrite bool_decide_eq_true_2. }
      exists rows. split; [done|]. split; [|done].
      intros g'. rewrite Hgenres, elem_of_cons.
      apply elem_of_Title_genre_all in Hin. split; [tauto|].
      intros [?|[->|?]]; tauto.
    + set (k0 := next_id (genre_titles s1)).
      set (s2 := with_genre_titles
                   (<[k0 := GenreTitle.mk g pk]> (genre_titles s1)) s1).
      pose proof (next_id_fresh (genre_titles s1)) as Hfresh.
      destruct (IH s2) as (rows & Hloop & Hgenres & Hother).
      rewrite (for_each_cons_Ok _ g l s1 s2).
      2:{ unfold GenreTitle_objects_create. unfold_monad.
          by rewrite bool_decide_eq_false_2. }
      exists rows. split; [done|].
      unfold s2 in Hgenres, Hother.
      cbn [genre_titles with_genre_titles] in Hgenres, Hother.
      split.
      * intros g'. rewrite Hgenres, elem_of_cons. split.
        -- intros [[k Hk]|?]; [|tauto].
           destruct (decide (k = k0)) as [->|Hne].
           ++ rewrite lookup_insert_eq in Hk. injection Hk as ->. tauto.
           ++ rewrite lookup_insert_ne in Hk by done. eauto.
        -- intros [[k Hk]|[->|?]]; [| |tauto].
           ++ left. exists k. rewrite lookup_insert_ne; [done|].
              intros Heq. rewrite <- Heq in Hk. unfold k0 in Hk. congruence.
           ++ left. exists k0. apply lookup_insert_eq.
      * intros k row Hrow. rewrite (Hother k row Hrow).
        destruct (decide (k = k0)) as [->|Hne].
        -- rewrite lookup_insert_eq. unfold k0. rewrite Hfresh.
           split; [|done]. intros [= <-]. done.
        -- by rewrite lookup_insert_ne.
Qed.

Lemma Title_genre_set_spec (pk : nat) (wanted : list string) (s : Store) :
  ∃ rows,
    Title_genre_set pk wanted s = (Ok (), with_genre_titles rows s)
    ∧ (∀ g, g ∈ Title_genre_all (with_genre_titles rows s) pk ↔ g ∈ wanted)
    ∧ (∀ k row, GenreTitle.title row ≠ pk →
         rows !! k = Some row ↔ genre_titles s !! k = Some row).
Proof.
  unfold Title_genre_set.
  set (kept := filter (λ kv : nat * GenreTitle.t,
                         GenreTitle.title kv.2 ≠ pk
                         ∨ GenreTitle.genre kv.2 ∈ wanted) (genre_titles s)).
  destruct (Title_genre_set_loop wanted pk (with_genre_titles kept s))
    as (rows & Hloop & Hgenres & Hother).
  exists rows. unfold_monad. split; [exact Hloop|].
  cbn [genre_titles with_genre_titles] in Hgenres, Hother. split.
  - intros g. rewrite elem_of_Title_genre_all.
    cbn [genre_titles with_genre_titles]. rewrite Hgenres. split; [|tauto].
    intros [[k Hk]|?]; [|done].
    apply map_lookup_filter_Some in Hk as [_ [Hk|Hk]]; done.
  - intros k row Hrow. rewrite (Hother k row Hrow). unfold kept.
    rewrite map_lookup_filter_Some. cbn. tauto.
Qed.

(** X24. A partial update ([PATCH]) of a title by an admin, with a body
    that passes the validation of [TitlePostSerializer]. It answers 200
    and replaces the fields that the body gives, the others keeping their
    value; when the body gives genres, the genres of the title become
    exactly those, else its join rows are as before. The join rows of
    every other title are untouched. *)
Theorem TitleViewSet_partial_update_fields (s : Store)
    (request : Request.t Body) (pk uid : nat) (u : User.t) (t : Title.t)
    (vd : TitlePatch.t) :
  Request.user request = Some uid → users s !! uid = Some u →
  is_admin u = true →
  titles s !! pk = Some t →
  TitlePostSerializer_to_internal_value_partial s (Request.data request)
  = Ok vd →
  let t' := Title.mk (default (Title.name t) (TitlePatch.name vd))
              (default (Title.year t) (TitlePatch.year vd))
              (default (Title.description t) (TitlePatch.description vd))
              (from_option Some (Title.category t)
                 (TitlePatch.category vd)) in
  ∃ rows body,
    let s' := with_genre_titles rows
                (with_titles (<[pk := t']> (titles s)) s) in
    TitleViewSet_update true pk request s = (Ok (Response.mk 200 body), s')
    ∧ match TitlePatch.genre vd with
      | Some gs => ∀ g, g ∈ Title_genre_all s' pk ↔ g ∈ gs
      | None => rows = genre_titles s
      end
    ∧ (∀ k row, GenreTitle.title row ≠ pk →
         rows !! k = Some row ↔ genre_titles s !! k = Some row).
Proof.
  intros Huser Hu Hadmin Ht Hvalid t'.
  set (s1 := with_titles (<[pk := t']> (titles s)) s).
  assert (∃ rows,
            from_option (Title_genre_set pk) (mret ()) (TitlePatch.genre vd) s1
            = (Ok (), with_genre_titles rows s1)
            ∧ match TitlePatch.genre vd with
              | Some gs =>
                  ∀ g, g ∈ Title_genre_all (with_genre_titles rows s1) pk
                       ↔ g ∈ gs
              | None => rows = genre_titles s
              end
            ∧ (∀ k row, GenreTitle.title row ≠ pk →
                 rows !! k = Some row ↔ genre_titles s !! k = Some row))
    as (rows & Hset & Hgenres & Hother).
  { destruct (TitlePatch.genre vd) as [gs|]; cbn [from_option].
    - destruct (Title_genre_set_spec pk gs s1) as (rows & ? & ? & ?).
      exists rows. done.
    - exists (genre_titles s). unfold_monad. split; [|done].
      unfold s1. by destruct s. }
  exists rows. eexists. cbv zeta. split; [|done].
  unfold TitleViewSet_update. unfold_monad.
  rewrite (initial_admin s request _ uid u),
    (TitleViewSet_get_object_Some s pk t) by done.
  change (to_internal_value_partial
            (TitleViewSet_get_serializer Action.partial_update))
    with TitlePostSerializer_to_internal_value_partial.
  rewrite Hvalid.
  change (update (TitleViewSet_get_serializer Action.partial_update))
    with TitlePostSerializer_update.
  unfold TitlePostSerializer_update. unfold_monad. cbn [fst snd].
  fold t' s1. rewrite Hset. reflexivity.
Qed.

End title_patch.

(** ** The serializer of each action of a title *)



Section serializer_by_action.
Context `{Collaborators}.


End serializer_by_action.

(** ** What the review and comment handlers write *)

Section handler_writes.
Context `{Collaborators}.

(** The store after an action of the review handlers: as before, or with
    one review added, or with the review of the path replaced by one of
    the same title and author, or with that review deleted. *)
Lemma ReviewViewSet_store (action : Action.t) (title_id pk : nat)
    (request : Request.t Body) (s : Store) :
  let s' := (ReviewViewSet action title_id pk request s).2 in
  s' = s
  ∨ (∃ r, s' = with_reviews (<[next_id (reviews s) := r]> (reviews s)) s
          ∧ is_Some (titles s !! Review.title r)
          ∧ is_Some (users s !! Review.author r))
  ∨ (∃ r r', s' = with_reviews (<[pk := r']> (reviews s)) s
             ∧ reviews s !! pk = Some r
             ∧ Review.title r' = Review.title r
             ∧ Review.author r' = Review.author r)
  ∨ s' = Review_delete pk s.
Proof.
  destruct action; cbn [ReviewViewSet]; cbv zeta.
  - destruct (ReviewViewSet_list_cases title_id request s) as (r & -> & _).
    by left.
  - destruct (ReviewViewSet_create title_id request s) as [[response|e] s']
      eqn:Hcreate.
    + apply ReviewViewSet_create_Ok in Hcreate
        as (uid & text & score & _ & Hu & Ht & _ & _ & -> & _).
      right. left. eexists. split; [reflexivity|done].
    + destruct (ReviewViewSet_create_cases title_id request s)
        as [[e' He]|(? & ? & ? & ? & ? & _ & _ & _ & _ & He)];
        rewrite He in Hcreate; [|done].
      left. by injection Hcreate as _ <-.
  - destruct (ReviewViewSet_retrieve_cases title_id pk request s)
      as (r & -> & _). by left.
  - destruct (ReviewViewSet_update_cases false title_id pk request s)
      as [(e & -> & _)|(r & r' & body & Hr & Ht & Ha & ->)]; [by left|].
    right. right. left. eauto 6.
  - destruct (ReviewViewSet_update_cases true title_id pk request s)
      as [(e & -> & _)|(r & r' & body & Hr & Ht & Ha & ->)]; [by left|].
    right. right. left. eauto 6.
  - destruct (ReviewViewSet_destroy_cases title_id pk request s)
      as [(e & -> & _)|(body & _ & ->)]; [by left|].
    by right; right; right.
Qed.

Lemma CommentViewSet_get_object_cases (method : Method)
    (user : option (nat * User.t)) (title_id review_id pk : nat) (s : Store) :
  (∃ c, CommentViewSet_get_object method user title_id review_id pk s
        = (Ok (pk, c), s)
        ∧ comments s !! pk = Some c ∧ Comments.review c = review_id)
  ∨ (∃ e, CommentViewSet_get_object method user title_id review_id pk s
          = (Raise e, s)).
Proof.
  unfold CommentViewSet_get_object, CommentViewSet_get_queryset,
    permission_denied.
  unfold_monad.
  destruct (CommentViewSet_get_review_cases title_id review_id s)
    as [(r & -> & _)|[-> _]]; [|right; eauto].
  unfold get_object_or_404. cbn [fst].
  destruct (filter _ (comments s) !! pk) as [c|] eqn:Hc; [|right; eauto].
  apply map_lookup_filter_Some in Hc as [Hc Hrev].
  destruct (IsAuthorOrStaffOrAuthenticatedCreateOrReadOnly_object _ _ _).
  - left. eauto.
  - right. destruct user; eauto.
Qed.

(** The same for the comment handlers, which write comments only. *)
Lemma CommentViewSet_store (action : Action.t) (title_id review_id pk : nat)
    (request : Request.t Body) (s : Store) :
  let s' := (CommentViewSet action title_id review_id pk request s).2 in
  s' = s
  ∨ (∃ c, s' = with_comments (<[next_id (comments s) := c]> (comments s)) s
          ∧ is_Some (reviews s !! Comments.review c)
          ∧ is_Some (users s !! Comments.author c))
  ∨ (∃ c c', s' = with_comments (<[pk := c']> (comments s)) s
             ∧ comments s !! pk = Some c
             ∧ Comments.review c' = Comments.review c
             ∧ Comments.author c' = Comments.author c)
  ∨ s' = Comments_delete pk s.
Proof.
  assert (∀ partial,
            let s' := (CommentViewSet_update partial title_id review_id pk
                         request s).2 in
            s' = s
            ∨ ∃ c c', s' = with_comments (<[pk := c']> (comments s)) s
                      ∧ comments s !! pk = Some c
                      ∧ Comments.review c' = Comments.review c
                      ∧ Comments.author c' = Comments.author c) as Hupdate.
  { intros partial. cbv zeta. unfold CommentViewSet_update. unfold_monad.
    destruct (initial _ (if partial then PATCH else PUT) request s)
      as [[user|e] s0] eqn:Hinit.
    2:{ destruct (initial_store s request
                    IsAuthorOrStaffOrAuthenticatedCreateOrReadOnly
                    (if partial then PATCH else PUT)) as [r Hr].
        left. rewrite Hr in Hinit. by injection Hinit as _ <-. }
    apply initial_Ok in Hinit as (-> & _ & _).
    destruct (CommentViewSet_get_object_cases
                (if partial then PATCH else PUT) user title_id review_id pk s)
      as [(c & -> & Hc & Hrev)|[e ->]]; [|by left].
    destruct (if partial then _ else _) as [text|e]; [|by left].
    unfold CommentSerializer_update. unfold_monad. cbn [fst snd].
    right. eauto 6. }
  destruct action; cbn [CommentViewSet]; cbv zeta.
  - unfold CommentViewSet_list, CommentViewSet_get_queryset. unfold_monad.
    destruct (initial_store s request
                IsAuthorOrStaffOrAuthenticatedCreateOrReadOnly GET)
      as [[user|e] ->]; [|by left].
    destruct (CommentViewSet_get_review_cases title_id review_id s)
      as [(r & -> & _)|[-> _]]; by left.
  - destruct (CommentViewSet_create title_id review_id request s)
      as [[response|e] s'] eqn:Hcreate.
    + apply CommentViewSet_create_row in Hcreate
        as (uid & text & _ & Hu & [_ (r & Hr & _)] & _ & -> & _).
      right. left. eexists. split; [reflexivity|]. split; [by eexists|done].
    + left. revert Hcreate.
      unfold CommentViewSet_create, CommentViewSet_perform_create,
        Comments_objects_create.
      unfold_monad.
      destruct (initial_store s request
                  IsAuthorOrStaffOrAuthenticatedCreateOrReadOnly POST)
        as [[user|e0] ->]; [|by intros [= _ <-]].
      destruct (CommentSerializer_to_internal_value _) as [text|e0];
        [|by intros [= _ <-]].
      destruct user as [[uid u]|]; [|by intros [= _ <-]].
      destruct (CommentViewSet_get_review_cases title_id review_id s)
        as [(r & -> & _)|[-> _]]; [done|by intros [= _ <-]].
  - unfold CommentViewSet_retrieve. unfold_monad.
    destruct (initial_store s request
                IsAuthorOrStaffOrAuthenticatedCreateOrReadOnly GET)
      as [[user|e] ->]; [|by left].
    destruct (CommentViewSet_get_object_cases GET user title_id review_id
                pk s) as [(c & -> & _)|[e ->]]; by left.
  - destruct (Hupdate false) as [?|?]; [by left|by right; right; left].
  - destruct (Hupdate true) as [?|?]; [by left|by right; right; left].
  - unfold CommentViewSet_destroy. unfold_monad.
    destruct (initial_store s request
                IsAuthorOrStaffOrAuthenticatedCreateOrReadOnly DELETE)
      as [[user|e] ->]; [|by left].
    destruct (CommentViewSet_get_object_cases DELETE user title_id review_id
                pk s) as [(c & -> & _)|[e ->]]; [|by left].
    by right; right; right.
Qed.

(** X25. The review and comment handlers keep the foreign keys: in a store
    whose foreign keys all hold they still hold after any action of
    either, whatever the request. *)
Theorem handlers_keep_foreign_keys (s : Store) :
  foreign_keys_hold s →
  (∀ action title_id pk request,
     foreign_keys_hold (ReviewViewSet action title_id pk request s).2)
  ∧ (∀ action title_id review_id pk request,
       foreign_keys_hold
         (CommentViewSet action title_id review_id pk request s).2).
Proof.
  intros Hfk. split.
  - intros action title_id pk request.
    destruct (ReviewViewSet_store action title_id pk request s)
      as [->|[(r & -> & Ht & Hu)|[(r & r' & -> & Hr & Ht & Ha)| ->]]];
      [done| | |by apply Review_delete_foreign_keys].
    + destruct Hfk as (Hcat & Hjoin & Hrev & Hcom).
      pose proof (next_id_fresh (reviews s)) as Hfresh.
      repeat apply conj; cbn [titles categories genres genre_titles reviews
        comments users with_reviews]; [done|done| |].
      * intros k r0. destruct (decide (k = next_id (reviews s))) as [->|Hne];
          rewrite ?lookup_insert_eq, ?lookup_insert_ne by done;
          [|apply Hrev].
        by intros [= <-].
      * intros k c Hc. destruct (Hcom k c Hc) as [[r0 Hr0] Hauthor].
        split; [|done]. rewrite lookup_insert_ne; [eauto|congruence].
    + destruct Hfk as (Hcat & Hjoin & Hrev & Hcom).
      repeat apply conj; cbn [titles categories genres genre_titles reviews
        comments users with_reviews]; [done|done| |].
      * intros k r0. destruct (decide (k = pk)) as [->|Hne];
          rewrite ?lookup_insert_eq, ?lookup_insert_ne by done;
          [|apply Hrev].
        intros [= <-]. rewrite Ht, Ha. by eapply Hrev.
      * intros k c Hc. destruct (Hcom k c Hc) as [Hreview Hauthor].
        split; [|done]. by apply lookup_insert_is_Some'; right.
  - intros action title_id review_id pk request.
    destruct (CommentViewSet_store action title_id review_id pk request s)
      as [->|[(c & -> & Hr & Hu)|[(c & c' & -> & Hc & Hr & Ha)| ->]]];
      [done| | |by apply Comments_delete_foreign_keys].
    + destruct Hfk as (Hcat & Hjoin & Hrev & Hcom).
      repeat apply conj; cbn [titles categories genres genre_titles reviews
        comments users with_comments]; [done|done|done|].
      intros k c0. destruct (decide (k = next_id (comments s))) as [->|Hne];
        rewrite ?lookup_insert_eq, ?lookup_insert_ne by done; [|apply Hcom].
      by intros [= <-].
    + destruct Hfk as (Hcat & Hjoin & Hrev & Hcom).
      repeat apply conj; cbn [titles categories genres genre_titles reviews
        comments users with_comments]; [done|done|done|].
      intros k c0. destruct (decide (k = pk)) as [->|Hne];
        rewrite ?lookup_insert_eq, ?lookup_insert_ne by done; [|apply Hcom].
      intros [= <-]. rewrite Hr, Ha. by eapply Hcom.
Qed.

(** X26. What the review and comment handlers never write. No action of
    either changes a user, a title, a category, a genre, a join row or the
    outbox; a comment action changes no review; and a review action
    removes comments only, and only by a [destroy]. *)
Theorem handlers_frame (s : Store) (action : Action.t)
    (title_id review_id pk : nat) (request : Request.t Body) :
  let s1 := (ReviewViewSet action title_id pk request s).2 in
  let s2 := (CommentViewSet action title_id review_id pk request s).2 in
  (users s1 = users s ∧ titles s1 = titles s ∧ categories s1 = categories s
   ∧ genres s1 = genres s ∧ genre_titles s1 = genre_titles s
   ∧ outbox s1 = outbox s
   ∧ comments s1 ⊆ comments s
   ∧ (action ≠ Action.destroy → comments s1 = comments s))
  ∧ (users s2 = users s ∧ titles s2 = titles s ∧ categories s2 = categories s
     ∧ genres s2 = genres s ∧ genre_titles s2 = genre_titles s
     ∧ outbox s2 = outbox s ∧ reviews s2 = reviews s).
Proof.
  cbv zeta. split.
  - assert (action ≠ Action.destroy →
            comments (ReviewViewSet action title_id pk request s).2
            = comments s) as Hcomments.
    { intros Hne.
      destruct action; cbn [ReviewViewSet]; try done.
      - by destruct (ReviewViewSet_list_cases title_id request s)
          as (r & -> & _).
      - by destruct (ReviewViewSet_create_cases title_id request s)
          as [[e ->]|(? & ? & ? & ? & ? & _ & _ & _ & _ & ->)].
      - by destruct (ReviewViewSet_retrieve_cases title_id pk request s)
          as (r & -> & _).
      - by destruct (ReviewViewSet_update_cases false title_id pk request s)
          as [(e & -> & _)|(r & r' & body & _ & _ & _ & ->)].
      - by destruct (ReviewViewSet_update_cases true title_id pk request s)
          as [(e & -> & _)|(r & r' & body & _ & _ & _ & ->)]. }
    destruct (ReviewViewSet_store action title_id pk request s)
      as [Hs|[(r & Hs & _)|[(r & r' & Hs & _)|Hs]]];
      rewrite Hs in *; repeat apply conj; try done.
    unfold Review_delete. cbn [comments with_comments].
    apply map_subseteq_spec. intros k c Hc.
    by apply lookup_Comments_collect in Hc as [Hc _].
  - by destruct (CommentViewSet_store action title_id review_id pk request s)
      as [->|[(c & -> & _)|[(c & c' & -> & _)| ->]]].
Qed.

End handler_writes.

(** ** A title without its category, and a second comment *)

Section more_compositions.
Context `{Collaborators}.

(** X27. A title whose category was deleted is still served: its retrieval
    answers 200 with the same name and a null category. *)
Theorem TitleViewSet_retrieve_after_Category_delete (s : Store)
    (request : Request.t Body) (slug : string) (pk : nat) (t : Title.t) :
  authenticates s request →
  titles s !! pk = Some t → Title.category t = Some slug →
  ∃ body,
    TitleViewSet_retrieve pk request (Category_delete slug s)
    = (Ok (Response.mk 200 body), Category_delete slug s)
    ∧ field_of "id" body = Some (JInt (Z.of_nat pk))
    ∧ field_of "name" body = Some (JStr (Title.name t))
    ∧ field_of "category" body = Some JNull.
Proof.
  intros Hauth Ht Hc.
  destruct (initial_safe (Category_delete slug s) request IsAdminOrReadOnly
              GET Hauth) as [user Hinit]; [done|].
  assert (titles (Category_delete slug s) !! pk
          = Some (Title_clear_category t)) as Ht'.
  { unfold Category_delete, Title_category_on_delete.
    cbn [titles with_titles].
    rewrite lookup_on_delete_rows_SET_NULL, Ht. cbn.
    by rewrite bool_decide_eq_true_2. }
  unfold TitleViewSet_retrieve. unfold_monad.
  rewrite Hinit, (TitleViewSet_get_object_Some _ pk _ Ht').
  eexists. split; [reflexivity|].
  change (to_representation (TitleViewSet_get_serializer Action.retrieve))
    with TitleSerializer_data.
  cbn [fst snd]. unfold TitleSerializer_data. cbn [from_option app].
  done.
Qed.

(** X28. Nothing limits the comments of an author: a [create] by a user of
    the store, with parents that resolve and a text that passes the field
    validation, answers 201 and adds the comment, whatever comments the
    review has already. The uniqueness validator that the serializer
    declares on [author] is on a field that is read only, and is never
    run. *)
Theorem CommentViewSet_create_accepts (s : Store) (title_id review_id : nat)
    (request : Request.t Body) (uid : nat) (u : User.t) (text : string) :
  Request.user request = Some uid → users s !! uid = Some u →
  comment_parents s title_id review_id →
  CommentSerializer_to_internal_value (Request.data request) = Ok text →
  let pk := next_id (comments s) in
  let c := Comments.mk review_id text uid now in
  let s' := with_comments (<[pk := c]> (comments s)) s in
  CommentViewSet_create title_id review_id request s
  = (Ok (Response.mk 201 (CommentSerializer_data s' pk c)), s')
  ∧ comments s ⊆ comments s'.
Proof.
  intros Huser Hu Hparents Hvalid pk c s'. split.
  - unfold CommentViewSet_create, CommentViewSet_perform_create,
      Comments_objects_create.
    unfold_monad.
    rewrite (initial_authenticated s request POST uid u) by done.
    rewrite Hvalid.
    destruct (CommentViewSet_get_review_cases title_id review_id s)
      as [(r & -> & _)|[_ Hmissing]]; [done|by destruct Hmissing].
  - unfold s'. cbn [comments with_comments].
    apply insert_subseteq, next_id_fresh.
Qed.

End more_compositions.

(** ** The author in the answer of a create *)

Section create_response.
Context `{Collaborators}.

(** X29. The answer of a [create] names the caller: the body that a
    successful [create] of a review or of a comment answers has the
    caller's username as its [author], whatever the request body holds,
    and a review's has the title of the path as its [title]. *)
Theorem create_response_author (s s' : Store) (title_id review_id : nat)
    (request : Request.t Body) (response : Response.t) :
  (ReviewViewSet_create title_id request s = (Ok response, s') →
   ∃ uid u,
     Request.user request = Some uid ∧ users s !! uid = Some u
     ∧ field_of "author" (Response.data response)
       = Some (JStr (User.username u))
     ∧ field_of "title" (Response.data response)
       = Some (JInt (Z.of_nat title_id)))
  ∧ (CommentViewSet_create title_id review_id request s = (Ok response, s') →
     ∃ uid u,
       Request.user request = Some uid ∧ users s !! uid = Some u
       ∧ field_of "author" (Response.data response)
         = Some (JStr (User.username u))).
Proof.
  split; intros Hcreate.
  - apply ReviewViewSet_create_Ok in Hcreate
      as (uid & text & score & Huser & [u Hu] & _ & _ & _ & -> & ->).
    exists uid, u. split; [done|]. split; [done|].
    cbn. unfold author_username. cbn [users with_reviews].
    by rewrite Hu.
  - apply CommentViewSet_create_row in Hcreate
      as (uid & text & Huser & [u Hu] & _ & _ & -> & ->).
    exists uid, u. split; [done|]. split; [done|].
    cbn. unfold author_username. cbn [users with_comments].
    by rewrite Hu.
Qed.

End create_response.

(** ** The further properties at the example store *)

Lemma example_store_scores_in_range : scores_in_range example_store.
Proof.
  intros k r Hk. cbn in Hk.
  destruct (decide (k = 1%nat)) as [->|]; [|
  destruct (decide (k = 2%nat)) as [->|]]; simplify_map_eq;
    apply SCORE_CHOICES_range; cbn; lia.
Qed.

Lemma example_store_unique_emails : unique_emails example_store.
Proof.
  intros k1 k2 u1 u2 H1 H2 He.
  destruct (example_store_users k1 u1 H1) as [[-> ->]|[[-> ->]|[-> ->]]];
    destruct (example_store_users k2 u2 H2) as [[-> ->]|[[-> ->]|[-> ->]]];
    done.
Qed.

Lemma example_store_authenticates_anonymous {D} (s : Store) (data : D) :
  authenticates s (Request.mk None data).
Proof. intros pk Hpk. discriminate Hpk. Qed.

(** X13 at the example store: the admin reviews the title with the score 5. *)
Lemma ReviewViewSet_scores_in_range_witness :
  scores_in_range example_store
  ∧ scores_in_range
      (ReviewViewSet (H := example_collaborators) Action.create 1 0
         (Request.mk (Some 3%nat)
            {[ "text" := JStr "slow"; "score" := JInt 5 ]})
         example_store).2.
Proof.
  split; [exact example_store_scores_in_range|].
  apply (ReviewViewSet_scores_in_range (H := example_collaborators)
           example_store Action.create 1%nat 0%nat _
           example_store_scores_in_range).
Defined.

(** X14 at the example store: the title with the scores 7 and 8. *)
Lemma TitleViewSet_rating_range_witness :
  ∃ body,
    TitleViewSet_retrieve (H := example_collaborators) 1 (Request.mk None ∅)
      example_store
    = (Ok (Response.mk 200 body), example_store)
    ∧ (field_of "rating" body = Some JNull
       ∨ ∃ z, field_of "rating" body = Some (JInt z) ∧ 1 ≤ z ≤ 10).
Proof.
  apply (TitleViewSet_rating_range (H := example_collaborators) example_store
           (Request.mk None ∅) 1%nat
           (Title.mk "Solaris" 1972 "" (Some "film"))
           example_store_scores_in_range
           (example_store_authenticates_anonymous _ _) eq_refl).
Defined.

(** X15 at the example store: the admin's review of the title, then read by
    an anonymous caller. *)
Lemma create_then_retrieve_witness :
  ∃ response s',
    ReviewViewSet_create (H := example_collaborators) 1
      (Request.mk (Some 3%nat) {[ "text" := JStr "slow"; "score" := JInt 5 ]})
      example_store
    = (Ok response, s')
    ∧ ReviewViewSet_retrieve (H := example_collaborators) 1 3
        (Request.mk None ∅) s'
      = (Ok (Response.mk 200 (Response.data response)), s').
Proof.
  eexists _, _. split; [vm_compute; reflexivity|].
  refine (proj2 (proj1 (create_then_retrieve (H := example_collaborators)
                          example_store _ 1%nat 0%nat
                          (Request.mk (Some 3%nat)
                             {[ "text" := JStr "slow"; "score" := JInt 5 ]})
                          (Request.mk None ∅) _
                          (example_store_authenticates_anonymous _ _)) _)).
  vm_compute. reflexivity.
Defined.

(** X16 at the example store: the admin deletes the title. *)
Lemma destroy_then_404_witness :
  ∃ response s',
    TitleViewSet_destroy (H := example_collaborators) 1
      (Request.mk (Some 3%nat) ∅) example_store
    = (Ok response, s')
    ∧ TitleViewSet_retrieve (H := example_collaborators) 1
        (Request.mk None ∅) s'
      = (Raise Http404, s')
    ∧ ReviewViewSet_list 1 (Request.mk None ∅) s' = (Raise Http404, s').
Proof.
  eexists _, _. split; [vm_compute; reflexivity|].
  refine (proj1 (destroy_then_404 (H := example_collaborators)
                   example_store _ 1%nat 0%nat 0%nat
                   (Request.mk (Some 3%nat) ∅) (Request.mk None ∅) _
                   (example_store_authenticates_anonymous _ _)) _).
  vm_compute. reflexivity.
Defined.

(** X17 at the example store: the admin sends the body of a create as a
    full update. *)
Lemma TitleViewSet_update_full_nested_witness :
  (∃ d, TitleViewSet_update (H := example_collaborators) false 1
          (Request.mk (Some 3%nat) example_title_body) example_store
        = (Raise (ValidationError d), example_store))
  ∨ TitleViewSet_update (H := example_collaborators) false 1
      (Request.mk (Some 3%nat) example_title_body) example_store
    = (Raise AssertionError, example_store).
Proof.
  refine (proj2 (TitleViewSet_update_full_nested (H := example_collaborators)
                   example_store 1%nat
                   (Request.mk (Some 3%nat) example_title_body) _)
            3%nat (User.mk "root" "root@example.org" "" "" "" "admin")
            (Title.mk "Solaris" 1972 "" (Some "film"))
            eq_refl eq_refl eq_refl eq_refl).
  left. by eexists.
Defined.

(** X18 at the example store: the titles of the genre drama. *)
Lemma TitleViewSet_list_filter_witness :
  ∃ items,
    TitleViewSet_list (H := example_collaborators)
      (TitleFilter.mk None None None (Some "drama")) (Request.mk None ∅)
      example_store
    = (Ok (Response.mk 200 (JList items)), example_store)
    ∧ Some (JInt 1) ∈ field_of "id" <$> items.
Proof.
  destruct (TitleViewSet_list_filter (H := example_collaborators)
              example_store (TitleFilter.mk None None None (Some "drama"))
              (Request.mk None ∅) (example_store_authenticates_anonymous _ _))
    as (items & Hlist & _ & Hitems).
  exists items. split; [exact Hlist|].
  apply (Hitems 1%nat). exists (Title.mk "Solaris" 1972 "" (Some "film")).
  split; [reflexivity|]. repeat split; try discriminate.
  intros g [= <-]. by exists 1%nat.
Defined.

(** X20 at the example store: the admin takes the role of a plain user. *)
Lemma UserViewSet_me_admin_role_witness :
  ∃ body u',
    UserViewSet_me (H := example_collaborators) PATCH
      (Request.mk (Some 3%nat) {[ "role" := "user" ]}) example_store
    = (Ok (Response.mk 200 body),
       with_users (<[3%nat := u']> (users example_store)) example_store)
    ∧ User.role u' = "user".
Proof.
  destruct (UserViewSet_me_admin_role (H := example_collaborators)
              example_store (Request.mk (Some 3%nat) {[ "role" := "user" ]})
              PATCH 3%nat (User.mk "root" "root@example.org" "" "" "" "admin")
              "user" "user")
    as (vd & Hrun & Hrole & Hok);
    [reflexivity | reflexivity | reflexivity | by left | |
     reflexivity | reflexivity |].
  - intros name raw Hname Hraw. cbn in Hraw.
    destruct (decide (name = "role")) as [->|Hr]; simplify_map_eq;
      by eexists.
  - destruct Hok as [body Hme].
    + intros k u0 Hk Hne. injection Hrun as <-.
      destruct (example_store_users k u0 Hk) as [[-> ->]|[[-> ->]|[-> ->]]];
        done.
    + eexists body, _. split; [exact Hme|exact Hrole].
Defined.

(** X21 at the example store: a signup of a new user. *)
Lemma SignUpViewSet_create_keeps_users_witness :
  let s' :=
    (SignUpViewSet_create (H := example_collaborators)
       (Request.mk None {[ "username" := "eve"; "email" := "eve@example.org" ]})
       example_store).2 in
  unique_usernames example_store ∧ unique_emails example_store
  ∧ unique_usernames s' ∧ unique_emails s'.
Proof.
  split; [exact example_store_unique_usernames|].
  split; [exact example_store_unique_emails|].
  destruct (SignUpViewSet_create_keeps_users (H := example_collaborators)
              example_store
              (Request.mk None
                 {[ "username" := "eve"; "email" := "eve@example.org" ]})
              example_store_unique_usernames example_store_unique_emails)
    as (Hn & He & _).
  split; [exact Hn|exact He].
Defined.

(** X22 at the example store: eve signs up and exchanges the code of the
    mail for a token. *)
Lemma signup_then_token_witness :
  ∃ response s' code,
    SignUpViewSet_create (H := example_collaborators)
      (Request.mk None {[ "username" := "eve"; "email" := "eve@example.org" ]})
      example_store
    = (Ok response, s')
    ∧ last (outbox s') = Some ("eve@example.org", code)
    ∧ ∃ token,
        TokenObtainView_post (H := example_collaborators)
          (Request.mk None
             {[ "username" := "eve"; "confirmation_code" := code ]}) s'
        = (Ok (Response.mk 200 (JObj [("token", JStr token)])), s').
Proof.
  assert (∃ response s',
            SignUpViewSet_create (H := example_collaborators)
              (Request.mk None
                 {[ "username" := "eve"; "email" := "eve@example.org" ]})
              example_store
            = (Ok response, s')) as (response & s' & Hcreate)
    by (eexists _, _; vm_compute; reflexivity).
  destruct (signup_then_token (H := example_collaborators) example_store s'
              (Request.mk None
                 {[ "username" := "eve"; "email" := "eve@example.org" ]})
              response)
    as (username & email & code & Hvalid & Hlast & Htoken).
  - intros pk u. apply String.eqb_refl.
  - intros pk u. discriminate.
  - exact example_store_unique_usernames.
  - exact Hcreate.
  - vm_compute in Hvalid. injection Hvalid as <- <-.
    exists response, s', code. split; [exact Hcreate|].
    split; [exact Hlast|]. apply Htoken; by simplify_map_eq.
Defined.

(** X23 at the example store: the admin creates a title of the genre
    drama. *)
Lemma TitleViewSet_create_genres_witness :
  ∃ response s',
    TitleViewSet_create (H := example_collaborators)
      (Request.mk (Some 3%nat) example_title_body) example_store
    = (Ok response, s')
    ∧ Response.status response = 201%nat
    ∧ Title_genre_all s' 2 ≡ₚ ["drama"]
    ∧ foreign_keys_hold s'.
Proof.
  destruct (TitleViewSet_create_genres (H := example_collaborators)
              example_store (Request.mk (Some 3%nat) example_title_body)
              3%nat (User.mk "root" "root@example.org" "" "" "" "admin")
              (TitleData.mk "Stalker" 1979 "The Zone" ["drama"] "film"))
    as (rows & Hcreate & _ & _ & Hgenres & _ & Hfk);
    [reflexivity | reflexivity | reflexivity | exact example_store_foreign_keys
     | vm_compute; reflexivity |].
  eexists _, _. split; [exact Hcreate|]. split; [reflexivity|].
  split; [exact Hgenres|exact Hfk].
Defined.

(** X24 at the example store: the admin takes the genres from the title and
    corrects its year. *)
Lemma TitleViewSet_partial_update_fields_witness :
  ∃ body s',
    TitleViewSet_update (H := example_collaborators) true 1
      (Request.mk (Some 3%nat) {[ "year" := JInt 1971; "genre" := JList [] ]})
      example_store
    = (Ok (Response.mk 200 body), s')
    ∧ titles s' !! 1%nat = Some (Title.mk "Solaris" 1971 "" (Some "film"))
    ∧ ∀ g, g ∉ Title_genre_all s' 1.
Proof.
  destruct (TitleViewSet_partial_update_fields (H := example_collaborators)
              example_store
              (Request.mk (Some 3%nat)
                 {[ "year" := JInt 1971; "genre" := JList [] ]})
              1%nat 3%nat (User.mk "root" "root@example.org" "" "" "" "admin")
              (Title.mk "Solaris" 1972 "" (Some "film"))
              (TitlePatch.mk None (Some 1971) None (Some []) None))
    as (rows & body & Hupdate & Hgenres & _);
    [reflexivity | reflexivity | reflexivity | reflexivity
     | vm_compute; reflexivity |].
  eexists body, _. split; [exact Hupdate|]. split; [reflexivity|].
  intros g Hg. apply Hgenres in Hg. by apply elem_of_nil in Hg.
Defined.

(** X25 at the example store: alice deletes her review, which has a
    comment. *)
Lemma handlers_keep_foreign_keys_witness :
  foreign_keys_hold example_store
  ∧ foreign_keys_hold
      (ReviewViewSet (H := example_collaborators) Action.destroy 1 1
         (Request.mk (Some 1%nat) ∅) example_store).2.
Proof.
  split; [exact example_store_foreign_keys|].
  apply (proj1 (handlers_keep_foreign_keys (H := example_collaborators)
                  example_store example_store_foreign_keys)).
Defined.

(** X27 at the example store: the title after the deletion of its
    category. *)
Lemma TitleViewSet_retrieve_after_Category_delete_witness :
  ∃ body,
    TitleViewSet_retrieve (H := example_collaborators) 1 (Request.mk None ∅)
      (Category_delete "film" example_store)
    = (Ok (Response.mk 200 body), Category_delete "film" example_store)
    ∧ field_of "category" body = Some JNull.
Proof.
  destruct (TitleViewSet_retrieve_after_Category_delete
              (H := example_collaborators) example_store (Request.mk None ∅)
              "film" 1%nat (Title.mk "Solaris" 1972 "" (Some "film"))
              (example_store_authenticates_anonymous _ _) eq_refl eq_refl)
    as (body & Hretrieve & _ & _ & Hcategory).
  exists body. split; [exact Hretrieve|exact Hcategory].
Defined.

(** X28 at the example store: bob, who has commented alice's review,
    comments it again. *)
Lemma CommentViewSet_create_accepts_witness :
  ∃ body s',
    CommentViewSet_create (H := example_collaborators) 1 1
      (Request.mk (Some 2%nat) {[ "text" := JStr "agreed" ]}) example_store
    = (Ok (Response.mk 201 body), s')
    ∧ comments s' !! 2%nat = Some (Comments.mk 1 "agreed" 2 0).
Proof.
  destruct (CommentViewSet_create_accepts (H := example_collaborators)
              example_store 1%nat 1%nat
              (Request.mk (Some 2%nat) {[ "text" := JStr "agreed" ]}) 2%nat
              (User.mk "bob" "bob@example.org" "" "" "" "user") "agreed")
    as [Hcreate _]; [reflexivity | reflexivity | | reflexivity |].
  - split; [by eexists|]. by eexists.
  - eexists _, _. split; [exact Hcreate|]. reflexivity.
Defined.

(** X29 at the example store: the admin's review names bob as its author in
    the body; the answer names the admin. *)
Lemma create_response_author_witness :
  ∃ response s',
    ReviewViewSet_create (H := example_collaborators) 1
      (Request.mk (Some 3%nat)
         {[ "text" := JStr "slow"; "score" := JInt 5; "author" := JStr "bob" ]})
      example_store
    = (Ok response, s')
    ∧ field_of "author" (Response.data response) = Some (JStr "root").
Proof.
  assert (∃ response s',
            ReviewViewSet_create (H := example_collaborators) 1
              (Request.mk (Some 3%nat)
                 {[ "text" := JStr "slow"; "score" := JInt 5;
                    "author" := JStr "bob" ]})
              example_store
            = (Ok response, s')) as (response & s' & Hcreate)
    by (eexists _, _; vm_compute; reflexivity).
  destruct (proj1 (create_response_author (H := example_collaborators)
                     example_store s' 1%nat 0%nat _ response) Hcreate)
    as (uid & u & Huid & Hu & Hauthor & _).
  exists response, s'. split; [exact Hcreate|].
  rewrite Hauthor. injection Huid as <-. by injection Hu as <-.
Defined.


